(** * whoop-mcp-server: token lifecycle, sync policy, local store and trend queries

    A shallow embedding of the TypeScript sources (crypto.ts, database.ts,
    whoop-client.ts, sync.ts, index.ts) and the properties of the design
    document checked against it.

    Conventions of the embedding.
    - Instants are milliseconds since the Unix epoch, in [Z].
    - A JavaScript string is represented by its UTF-8 byte string ([string]);
      SQLite TEXT comparison (BINARY collation, memcmp) is then the
      lexicographic byte order [String.le] of stdpp.
    - SQL NULL, JavaScript [null] and [undefined] are [None].
    - INTEGER columns are [Z], REAL columns are exact rationals [Q].
    - A table with a primary key is a finite map from the key to the row.
    - A thrown exception is the [Throw] case of [Result]; code that awaits or
      mutates threads a world through the monad [M]. *)

From Stdlib Require Import ZArith QArith Qround String Ascii List Lia.
From stdpp Require Import gmap strings list sorting pretty.

Local Open Scope string_scope.
Local Open Scope list_scope.
Local Open Scope Z_scope.

(** ** JavaScript values shared by all components *)

Module JS.

(** What a [throw] carries: an [Error] instance with its message, or any
    other value (for which [error instanceof Error] is false). *)
Inductive Thrown : Type :=
| JsError (message : string)
| NonError.

Inductive Result (A : Type) : Type :=
| Ok (a : A)
| Throw (e : Thrown).
Arguments Ok {A} a.
Arguments Throw {A} e.

Definition is_ok {A} (r : Result A) : bool :=
  match r with Ok _ => true | Throw _ => false end.

(** [!s] on a string: the empty string is falsy. *)
Definition truthy (s : string) : bool := negb (String.eqb s "").

(** [!x] on [string | null | undefined]. *)
Definition truthy_opt (o : option string) : bool :=
  match o with Some s => truthy s | None => false end.

(** [a || b] on optional strings. *)
Definition or_else (a b : option string) : option string :=
  if truthy_opt a then a else b.

(** [s.split(sep)] for a one-character separator. *)
Fixpoint split (sep : ascii) (s : string) : list string :=
  match s with
  | EmptyString => [EmptyString]
  | String c s' =>
      let r := split sep s' in
      if Ascii.eqb c sep then EmptyString :: r
      else match r with
           | [] => [String c EmptyString]
           | h :: t => String c h :: t
           end
  end.

(** [arr[i]], [undefined] out of range. *)
Definition nth_opt {A} (l : list A) (i : nat) : option A := l !! i.

Fixpoint contains (c : ascii) (s : string) : bool :=
  match s with
  | EmptyString => false
  | String d s' => Ascii.eqb d c || contains c s'
  end.

(** A JavaScript number: NaN, an infinity, or a finite value (taken
    exactly, as a rational). *)
Inductive Num : Type :=
| NaN
| PosInf
| NegInf
| Fin (q : Q).

Coercion Fin : Q >-> Num.

Definition isNaN (n : Num) : bool :=
  match n with NaN => true | _ => false end.

(** [a < b] on numbers, false when either is NaN. *)
Definition num_lt (a b : Num) : bool :=
  match a, b with
  | NaN, _ | _, NaN => false
  | PosInf, _ | _, NegInf => false
  | NegInf, _ | _, PosInf => true
  | Fin x, Fin y => negb (Qle_bool y x)
  end.

Definition Math_min (a b : Num) : Num :=
  match a, b with
  | NaN, _ | _, NaN => NaN
  | _, _ => if num_lt b a then b else a
  end.

(** A value of type [unknown], as far as the code inspects one.  [JOther]
    is any object or array, given by what [String(value)] returns for
    it. *)
Inductive JsValue : Type :=
| JUndefined
| JNull
| JBool (b : bool)
| JNumber (n : Num)
| JString (s : string)
| JOther (image : string).

(** [String(value)] for a value that is not a number. *)
Definition String_of (v : JsValue) : string :=
  match v with
  | JUndefined => "undefined"
  | JNull => "null"
  | JBool true => "true"
  | JBool false => "false"
  | JNumber _ => ""
  | JString s => s
  | JOther image => image
  end.

(** *** State and exceptions

    A computation reads and writes a world of type [S] and either returns
    or throws; what it wrote before throwing stays written. *)
Definition M (S A : Type) : Type := S -> Result A * S.

Definition ret {S A} (a : A) : M S A := fun s => (Ok a, s).

Definition bind {S A B} (c : M S A) (k : A -> M S B) : M S B :=
  fun s => match c s with
           | (Ok a, s') => k a s'
           | (Throw e, s') => (Throw e, s')
           end.

Definition throw {S A} (e : Thrown) : M S A := fun s => (Throw e, s).

Definition get {S} : M S S := fun s => (Ok s, s).

Definition modify {S} (f : S -> S) : M S unit := fun s => (Ok tt, f s).

(** [try { c } catch (e) { h(e) }] *)
Definition try_catch {S A} (c : M S A) (h : Thrown -> M S A) : M S A :=
  fun s => match c s with
           | (Ok a, s') => (Ok a, s')
           | (Throw e, s') => h e s'
           end.

(** A synchronous call that returns or throws without touching the
    world. *)
Definition lift {S A} (r : Result A) : M S A := fun s => (r, s).

(** The host's [Date]: what its constructor makes of a string,
    [new Date(s).getTime()], [None] for an invalid date (NaN) (the reading
    of strings that are not in the ISO format is left to the implementation
    by the language), and its time zone, [LocalTZA(t, isUTC)] of the
    language definition: the offset of local time from UTC in milliseconds,
    at the instant [t] or, with [isUTC] false, at the local time [t]. *)
Class Host : Type := {
  Date_parse : string -> option Z;
  LocalTZA : Z -> bool -> Z
}.

End JS.
Export JS.

Declare Scope m_scope.
Delimit Scope m_scope with M.
Notation "x <- c1 ;; c2" := (bind c1 (fun x => c2))
  (at level 100, c1 at next level, right associativity) : m_scope.
Notation "c1 ;;; c2" := (bind c1 (fun _ => c2))
  (at level 100, right associativity) : m_scope.

(** ** Calendar: what [Date.prototype.toISOString], SQLite's
    [CURRENT_TIMESTAMP] and SQLite's [DATE()] compute *)

Module Calendar.

Definition msPerSecond : Z := 1000.
Definition msPerMinute : Z := 60000.
Definition msPerHour : Z := 3600000.
Definition msPerDay : Z := 86400000.

(** Proleptic Gregorian date of a day number (days since 1970-01-01). *)
Definition civil_from_days (z : Z) : Z * Z * Z :=
  let z := z + 719468 in
  let era := z / 146097 in
  let doe := z - era * 146097 in
  let yoe := (doe - doe / 1460 + doe / 36524 - doe / 146096) / 365 in
  let y := yoe + era * 400 in
  let doy := doe - (365 * yoe + yoe / 4 - yoe / 100) in
  let mp := (5 * doy + 2) / 153 in
  let d := doy - (153 * mp + 2) / 5 + 1 in
  let m := if mp <? 10 then mp + 3 else mp - 9 in
  (if m <=? 2 then y + 1 else y, m, d).

Definition days_from_civil (y m d : Z) : Z :=
  let y := if m <=? 2 then y - 1 else y in
  let era := y / 400 in
  let yoe := y - era * 400 in
  let doy := (153 * (if 2 <? m then m - 3 else m + 9) + 2) / 5 + d - 1 in
  let doe := yoe * 365 + yoe / 4 - yoe / 100 + doy in
  era * 146097 + doe - 719468.

Definition digit (n : Z) : ascii := ascii_of_N (48 + Z.to_N (n mod 10)).

(** The last [w] decimal digits of [n], zero padded. *)
Fixpoint pad (w : nat) (n : Z) : string :=
  match w with
  | O => EmptyString
  | S w' => pad w' (n / 10) +:+ String (digit n) EmptyString
  end.

(** Four digits for years 0..9999, otherwise the signed six-digit
    expanded year of ECMAScript. *)
Definition year_string (y : Z) : string :=
  if (0 <=? y) && (y <=? 9999) then pad 4 y
  else (if y <? 0 then "-" else "+") +:+ pad 6 (Z.abs y).

(** [YYYY-MM-DD] of the UTC day containing the instant. *)
Definition date_string (t : Z) : string :=
  let '(y, m, d) := civil_from_days (t / msPerDay) in
  year_string y +:+ "-" +:+ pad 2 m +:+ "-" +:+ pad 2 d.

(** [HH:MM:SS] of the instant within its UTC day. *)
Definition time_string (t : Z) : string :=
  let r := t mod msPerDay in
  pad 2 (r / msPerHour) +:+ ":" +:+ pad 2 (r mod msPerHour / msPerMinute)
    +:+ ":" +:+ pad 2 (r mod msPerMinute / msPerSecond).

(** The range of a valid [Date] (TimeClip). *)
Definition maxTime : Z := 8640000000000000.
Definition valid_time (t : Z) : bool := (- maxTime <=? t) && (t <=? maxTime).

(** [d.toISOString()] for a valid date:
    [YYYY-MM-DDTHH:MM:SS.sssZ]. *)
Definition toISOString (t : Z) : string :=
  date_string t +:+ "T" +:+ time_string t +:+ "." +:+ pad 3 (t mod msPerSecond) +:+ "Z".

(** SQLite's [CURRENT_TIMESTAMP]: [YYYY-MM-DD HH:MM:SS], UTC. *)
Definition CURRENT_TIMESTAMP (now : Z) : string :=
  date_string now +:+ " " +:+ time_string now.

(** *** Reading a timestamp, as SQLite's date functions do

    [YYYY-MM-DD], optionally followed by blanks or [T]s and [HH:MM],
    [HH:MM:SS] or [HH:MM:SS.fff...], optionally followed by [Z] or a
    [+HH:MM] / [-HH:MM] zone.  The result is the UTC instant. *)

Definition digit_val (c : ascii) : option Z :=
  let n := Z.of_N (N_of_ascii c) in
  if (48 <=? n) && (n <=? 57) then Some (n - 48) else None.

(** Exactly [k] decimal digits. *)
Fixpoint take_digits (k : nat) (acc : Z) (s : string) : option (Z * string) :=
  match k with
  | O => Some (acc, s)
  | S k' =>
      match s with
      | String c s' =>
          match digit_val c with
          | Some v => take_digits k' (10 * acc + v) s'
          | None => None
          end
      | EmptyString => None
      end
  end.

Definition expect (c : ascii) (s : string) : option string :=
  match s with
  | String d s' => if Ascii.eqb c d then Some s' else None
  | EmptyString => None
  end.

Definition in_range (lo hi v : Z) : option Z :=
  if (lo <=? v) && (v <=? hi) then Some v else None.

Definition is_blank (c : ascii) : bool :=
  let n := N_of_ascii c in ((9 <=? n) && (n <=? 13))%N || (n =? 32)%N.

Fixpoint skip_while (f : ascii -> bool) (s : string) : string :=
  match s with
  | String c s' => if f c then skip_while f s' else s
  | EmptyString => s
  end.

Definition is_digit (c : ascii) : bool :=
  match digit_val c with Some _ => true | None => false end.

Fixpoint take_while (f : ascii -> bool) (s : string) : string :=
  match s with
  | String c s' => if f c then String c (take_while f s') else EmptyString
  | EmptyString => EmptyString
  end.

(** The [i]-th digit of a digit string, 0 past its end. *)
Definition digit_at (ds : string) (i : nat) : Z :=
  match String.get i ds with
  | Some c => default 0 (digit_val c)
  | None => 0
  end.

(** The fraction of a second, rounded to the nearest millisecond. *)
Definition parse_fraction (s : string) : Z * string :=
  match s with
  | String "." r =>
      let ds := take_while is_digit r in
      if String.eqb ds "" then (0, s)
      else (100 * digit_at ds 0 + 10 * digit_at ds 1 + digit_at ds 2
            + (if 5 <=? digit_at ds 3 then 1 else 0),
            skip_while is_digit r)
  | _ => (0, s)
  end.

(** [Z], [z], [+HH:MM] or [-HH:MM], then only blanks: the zone in minutes
    east of UTC. *)
Definition parse_zone (s : string) : option Z :=
  let s := skip_while is_blank s in
  match s with
  | EmptyString => Some 0
  | String c s' =>
      if Ascii.eqb c "Z" || Ascii.eqb c "z" then
        if String.eqb (skip_while is_blank s') "" then Some 0 else None
      else if Ascii.eqb c "+" || Ascii.eqb c "-" then
        '(h, s1) ← take_digits 2 0 s';
        h ← in_range 0 14 h;
        s2 ← expect ":" s1;
        '(m, s3) ← take_digits 2 0 s2;
        m ← in_range 0 59 m;
        if String.eqb (skip_while is_blank s3) ""
        then Some ((if Ascii.eqb c "-" then -1 else 1) * (60 * h + m))
        else None
      else None
  end.

Definition parse_time (s : string) : option Z :=
  '(h, s1) ← take_digits 2 0 s;
  h ← in_range 0 24 h;
  s2 ← expect ":" s1;
  '(m, s3) ← take_digits 2 0 s2;
  m ← in_range 0 59 m;
  match s3 with
  | String ":" s4 =>
      '(sec, s5) ← take_digits 2 0 s4;
      sec ← in_range 0 59 sec;
      let '(ms, s6) := parse_fraction s5 in
      tz ← parse_zone s6;
      Some (h * msPerHour + m * msPerMinute + sec * msPerSecond + ms - tz * msPerMinute)
  | _ =>
      tz ← parse_zone s3;
      Some (h * msPerHour + m * msPerMinute - tz * msPerMinute)
  end.

Definition parse_timestamp (s : string) : option Z :=
  '(y, s1) ← take_digits 4 0 s;
  s2 ← expect "-" s1;
  '(m, s3) ← take_digits 2 0 s2;
  m ← in_range 1 12 m;
  s4 ← expect "-" s3;
  '(d, s5) ← take_digits 2 0 s4;
  d ← in_range 1 31 d;
  let day := days_from_civil y m d * msPerDay in
  let s6 := skip_while (fun c => is_blank c || Ascii.eqb c "T") s5 in
  match parse_time s6 with
  | Some t => Some (day + t)
  | None => if String.eqb s6 "" then Some day else None
  end.

(** The instants the date functions can print: years 0000 to 9999. *)
Definition printable (t : Z) : bool :=
  (-62167219200000 <=? t) && (t <=? 253402300799999).

(** [DATE(text)]: NULL when the text is not a timestamp. *)
Definition DATE (text : string) : option string :=
  t ← parse_timestamp text;
  if printable t then Some (date_string t) else None.

End Calendar.
Export Calendar.

(** ** crypto.ts: encryption of tokens at rest *)

Module Crypto.

Abbreviation Buffer := (list Byte.byte).

(** The part of [node:crypto] the module calls.  [scryptSync] derives the
    key; [gcm_encrypt key iv plaintext] is [createCipheriv('aes-256-gcm')]
    followed by [update], [final] and [getAuthTag]; [gcm_decrypt] is
    [createDecipheriv], [setAuthTag], [update] and [final], which throws
    when the tag does not authenticate.  GCM is a counter mode: the
    ciphertext is as long as the plaintext, and the default tag has 16
    bytes. *)
Class NodeCrypto : Type := {
  scryptSync : string -> Buffer -> nat -> Buffer;
  gcm_encrypt : Buffer -> Buffer -> Buffer -> Buffer * Buffer;
  gcm_decrypt : Buffer -> Buffer -> Buffer -> Buffer -> Result Buffer;
  gcm_decrypt_encrypt : forall key iv p,
    gcm_decrypt key iv (snd (gcm_encrypt key iv p)) (fst (gcm_encrypt key iv p)) = Ok p;
  gcm_ciphertext_length : forall key iv p,
    length (fst (gcm_encrypt key iv p)) = length p;
  gcm_tag_length : forall key iv p,
    length (snd (gcm_encrypt key iv p)) = 16%nat
}.

(** [process.env] as far as the module reads it. *)
Record Env : Type := {
  ENCRYPTION_SECRET : option string;
  WHOOP_CLIENT_SECRET : option string
}.

Definition KEY_LENGTH : nat := 32.
Definition IV_LENGTH : nat := 16.

(** [buf.toString('hex')]: two lower-case digits per byte. *)
Definition hex_digit (n : N) : ascii :=
  if (n <? 10)%N then ascii_of_N (48 + n) else ascii_of_N (87 + n).

Fixpoint to_hex (b : Buffer) : string :=
  match b with
  | [] => EmptyString
  | x :: b' =>
      String (hex_digit (Byte.to_N x / 16))
        (String (hex_digit (Byte.to_N x mod 16)) (to_hex b'))
  end.

Definition hex_value (c : ascii) : option N :=
  let n := N_of_ascii c in
  if (48 <=? n)%N && (n <=? 57)%N then Some (n - 48)%N
  else if (97 <=? n)%N && (n <=? 102)%N then Some (n - 87)%N
  else if (65 <=? n)%N && (n <=? 70)%N then Some (n - 55)%N
  else None.

(** [Buffer.from(s, 'hex')]: decodes pairs of digits and stops at the first
    pair that is not hexadecimal; a trailing single character is dropped. *)
Fixpoint from_hex (s : string) : Buffer :=
  match s with
  | String a (String b s') =>
      match hex_value a, hex_value b with
      | Some x, Some y =>
          match Byte.of_N (16 * x + y) with
          | Some v => v :: from_hex s'
          | None => []
          end
      | _, _ => []
      end
  | _ => []
  end.

Section WithCrypto.
Context `{NodeCrypto}.

Definition getEncryptionKey (env : Env) : Result Buffer :=
  match or_else (ENCRYPTION_SECRET env) (WHOOP_CLIENT_SECRET env) with
  | Some secret =>
      if truthy secret
      then Ok (scryptSync secret (list_byte_of_string "whoop-mcp-token-encryption") KEY_LENGTH)
      else Throw (JsError "No encryption secret available")
  | None => Throw (JsError "No encryption secret available")
  end.

(** [iv] is the value [randomBytes(IV_LENGTH)] returned. *)
Definition encrypt (env : Env) (iv : Buffer) (text : string) : Result string :=
  match getEncryptionKey env with
  | Throw e => Throw e
  | Ok key =>
      let '(encrypted, authTag) := gcm_encrypt key iv (list_byte_of_string text) in
      Ok (to_hex iv +:+ ":" +:+ to_hex authTag +:+ ":" +:+ to_hex encrypted)
  end.

Definition decrypt (env : Env) (encryptedData : string) : Result string :=
  match getEncryptionKey env with
  | Throw e => Throw e
  | Ok key =>
      let parts := split ":" encryptedData in
      let ivHex := nth_opt parts 0 in
      let authTagHex := nth_opt parts 1 in
      let encrypted := nth_opt parts 2 in
      match ivHex, authTagHex, encrypted with
      | Some ivHex, Some authTagHex, Some encrypted =>
          if negb (truthy ivHex) || negb (truthy authTagHex) || negb (truthy encrypted)
          then Throw (JsError "Invalid encrypted data format")
          else
            match gcm_decrypt key (from_hex ivHex) (from_hex authTagHex) (from_hex encrypted) with
            | Ok decrypted => Ok (string_of_list_byte decrypted)
            | Throw e => Throw e
            end
      | _, _, _ => Throw (JsError "Invalid encrypted data format")
      end
  end.

Definition isEncrypted (data : string) : bool :=
  let parts := split ":" data in
  (length parts =? 3)%nat
  && match nth_opt parts 0 with
     | Some p => (String.length p =? IV_LENGTH * 2)%nat
     | None => false
     end.

End WithCrypto.

(** A stand-in for the library that satisfies the interface (it does not
    hide anything): used to run the module on concrete inputs. *)
Definition zero_tag : Buffer := repeat Byte.x00 16.

Definition toy_decrypt (key iv tag c : Buffer) : Result Buffer :=
  if String.eqb (to_hex tag) (to_hex zero_tag) then Ok c
  else Throw (JsError "Unsupported state or unable to authenticate data").

#[refine] Instance toy_crypto : NodeCrypto := {|
  scryptSync secret salt n := repeat Byte.x00 n;
  gcm_encrypt key iv p := (p, zero_tag);
  gcm_decrypt := toy_decrypt
|}.
Proof.
  - intros; reflexivity.
  - intros; reflexivity.
  - intros; reflexivity.
Defined.

End Crypto.
Export Crypto.

(** ** types.ts: upstream records and stored rows *)

Module Types.

Record WhoopTokens : Type := {
  access_token : string;
  refresh_token : string;
  expires_at : Z
}.

Inductive ScoreState : Type := SCORED | PENDING_SCORE | UNSCORABLE.

Definition score_state_text (s : ScoreState) : string :=
  match s with
  | SCORED => "SCORED"
  | PENDING_SCORE => "PENDING_SCORE"
  | UNSCORABLE => "UNSCORABLE"
  end.

Record CycleScore : Type := {
  cs_strain : Q;
  cs_kilojoule : Q;
  cs_average_heart_rate : Z;
  cs_max_heart_rate : Z
}.

Record WhoopCycle : Type := {
  c_id : Z;
  c_user_id : Z;
  c_start : string;
  c_end : option string;
  c_timezone_offset : string;
  c_score_state : ScoreState;
  c_score : option CycleScore
}.

Record RecoveryScore : Type := {
  rs_user_calibrating : bool;
  rs_recovery_score : Z;
  rs_resting_heart_rate : Z;
  rs_hrv_rmssd_milli : Q;
  rs_spo2_percentage : option Q;
  rs_skin_temp_celsius : option Q
}.

Record WhoopRecovery : Type := {
  r_cycle_id : Z;
  r_sleep_id : string;
  r_user_id : Z;
  r_created_at : string;
  r_updated_at : string;
  r_score_state : ScoreState;
  r_score : option RecoveryScore
}.

Record StageSummary : Type := {
  total_in_bed_time_milli : Z;
  total_awake_time_milli : Z;
  total_no_data_time_milli : Z;
  total_light_sleep_time_milli : Z;
  total_slow_wave_sleep_time_milli : Z;
  total_rem_sleep_time_milli : Z;
  sleep_cycle_count : Z;
  disturbance_count : Z
}.

Record SleepNeeded : Type := {
  baseline_milli : Z;
  need_from_sleep_debt_milli : Z;
  need_from_recent_strain_milli : Z;
  need_from_recent_nap_milli : Z
}.

Record SleepScore : Type := {
  stage_summary : StageSummary;
  sleep_needed : SleepNeeded;
  respiratory_rate : Q;
  sleep_performance_percentage : Q;
  sleep_consistency_percentage : Q;
  sleep_efficiency_percentage : Q
}.

Record WhoopSleep : Type := {
  s_id : string;
  s_user_id : Z;
  s_created_at : string;
  s_updated_at : string;
  s_start : string;
  s_end : string;
  s_timezone_offset : string;
  s_nap : bool;
  s_score_state : ScoreState;
  s_score : option SleepScore
}.

Record ZoneDuration : Type := {
  zone_zero_milli : Z;
  zone_one_milli : Z;
  zone_two_milli : Z;
  zone_three_milli : Z;
  zone_four_milli : Z;
  zone_five_milli : Z
}.

Record WorkoutScore : Type := {
  ws_strain : Q;
  ws_average_heart_rate : Z;
  ws_max_heart_rate : Z;
  ws_kilojoule : Q;
  ws_percent_recorded : Q;
  ws_zone_duration : ZoneDuration
}.

Record WhoopWorkout : Type := {
  w_id : string;
  w_user_id : Z;
  w_created_at : string;
  w_updated_at : string;
  w_start : string;
  w_end : string;
  w_timezone_offset : string;
  w_sport_id : Z;
  w_score_state : ScoreState;
  w_score : option WorkoutScore
}.

(** Rows of the four record tables, one field per column. *)

Record DbCycle : Type := {
  dc_id : Z;
  dc_user_id : Z;
  dc_start_time : string;
  dc_end_time : option string;
  dc_score_state : string;
  dc_strain : option Q;
  dc_kilojoule : option Q;
  dc_avg_hr : option Z;
  dc_max_hr : option Z;
  dc_synced_at : string
}.

Record DbRecovery : Type := {
  dr_id : Z;
  dr_user_id : Z;
  dr_sleep_id : option string;
  dr_created_at : string;
  dr_score_state : string;
  dr_recovery_score : option Z;
  dr_resting_hr : option Z;
  dr_hrv_rmssd : option Q;
  dr_spo2 : option Q;
  dr_skin_temp : option Q;
  dr_synced_at : string
}.

Record DbSleep : Type := {
  ds_id : string;
  ds_user_id : Z;
  ds_cycle_id : option Z;
  ds_start_time : string;
  ds_end_time : string;
  ds_is_nap : Z;
  ds_score_state : string;
  ds_total_in_bed_milli : option Z;
  ds_total_awake_milli : option Z;
  ds_total_light_milli : option Z;
  ds_total_deep_milli : option Z;
  ds_total_rem_milli : option Z;
  ds_sleep_performance : option Q;
  ds_sleep_efficiency : option Q;
  ds_sleep_consistency : option Q;
  ds_respiratory_rate : option Q;
  ds_sleep_needed_baseline_milli : option Z;
  ds_sleep_needed_debt_milli : option Z;
  ds_sleep_needed_strain_milli : option Z;
  ds_synced_at : string
}.

Record DbWorkout : Type := {
  dw_id : string;
  dw_user_id : Z;
  dw_sport_id : Z;
  dw_start_time : string;
  dw_end_time : string;
  dw_score_state : string;
  dw_strain : option Q;
  dw_avg_hr : option Z;
  dw_max_hr : option Z;
  dw_kilojoule : option Q;
  dw_zone_zero_milli : option Z;
  dw_zone_one_milli : option Z;
  dw_zone_two_milli : option Z;
  dw_zone_three_milli : option Z;
  dw_zone_four_milli : option Z;
  dw_zone_five_milli : option Z;
  dw_synced_at : string
}.

End Types.
Export Types.

(** ** The fragment of SQL the statements of database.ts use *)

Module Sql.

Definition IS_NULL {A} (a : option A) : bool :=
  match a with Some _ => false | None => true end.

Definition IS_NOT_NULL {A} (a : option A) : bool := negb (IS_NULL a).

(** Comparison of TEXT values; NULL when an operand is NULL. *)
Definition LT (a b : option string) : option bool :=
  match a, b with
  | Some x, Some y => Some (String.ltb x y)
  | _, _ => None
  end.

Definition GE (a b : option string) : option bool :=
  match a, b with
  | Some x, Some y => Some (String.leb y x)
  | _, _ => None
  end.

Definition LE (a b : option string) : option bool := GE b a.

Definition OR (a b : option bool) : option bool :=
  match a, b with
  | Some true, _ | _, Some true => Some true
  | Some false, Some false => Some false
  | _, _ => None
  end.

(** A WHERE clause and a CASE WHEN keep only what is true. *)
Definition holds (c : option bool) : bool :=
  match c with Some true => true | _ => false end.

Definition CASE_WHEN {A} (c : option bool) (t e : A) : A :=
  if holds c then t else e.

Definition COALESCE {A} (a b : option A) : option A :=
  match a with Some _ => a | None => b end.

(** Arithmetic yields NULL when an operand is NULL. *)
Definition lift2 {A B C} (f : A -> B -> C) (a : option A) (b : option B) : option C :=
  match a, b with
  | Some x, Some y => Some (f x y)
  | _, _ => None
  end.

Definition round_half_away (q : Q) : Z :=
  if Qle_bool 0 q then Qfloor (q + (1 # 2)) else Qceiling (q - (1 # 2)).

(** [ROUND(x, digits)] on an exact rational. *)
Definition ROUND (digits : nat) (x : option Q) : option Q :=
  match x with
  | Some q =>
      let p := 10 ^ Z.of_nat digits in
      Some (round_half_away (q * inject_Z p) # Z.to_pos p)
  | None => None
  end.

(** The rows of a table, in the order the finite map lists them. *)
Definition rows {K V} `{Countable K} (t : gmap K V) : list V :=
  (map_to_list t).*2.

(** [ORDER BY col DESC], as a stable sort of the rows scanned. *)
Definition ORDER_BY_DESC {A} (col : A -> string) (l : list A) : list A :=
  merge_sort (fun a b => String.le (col b) (col a)) l.

(** [LIMIT 1] with [.get()]. *)
Definition LIMIT_1 {A} (l : list A) : option A := head l.

(** [DATE('now', '-' || ? || ' days')]: the UTC date of the instant
    [days] days before now.  NULL when the modifier does not parse (a
    negative [days] gives ['--3 days']), is beyond SQLite's limit for a
    day modifier, or leaves the printable years; NaN is bound as NULL
    and an infinity as a text that is no number. *)
Definition DATE_now_minus (now : Z) (days : Num) : option string :=
  match days with
  | Fin d =>
      if Qle_bool 0 d && negb (Qle_bool 5373485 d) then
        let t := now - round_half_away (d * inject_Z msPerDay) in
        if printable t then Some (date_string t) else None
      else None
  | _ => None
  end.

End Sql.
Export Sql.

(** ** database.ts: the local store *)

Module Database.

Record TokenRow : Type := {
  tr_access_token : string;
  tr_refresh_token : string;
  tr_expires_at : Z;
  tr_updated_at : string
}.

Record SyncStateRow : Type := {
  last_sync_at : option string;
  oldest_synced_date : option string;
  newest_synced_date : option string
}.

(** The six tables.  [tokens] and [sync_state] hold at most the row with
    [id = 1]; [initSchema] inserts the [sync_state] row. *)
Record Database : Type := {
  tokens : option TokenRow;
  sync_state : SyncStateRow;
  cycles : gmap Z DbCycle;
  recovery : gmap Z DbRecovery;
  sleep : gmap string DbSleep;
  workouts : gmap string DbWorkout
}.

Definition initSchema : Database := {|
  tokens := None;
  sync_state := {| last_sync_at := None; oldest_synced_date := None; newest_synced_date := None |};
  cycles := ∅;
  recovery := ∅;
  sleep := ∅;
  workouts := ∅
|}.

Definition set_tokens (v : option TokenRow) (db : Database) : Database :=
  {| tokens := v; sync_state := sync_state db; cycles := cycles db;
     recovery := recovery db; sleep := sleep db; workouts := workouts db |}.

Definition set_sync_state (v : SyncStateRow) (db : Database) : Database :=
  {| tokens := tokens db; sync_state := v; cycles := cycles db;
     recovery := recovery db; sleep := sleep db; workouts := workouts db |}.

Definition set_cycles (v : gmap Z DbCycle) (db : Database) : Database :=
  {| tokens := tokens db; sync_state := sync_state db; cycles := v;
     recovery := recovery db; sleep := sleep db; workouts := workouts db |}.

Definition set_recovery (v : gmap Z DbRecovery) (db : Database) : Database :=
  {| tokens := tokens db; sync_state := sync_state db; cycles := cycles db;
     recovery := v; sleep := sleep db; workouts := workouts db |}.

Definition set_sleep (v : gmap string DbSleep) (db : Database) : Database :=
  {| tokens := tokens db; sync_state := sync_state db; cycles := cycles db;
     recovery := recovery db; sleep := v; workouts := workouts db |}.

Definition set_workouts (v : gmap string DbWorkout) (db : Database) : Database :=
  {| tokens := tokens db; sync_state := sync_state db; cycles := cycles db;
     recovery := recovery db; sleep := sleep db; workouts := v |}.

(** *** Token storage *)

Section Tokens.
Context `{NodeCrypto}.

(** [iv1] and [iv2] are the two values [randomBytes] returns. *)
Definition saveTokens (env : Env) (iv1 iv2 : Buffer) (now : Z)
    (t : WhoopTokens) (db : Database) : Result Database :=
  match encrypt env iv1 (access_token t) with
  | Throw e => Throw e
  | Ok encryptedAccess =>
      match encrypt env iv2 (refresh_token t) with
      | Throw e => Throw e
      | Ok encryptedRefresh =>
          Ok (set_tokens
                (Some {| tr_access_token := encryptedAccess;
                         tr_refresh_token := encryptedRefresh;
                         tr_expires_at := expires_at t;
                         tr_updated_at := CURRENT_TIMESTAMP now |}) db)
      end
  end.

Definition getTokens (env : Env) (db : Database) : Result (option WhoopTokens) :=
  match tokens db with
  | None => Ok None
  | Some row =>
      match (if isEncrypted (tr_access_token row)
             then decrypt env (tr_access_token row)
             else Ok (tr_access_token row)) with
      | Throw e => Throw e
      | Ok accessToken =>
          match (if isEncrypted (tr_refresh_token row)
                 then decrypt env (tr_refresh_token row)
                 else Ok (tr_refresh_token row)) with
          | Throw e => Throw e
          | Ok refreshToken =>
              Ok (Some {| access_token := accessToken;
                          refresh_token := refreshToken;
                          expires_at := tr_expires_at row |})
          end
      end
  end.

End Tokens.

(** *** Sync state *)

Record SyncState : Type := {
  lastSyncAt : option string;
  oldestDate : option string;
  newestDate : option string
}.

Definition getSyncState (db : Database) : SyncState := {|
  lastSyncAt := last_sync_at (sync_state db);
  oldestDate := oldest_synced_date (sync_state db);
  newestDate := newest_synced_date (sync_state db)
|}.

(** The UPDATE statement, column by column, on the row with [id = 1]. *)
Definition update_sync_row (now : Z) (oldestDate newestDate : string)
    (row : SyncStateRow) : SyncStateRow := {|
  last_sync_at := Some (CURRENT_TIMESTAMP now);
  oldest_synced_date :=
    COALESCE
      (CASE_WHEN
         (OR (Some (IS_NULL (oldest_synced_date row)))
             (LT (Some oldestDate) (oldest_synced_date row)))
         (Some oldestDate) (oldest_synced_date row))
      (Some oldestDate);
  newest_synced_date :=
    COALESCE
      (CASE_WHEN
         (OR (Some (IS_NULL (newest_synced_date row)))
             (LT (newest_synced_date row) (Some newestDate)))
         (Some newestDate) (newest_synced_date row))
      (Some newestDate)
|}.

Definition updateSyncState (now : Z) (oldestDate newestDate : string)
    (db : Database) : Database :=
  set_sync_state (update_sync_row now oldestDate newestDate (sync_state db)) db.

(** *** Upserts

    One [INSERT OR REPLACE] per record, in order, inside one transaction.
    Every NOT NULL column receives a value the record type guarantees, so
    no statement fails and the transaction commits.  [now] is the clock
    [CURRENT_TIMESTAMP] reads while the batch runs. *)

Definition INSERT_OR_REPLACE {K V R} `{Countable K}
    (key : R -> K) (row : R -> V) (items : list R) (t : gmap K V) : gmap K V :=
  foldl (fun t r => <[key r := row r]> t) t items.

Definition cycle_row (now : Z) (c : WhoopCycle) : DbCycle := {|
  dc_id := c_id c;
  dc_user_id := c_user_id c;
  dc_start_time := c_start c;
  dc_end_time := c_end c;
  dc_score_state := score_state_text (c_score_state c);
  dc_strain := cs_strain <$> c_score c;
  dc_kilojoule := cs_kilojoule <$> c_score c;
  dc_avg_hr := cs_average_heart_rate <$> c_score c;
  dc_max_hr := cs_max_heart_rate <$> c_score c;
  dc_synced_at := CURRENT_TIMESTAMP now
|}.

Definition upsertCycles (now : Z) (items : list WhoopCycle) (db : Database) : Database :=
  set_cycles (INSERT_OR_REPLACE c_id (cycle_row now) items (cycles db)) db.

Definition recovery_row (now : Z) (r : WhoopRecovery) : DbRecovery := {|
  dr_id := r_cycle_id r;
  dr_user_id := r_user_id r;
  dr_sleep_id := Some (r_sleep_id r);
  dr_created_at := r_created_at r;
  dr_score_state := score_state_text (r_score_state r);
  dr_recovery_score := rs_recovery_score <$> r_score r;
  dr_resting_hr := rs_resting_heart_rate <$> r_score r;
  dr_hrv_rmssd := rs_hrv_rmssd_milli <$> r_score r;
  dr_spo2 := r_score r ≫= rs_spo2_percentage;
  dr_skin_temp := r_score r ≫= rs_skin_temp_celsius;
  dr_synced_at := CURRENT_TIMESTAMP now
|}.

Definition upsertRecoveries (now : Z) (items : list WhoopRecovery) (db : Database) : Database :=
  set_recovery (INSERT_OR_REPLACE r_cycle_id (recovery_row now) items (recovery db)) db.

(** The statement does not list [cycle_id]: the column takes its default,
    NULL. *)
Definition sleep_row (now : Z) (s : WhoopSleep) : DbSleep := {|
  ds_id := s_id s;
  ds_user_id := s_user_id s;
  ds_cycle_id := None;
  ds_start_time := s_start s;
  ds_end_time := s_end s;
  ds_is_nap := if s_nap s then 1 else 0;
  ds_score_state := score_state_text (s_score_state s);
  ds_total_in_bed_milli := (fun x => total_in_bed_time_milli (stage_summary x)) <$> s_score s;
  ds_total_awake_milli := (fun x => total_awake_time_milli (stage_summary x)) <$> s_score s;
  ds_total_light_milli := (fun x => total_light_sleep_time_milli (stage_summary x)) <$> s_score s;
  ds_total_deep_milli := (fun x => total_slow_wave_sleep_time_milli (stage_summary x)) <$> s_score s;
  ds_total_rem_milli := (fun x => total_rem_sleep_time_milli (stage_summary x)) <$> s_score s;
  ds_sleep_performance := sleep_performance_percentage <$> s_score s;
  ds_sleep_efficiency := sleep_efficiency_percentage <$> s_score s;
  ds_sleep_consistency := sleep_consistency_percentage <$> s_score s;
  ds_respiratory_rate := respiratory_rate <$> s_score s;
  ds_sleep_needed_baseline_milli := (fun x => baseline_milli (sleep_needed x)) <$> s_score s;
  ds_sleep_needed_debt_milli := (fun x => need_from_sleep_debt_milli (sleep_needed x)) <$> s_score s;
  ds_sleep_needed_strain_milli := (fun x => need_from_recent_strain_milli (sleep_needed x)) <$> s_score s;
  ds_synced_at := CURRENT_TIMESTAMP now
|}.

Definition upsertSleeps (now : Z) (items : list WhoopSleep) (db : Database) : Database :=
  set_sleep (INSERT_OR_REPLACE s_id (sleep_row now) items (sleep db)) db.

Definition workout_row (now : Z) (w : WhoopWorkout) : DbWorkout := {|
  dw_id := w_id w;
  dw_user_id := w_user_id w;
  dw_sport_id := w_sport_id w;
  dw_start_time := w_start w;
  dw_end_time := w_end w;
  dw_score_state := score_state_text (w_score_state w);
  dw_strain := ws_strain <$> w_score w;
  dw_avg_hr := ws_average_heart_rate <$> w_score w;
  dw_max_hr := ws_max_heart_rate <$> w_score w;
  dw_kilojoule := ws_kilojoule <$> w_score w;
  dw_zone_zero_milli := (fun x => zone_zero_milli (ws_zone_duration x)) <$> w_score w;
  dw_zone_one_milli := (fun x => zone_one_milli (ws_zone_duration x)) <$> w_score w;
  dw_zone_two_milli := (fun x => zone_two_milli (ws_zone_duration x)) <$> w_score w;
  dw_zone_three_milli := (fun x => zone_three_milli (ws_zone_duration x)) <$> w_score w;
  dw_zone_four_milli := (fun x => zone_four_milli (ws_zone_duration x)) <$> w_score w;
  dw_zone_five_milli := (fun x => zone_five_milli (ws_zone_duration x)) <$> w_score w;
  dw_synced_at := CURRENT_TIMESTAMP now
|}.

Definition upsertWorkouts (now : Z) (items : list WhoopWorkout) (db : Database) : Database :=
  set_workouts (INSERT_OR_REPLACE w_id (workout_row now) items (workouts db)) db.

(** *** Point and range queries *)

Definition getLatestCycle (db : Database) : option DbCycle :=
  LIMIT_1 (ORDER_BY_DESC dc_start_time (rows (cycles db))).

Definition getLatestRecovery (db : Database) : option DbRecovery :=
  LIMIT_1 (ORDER_BY_DESC dr_created_at (rows (recovery db))).

Definition getLatestSleep (db : Database) : option DbSleep :=
  LIMIT_1 (ORDER_BY_DESC ds_start_time
             (List.filter (fun r => ds_is_nap r =? 0) (rows (sleep db)))).

Definition between (startDate endDate col : string) : bool :=
  holds (GE (Some col) (Some startDate)) && holds (LE (Some col) (Some endDate)).

Definition getCyclesByDateRange (startDate endDate : string) (db : Database) : list DbCycle :=
  ORDER_BY_DESC dc_start_time
    (List.filter (fun r => between startDate endDate (dc_start_time r)) (rows (cycles db))).

Definition getRecoveriesByDateRange (startDate endDate : string) (db : Database) : list DbRecovery :=
  ORDER_BY_DESC dr_created_at
    (List.filter (fun r => between startDate endDate (dr_created_at r)) (rows (recovery db))).

Definition getSleepsByDateRange (startDate endDate : string) (includeNaps : bool)
    (db : Database) : list DbSleep :=
  ORDER_BY_DESC ds_start_time
    (List.filter
       (fun r => between startDate endDate (ds_start_time r)
                 && (includeNaps || (ds_is_nap r =? 0)))
       (rows (sleep db))).

Definition getWorkoutsByDateRange (startDate endDate : string) (db : Database) : list DbWorkout :=
  ORDER_BY_DESC dw_start_time
    (List.filter (fun r => between startDate endDate (dw_start_time r)) (rows (workouts db))).

(** *** Trend queries

    Each is split into the rows the WHERE and ORDER BY clauses select and
    the projection of the SELECT list. *)

Record RecoveryTrendRow : Type := {
  rt_date : option string;
  rt_recovery_score : option Z;
  rt_hrv : option Q;
  rt_rhr : option Z
}.

Record SleepTrendRow : Type := {
  st_date : option string;
  st_total_sleep_hours : option Q;
  st_performance : option Q;
  st_efficiency : option Q
}.

Record StrainTrendRow : Type := {
  sn_date : option string;
  sn_strain : option Q;
  sn_calories : option Q
}.

Definition recovery_trend_where (now : Z) (days : Num) (r : DbRecovery) : bool :=
  IS_NOT_NULL (dr_recovery_score r)
  && holds (GE (Some (dr_created_at r)) (DATE_now_minus now days)).

Definition recovery_trend_rows (now : Z) (days : Num) (db : Database) : list DbRecovery :=
  ORDER_BY_DESC dr_created_at
    (List.filter (recovery_trend_where now days) (rows (recovery db))).

Definition recovery_trend_select (r : DbRecovery) : RecoveryTrendRow := {|
  rt_date := DATE (dr_created_at r);
  rt_recovery_score := dr_recovery_score r;
  rt_hrv := dr_hrv_rmssd r;
  rt_rhr := dr_resting_hr r
|}.

Definition getRecoveryTrends (now : Z) (days : Num) (db : Database) : list RecoveryTrendRow :=
  map recovery_trend_select (recovery_trend_rows now days db).

Definition sleep_trend_where (now : Z) (days : Num) (r : DbSleep) : bool :=
  (ds_is_nap r =? 0)
  && IS_NOT_NULL (ds_sleep_performance r)
  && holds (GE (Some (ds_start_time r)) (DATE_now_minus now days)).

Definition sleep_trend_rows (now : Z) (days : Num) (db : Database) : list DbSleep :=
  ORDER_BY_DESC ds_start_time
    (List.filter (sleep_trend_where now days) (rows (sleep db))).

Definition sleep_trend_select (r : DbSleep) : SleepTrendRow := {|
  st_date := DATE (ds_start_time r);
  st_total_sleep_hours :=
    ROUND 2
      ((fun d => inject_Z d / 3600000)%Q
         <$> lift2 Z.sub (ds_total_in_bed_milli r) (ds_total_awake_milli r));
  st_performance := ds_sleep_performance r;
  st_efficiency := ds_sleep_efficiency r
|}.

Definition getSleepTrends (now : Z) (days : Num) (db : Database) : list SleepTrendRow :=
  map sleep_trend_select (sleep_trend_rows now days db).

Definition strain_trend_where (now : Z) (days : Num) (r : DbCycle) : bool :=
  IS_NOT_NULL (dc_strain r)
  && holds (GE (Some (dc_start_time r)) (DATE_now_minus now days)).

Definition strain_trend_rows (now : Z) (days : Num) (db : Database) : list DbCycle :=
  ORDER_BY_DESC dc_start_time
    (List.filter (strain_trend_where now days) (rows (cycles db))).

Definition strain_trend_select (r : DbCycle) : StrainTrendRow := {|
  sn_date := DATE (dc_start_time r);
  sn_strain := dc_strain r;
  sn_calories := ROUND 0 ((fun k => k / (4184 # 1000))%Q <$> dc_kilojoule r)
|}.

Definition getStrainTrends (now : Z) (days : Num) (db : Database) : list StrainTrendRow :=
  map strain_trend_select (strain_trend_rows now days db).

End Database.
Export Database.

(** ** whoop-client.ts: the authenticated request *)

Module Client.

Local Open Scope m_scope.

(** What the token endpoint answers to a refresh grant. *)
Inductive TokenReply : Type :=
| TokenFetchFailed (e : Thrown)
| TokenRejected (text : string)
| TokenGranted (access refresh : string) (expires_in : Z).

(** What the API answers to a GET. *)
Inductive ApiReply : Type :=
| ApiFetchFailed (e : Thrown)
| ApiStatus (status : Z) (text : string)
| ApiJson (body : string).

(** The upstream service: each answer comes with the time it took.
    [onTokenRefresh] is the optional callback of the configuration; it
    returns, or throws what the store throws. *)
Class Upstream : Type := {
  token_endpoint : string -> Z -> TokenReply * Z;
  api_endpoint : string -> list (string * string) -> string -> Z -> ApiReply * Z;
  onTokenRefresh : option (WhoopTokens -> Result unit)
}.

(** What leaves the client. *)
Inductive Event : Type :=
| TokenPost (refresh : string)
| RefreshNotified (t : WhoopTokens)
| ApiGet (path : string) (params : list (string * string)) (bearer : string).

Record ClientState : Type := {
  held : option WhoopTokens;
  clock : Z;
  trace : list Event
}.

Definition emit (e : Event) : M ClientState unit :=
  modify (fun s => {| held := held s; clock := clock s; trace := trace s ++ [e] |}).

Definition elapse (dt : Z) : M ClientState unit :=
  modify (fun s => {| held := held s; clock := clock s + dt; trace := trace s |}).

Definition setTokens (t : WhoopTokens) : M ClientState unit :=
  modify (fun s => {| held := Some t; clock := clock s; trace := trace s |}).

Section WithUpstream.
Context `{Upstream}.

Definition refreshTokens : M ClientState unit :=
  s <- get ;;
  match held s with
  | None => throw (JsError "No refresh token available")
  | Some tk =>
      if negb (truthy (refresh_token tk))
      then throw (JsError "No refresh token available")
      else
        emit (TokenPost (refresh_token tk)) ;;;
        let '(reply, dt) := token_endpoint (refresh_token tk) (clock s) in
        elapse dt ;;;
        match reply with
        | TokenFetchFailed e => throw e
        | TokenRejected text => throw (JsError ("Token refresh failed: " +:+ text))
        | TokenGranted a r expires_in =>
            s' <- get ;;
            let fresh := {| access_token := a; refresh_token := r;
                            expires_at := clock s' + expires_in * 1000 |} in
            setTokens fresh ;;;
            match onTokenRefresh with
            | None => ret tt
            | Some callback => emit (RefreshNotified fresh) ;;; lift (callback fresh)
            end
        end
  end.

(** The part of [request] after the expiry check: the GET with the token
    held at that point, and the reading of the response. *)
Definition send (path : string) (params : list (string * string)) : M ClientState string :=
  s <- get ;;
  match held s with
  | None => throw (JsError "Cannot read properties of null (reading 'access_token')")
  | Some tk =>
      emit (ApiGet path params (access_token tk)) ;;;
      let '(reply, dt) := api_endpoint path params (access_token tk) (clock s) in
      elapse dt ;;;
      match reply with
      | ApiFetchFailed e => throw e
      | ApiStatus status text =>
          throw (JsError ("API request failed: " +:+ pretty status +:+ " " +:+ text))
      | ApiJson body => ret body
      end
  end.

Definition request (path : string) (params : list (string * string)) : M ClientState string :=
  s <- get ;;
  match held s with
  | None => throw (JsError "Not authenticated")
  | Some tk =>
      (if expires_at tk - clock s <? 5 * 60 * 1000 then refreshTokens else ret tt) ;;;
      send path params
  end.

End WithUpstream.

Definition refresh_event (e : Event) : bool :=
  match e with TokenPost _ | RefreshNotified _ => true | ApiGet _ _ _ => false end.

Definition api_event (e : Event) : bool :=
  match e with ApiGet _ _ _ => true | _ => false end.

End Client.

(** ** sync.ts: the sync engine *)

Module Sync.

Local Open Scope m_scope.

(** The store, the clock and the tokens the client holds. *)
Record World : Type := {
  w_db : Database;
  w_now : Z;
  w_client_tokens : option WhoopTokens
}.

Definition on_db (f : Z -> Database -> Database) : M World unit :=
  modify (fun w => {| w_db := f (w_now w) (w_db w); w_now := w_now w;
                      w_client_tokens := w_client_tokens w |}).

(** The four [getAll...] methods of the client, as the engine sees them:
    each resolves with the records of all pages or rejects, and may take
    time, refresh the tokens and have them stored on the way. *)
Inductive Slot : Type := First | Second | Third | Fourth.

(** The four [getAll...] methods of the client, as the engine sees them:
    each resolves with the records of all pages or rejects, and may take
    time, refresh the tokens and have them stored on the way.  When the
    four are started together, [settle_order] is the order in which they
    settle (the places of the array [Promise.all] is given; a call the list
    leaves out settles after those it names). *)
Class Gateway : Type := {
  getAllCycles : string -> string -> M World (list WhoopCycle);
  getAllRecoveries : string -> string -> M World (list WhoopRecovery);
  getAllSleeps : string -> string -> M World (list WhoopSleep);
  getAllWorkouts : string -> string -> M World (list WhoopWorkout);
  settle_order : World -> list Slot
}.

Record SyncStats : Type := {
  stats_cycles : nat;
  stats_recoveries : nat;
  stats_sleeps : nat;
  stats_workouts : nat
}.

Inductive SyncType : Type := full | quick | skip.

Record SmartSyncResult : Type := {
  type : SyncType;
  stats : option SyncStats
}.

(** A [Date] object: its time value, [None] when invalid. *)
Definition TimeClip (t : Z) : option Z := if valid_time t then Some t else None.

(** Local time and back, as the language defines them. *)
Definition LocalTime `{Host} (t : Z) : Z := t + LocalTZA t true.
Definition UTC `{Host} (t : Z) : Z := t - LocalTZA t false.

(** [d.getDate()]: the day of the month, in local time. *)
Definition getDate `{Host} (d : option Z) : option Z :=
  t ← d;
  let '(_, _, date) := civil_from_days (LocalTime t / msPerDay) in
  Some date.

(** [MakeDay(year, month, date)]: the day number of the first of the month,
    moved by [date - 1] days ([date] may lie outside the month). *)
Definition MakeDay (year month date : Z) : Z := days_from_civil year month 1 + date - 1.

(** [d.setDate(date)]: the year, the month and the time of day of [d] in
    local time, with the day of the month replaced. *)
Definition setDate `{Host} (d date : option Z) : option Z :=
  t ← d; dt ← date;
  let lt := LocalTime t in
  let '(year, month, _) := civil_from_days (lt / msPerDay) in
  TimeClip (UTC (MakeDay year month dt * msPerDay + lt mod msPerDay)).

(** [d.setDate(d.getDate() - days)] *)
Definition setDate_back `{Host} (d : option Z) (days : Z) : option Z :=
  setDate d ((fun date => date - days) <$> getDate d).

Definition Date_toISOString {S} (d : option Z) : M S string :=
  match d with
  | Some t => ret (toISOString t)
  | None => throw (JsError "Invalid time value")
  end.

(** [iso.split('T')[0]] *)
Definition date_part (iso : string) : string :=
  match split "T" iso with
  | h :: _ => h
  | [] => "undefined"
  end.

(** [await Promise.all([a, b, c, d])]: the four calls are started together
    and settle in some order, [order].  What a call does to the world is
    taken at the moment it settles.  The await yields the four values, in
    the order of the array, once all four are fulfilled, and throws the
    reason of the first call to be rejected as soon as it is rejected: the
    calls that have not settled by then go on, but what they do later is
    no part of the caller's run. *)
Definition once {S A} (r : option A) (c : M S A) : M S A :=
  match r with
  | Some x => ret x
  | None => c
  end.

Fixpoint Promise_all4_from {S A B C D} (order : list Slot)
    (a : M S A) (b : M S B) (c : M S C) (d : M S D)
    (ra : option A) (rb : option B) (rc : option C) (rd : option D)
    : M S (A * B * C * D) :=
  match order with
  | [] =>
      x <- once ra a ;; y <- once rb b ;; z <- once rc c ;; u <- once rd d ;;
      ret (x, y, z, u)
  | First :: rest => x <- once ra a ;; Promise_all4_from rest a b c d (Some x) rb rc rd
  | Second :: rest => y <- once rb b ;; Promise_all4_from rest a b c d ra (Some y) rc rd
  | Third :: rest => z <- once rc c ;; Promise_all4_from rest a b c d ra rb (Some z) rd
  | Fourth :: rest => u <- once rd d ;; Promise_all4_from rest a b c d ra rb rc (Some u)
  end.

Definition Promise_all4 {S A B C D} (order : list Slot)
    (a : M S A) (b : M S B) (c : M S C) (d : M S D) : M S (A * B * C * D) :=
  Promise_all4_from order a b c d None None None None.

Section WithGateway.
Context `{Gateway} `{Host}.

Definition syncDays (days : Z) : M World SyncStats :=
  w <- get ;;
  let endDate := TimeClip (w_now w) in
  let startDate := setDate_back (TimeClip (w_now w)) days in
  start <- Date_toISOString startDate ;;
  end_ <- Date_toISOString endDate ;;
  fetched <-
    Promise_all4 (settle_order w)
                 (getAllCycles start end_) (getAllRecoveries start end_)
                 (getAllSleeps start end_) (getAllWorkouts start end_) ;;
  let '(cycles, recoveries, sleeps, workouts) := fetched in
  (if (0 <? length cycles)%nat then on_db (fun now => upsertCycles now cycles) else ret tt) ;;;
  (if (0 <? length recoveries)%nat then on_db (fun now => upsertRecoveries now recoveries) else ret tt) ;;;
  (if (0 <? length sleeps)%nat then on_db (fun now => upsertSleeps now sleeps) else ret tt) ;;;
  (if (0 <? length workouts)%nat then on_db (fun now => upsertWorkouts now workouts) else ret tt) ;;;
  oldest <- Date_toISOString startDate ;;
  newest <- Date_toISOString endDate ;;
  on_db (fun now => updateSyncState now (date_part oldest) (date_part newest)) ;;;
  ret {| stats_cycles := length cycles;
         stats_recoveries := length recoveries;
         stats_sleeps := length sleeps;
         stats_workouts := length workouts |}.

Definition quickSync : M World SyncStats := syncDays 7.

(** [(Date.now() - lastSync.getTime()) / (1000 * 60 * 60)], NaN for an
    invalid date. *)
Definition hoursSince (now : Z) (lastSyncAt : string) : Num :=
  match Date_parse lastSyncAt with
  | Some t => Fin (inject_Z (now - t) / inject_Z (1000 * 60 * 60))
  | None => NaN
  end.

Definition needsFullSync : M World bool :=
  w <- get ;;
  let state := getSyncState (w_db w) in
  if negb (truthy_opt (lastSyncAt state)) then ret true
  else ret (num_lt (Fin 24) (hoursSince (w_now w) (default "" (lastSyncAt state)))).

Definition smartSync : M World SmartSyncResult :=
  w <- get ;;
  let state := getSyncState (w_db w) in
  if negb (truthy_opt (lastSyncAt state)) then
    stats <- syncDays 90 ;;
    ret {| type := full; stats := Some stats |}
  else
    let hoursSinceSync := hoursSince (w_now w) (default "" (lastSyncAt state)) in
    if num_lt hoursSinceSync (Fin 1) then
      ret {| type := skip; stats := None |}
    else
      stats <- quickSync ;;
      ret {| type := quick; stats := Some stats |}.

End WithGateway.

End Sync.
Export Sync.

(** ** index.ts: argument validation and the tool-call handler *)

Module Server.

Local Open Scope m_scope.

Record ToolArguments : Type := {
  args_days : JsValue;
  args_full : JsValue
}.

Definition digits_value (ds : string) : Z :=
  fold_left (fun acc c => 10 * acc + default 0 (digit_val c)) (list_ascii_of_string ds) 0.

(** [Number.parseInt(s, 10)]: blanks are skipped, then an optional sign,
    then as many decimal digits as there are; NaN when there is none.
    (Of the white space of the language, the one-byte characters are
    recognised.) *)
Definition parseInt (s : string) : Num :=
  let s := skip_while is_blank s in
  let '(negative, s) :=
    match s with
    | String "-" r => (true, r)
    | String "+" r => (false, r)
    | _ => (false, s)
    end in
  let ds := take_while is_digit s in
  if String.eqb ds "" then NaN
  else Fin (inject_Z ((if negative then -1 else 1) * digits_value ds)).

Definition validateDays (value : JsValue) : Num :=
  match value with
  | JUndefined | JNull => Fin 14
  | _ =>
      let num := match value with
                 | JNumber n => n
                 | _ => parseInt (String_of value)
                 end in
      if isNaN num || num_lt num (Fin 1) then Fin 14
      else Math_min num (Fin 90)
  end.

Definition validateBoolean (value : JsValue) : bool :=
  match value with
  | JBool b => b
  | JString s => String.eqb s "true"
  | _ => false
  end.

(** The earlier revision of the trend handlers computes the days inline:
    [Math.min((args as any)?.days || 14, 90)], here on the declared input
    type ([number], or absent). *)
Definition falsy_num (n : Num) : bool :=
  match n with
  | NaN => true
  | Fin q => Qeq_bool q 0
  | _ => false
  end.

Definition legacy_days (days : option Num) : Num :=
  match days with
  | None => Math_min (Fin 14) (Fin 90)
  | Some n => Math_min (if falsy_num n then Fin 14 else n) (Fin 90)
  end.

(** What a response says; its rendering as text is not modelled. *)
Inductive Content : Type :=
| NotAuthenticated
| NoData
| TodaySummary (recovery : option DbRecovery) (sleep : option DbSleep) (cycle : option DbCycle)
| NoRecoveryData
| RecoveryTrends (days : Num) (trends : list RecoveryTrendRow)
| NoSleepData
| SleepAnalysis (days : Num) (trends : list SleepTrendRow)
| NoStrainData
| StrainHistory (days : Num) (trends : list StrainTrendRow)
| UpToDate
| SyncComplete (stats : option SyncStats)
| AuthorizationUrl (scopes : list string)
| ErrorText (message : string).

Record Response : Type := {
  content : Content;
  isError : bool
}.

Definition text (c : Content) : Response := {| content := c; isError := false |}.

Definition dataTools : list string :=
  ["get_today"; "get_recovery_trends"; "get_sleep_analysis"; "get_strain_history"].

Definition includes (l : list string) (x : string) : bool :=
  existsb (String.eqb x) l.

Definition client_setTokens (t : WhoopTokens) : M World unit :=
  modify (fun w => {| w_db := w_db w; w_now := w_now w; w_client_tokens := Some t |}).

(** [error instanceof Error ? error.message : 'Unknown error'] *)
Definition error_message (error : Thrown) : string :=
  match error with
  | JsError message => message
  | NonError => "Unknown error"
  end.

Section WithServer.
Context `{NodeCrypto} `{Gateway} `{Host}.
Variable env : Env.

Definition db_getTokens : M World (option WhoopTokens) :=
  w <- get ;; lift (getTokens env (w_db w)).

(** The [switch (name)] of the handler. *)
Definition dispatch (name : string) (typedArgs : ToolArguments) : M World Response :=
  if String.eqb name "get_today" then
    w <- get ;;
    let recovery := getLatestRecovery (w_db w) in
    let sleep := getLatestSleep (w_db w) in
    let cycle := getLatestCycle (w_db w) in
    match recovery, sleep, cycle with
    | None, None, None => ret (text NoData)
    | _, _, _ => ret (text (TodaySummary recovery sleep cycle))
    end
  else if String.eqb name "get_recovery_trends" then
    w <- get ;;
    let days := validateDays (args_days typedArgs) in
    let trends := getRecoveryTrends (w_now w) days (w_db w) in
    if (length trends =? 0)%nat then ret (text NoRecoveryData)
    else ret (text (RecoveryTrends days trends))
  else if String.eqb name "get_sleep_analysis" then
    w <- get ;;
    let days := validateDays (args_days typedArgs) in
    let trends := getSleepTrends (w_now w) days (w_db w) in
    if (length trends =? 0)%nat then ret (text NoSleepData)
    else ret (text (SleepAnalysis days trends))
  else if String.eqb name "get_strain_history" then
    w <- get ;;
    let days := validateDays (args_days typedArgs) in
    let trends := getStrainTrends (w_now w) days (w_db w) in
    if (length trends =? 0)%nat then ret (text NoStrainData)
    else ret (text (StrainHistory days trends))
  else if String.eqb name "sync_data" then
    tokens <- db_getTokens ;;
    match tokens with
    | None => ret (text NotAuthenticated)
    | Some t =>
        client_setTokens t ;;;
        if validateBoolean (args_full typedArgs) then
          stats <- syncDays 90 ;;
          ret (text (SyncComplete (Some stats)))
        else
          result <- smartSync ;;
          match type result with
          | skip => ret (text UpToDate)
          | _ => ret (text (SyncComplete (stats result)))
          end
    end
  else if String.eqb name "get_auth_url" then
    ret (text (AuthorizationUrl
                 ["read:profile"; "read:body_measurement"; "read:cycles";
                  "read:recovery"; "read:sleep"; "read:workout"; "offline"]))
  else
    throw (JsError ("MCP error -32601: Unknown tool: " +:+ name)).

(** The handler of [CallToolRequestSchema]. *)
Definition callTool (name : string) (typedArgs : ToolArguments) : M World Response :=
  try_catch
    (if includes dataTools name then
       tokens <- db_getTokens ;;
       match tokens with
       | None => ret (text NotAuthenticated)
       | Some t =>
           client_setTokens t ;;;
           try_catch (smartSync ;;; ret tt) (fun _ => ret tt) ;;;
           dispatch name typedArgs
       end
     else dispatch name typedArgs)
    (fun error => ret {| content := ErrorText (error_message error); isError := true |}).

End WithServer.

End Server.
Export Server.

(** * Properties *)

(** ** Text order *)

Lemma ltb_leb_false (a b : string) : String.ltb a b = true <-> String.leb b a = false.
Proof.
  unfold String.ltb, String.leb. rewrite (String.compare_antisym a b).
  destruct (String.compare b a); simpl; split; congruence.
Qed.

Lemma ltb_false_le (a b : string) : String.ltb a b = false -> String.le b a.
Proof.
  intros Hlt. unfold String.le. destruct (String.leb b a) eqn:Hle; [done|].
  apply ltb_leb_false in Hle. congruence.
Qed.

Lemma ltb_true_le (a b : string) : String.ltb a b = true -> String.le a b.
Proof.
  intros Hlt. apply ltb_leb_false in Hlt.
  destruct (total String.le a b) as [Hab|Hba]; [done|].
  unfold String.le in Hba. rewrite Hlt in Hba. done.
Qed.

(** ** Sync state (C3) *)

(** [m] is the least element of [l] in the order the UPDATE compares by. *)
Definition least_of (m : string) (l : list string) : Prop :=
  m ∈ l /\ forall x, x ∈ l -> String.le m x.

Definition greatest_of (m : string) (l : list string) : Prop :=
  m ∈ l /\ forall x, x ∈ l -> String.le x m.

(** One call of [updateSyncState]: the time it runs at and its arguments. *)
Record SyncCall : Type := {
  call_time : Z;
  call_oldest : string;
  call_newest : string
}.

Definition apply_call (db : Database) (c : SyncCall) : Database :=
  updateSyncState (call_time c) (call_oldest c) (call_newest c) db.

Definition run_calls (calls : list SyncCall) (db : Database) : Database :=
  foldl apply_call db calls.

Lemma sync_state_update (now : Z) (o n : string) (db : Database) :
  sync_state (updateSyncState now o n db) = update_sync_row now o n (sync_state db).
Proof. reflexivity. Qed.

Lemma update_oldest (now : Z) (o n : string) (row : SyncStateRow) :
  oldest_synced_date (update_sync_row now o n row) =
  Some match oldest_synced_date row with
       | None => o
       | Some m => if String.ltb o m then o else m
       end.
Proof.
  unfold update_sync_row; simpl.
  destruct (oldest_synced_date row) as [m|]; simpl; [|done].
  unfold CASE_WHEN; simpl. destruct (String.ltb o m); done.
Qed.

Lemma update_newest (now : Z) (o n : string) (row : SyncStateRow) :
  newest_synced_date (update_sync_row now o n row) =
  Some match newest_synced_date row with
       | None => n
       | Some m => if String.ltb m n then n else m
       end.
Proof.
  unfold update_sync_row; simpl.
  destruct (newest_synced_date row) as [m|]; simpl; [|done].
  unfold CASE_WHEN; simpl. destruct (String.ltb m n); done.
Qed.

Lemma least_of_step (m o : string) (seen : list string) :
  least_of m seen ->
  least_of (if String.ltb o m then o else m) (seen ++ [o]).
Proof.
  intros [Hin Hle]. destruct (String.ltb o m) eqn:Hlt; split.
  - set_solver.
  - intros x [Hx | Hx]%elem_of_app.
    + etrans; [by apply ltb_true_le | by apply Hle].
    + apply list_elem_of_singleton in Hx as ->. reflexivity.
  - set_solver.
  - intros x [Hx | Hx]%elem_of_app; [by apply Hle|].
    apply list_elem_of_singleton in Hx as ->. by apply ltb_false_le.
Qed.

Lemma greatest_of_step (m n : string) (seen : list string) :
  greatest_of m seen ->
  greatest_of (if String.ltb m n then n else m) (seen ++ [n]).
Proof.
  intros [Hin Hle]. destruct (String.ltb m n) eqn:Hlt; split.
  - set_solver.
  - intros x [Hx | Hx]%elem_of_app.
    + etrans; [by apply Hle | by apply ltb_true_le].
    + apply list_elem_of_singleton in Hx as ->. reflexivity.
  - set_solver.
  - intros x [Hx | Hx]%elem_of_app; [by apply Hle|].
    apply list_elem_of_singleton in Hx as ->. by apply ltb_false_le.
Qed.

Lemma run_calls_oldest (calls : list SyncCall) (db : Database) (m : string) (seen : list string) :
  oldest_synced_date (sync_state db) = Some m ->
  least_of m seen ->
  exists m', oldest_synced_date (sync_state (run_calls calls db)) = Some m'
             /\ least_of m' (seen ++ map call_oldest calls).
Proof.
  revert db m seen. induction calls as [|c calls IH]; intros db m seen Hm Hleast; simpl.
  - exists m. by rewrite app_nil_r.
  - destruct (IH (apply_call db c) (if String.ltb (call_oldest c) m then call_oldest c else m)
                (seen ++ [call_oldest c])) as (m' & Hm' & Hl').
    + unfold apply_call. by rewrite sync_state_update, update_oldest, Hm.
    + by apply least_of_step.
    + exists m'. split; [done|]. by rewrite <- app_assoc in Hl'.
Qed.

Lemma run_calls_newest (calls : list SyncCall) (db : Database) (m : string) (seen : list string) :
  newest_synced_date (sync_state db) = Some m ->
  greatest_of m seen ->
  exists m', newest_synced_date (sync_state (run_calls calls db)) = Some m'
             /\ greatest_of m' (seen ++ map call_newest calls).
Proof.
  revert db m seen. induction calls as [|c calls IH]; intros db m seen Hm Hgreat; simpl.
  - exists m. by rewrite app_nil_r.
  - destruct (IH (apply_call db c) (if String.ltb m (call_newest c) then call_newest c else m)
                (seen ++ [call_newest c])) as (m' & Hm' & Hl').
    + unfold apply_call. by rewrite sync_state_update, update_newest, Hm.
    + by apply greatest_of_step.
    + exists m'. split; [done|]. by rewrite <- app_assoc in Hl'.
Qed.

Lemma last_cons_default {A} (l : list A) (a d : A) :
  List.last (a :: l) d = List.last l a.
Proof.
  revert a d. induction l as [|b l IH]; intros a d; [done|].
  change (List.last (a :: b :: l) d) with (List.last (b :: l) d).
  by rewrite !IH.
Qed.

Lemma run_calls_last_sync (calls : list SyncCall) (c : SyncCall) (db : Database) :
  last_sync_at (sync_state (run_calls (c :: calls) db)) =
  Some (CURRENT_TIMESTAMP (call_time (List.last calls c))).
Proof.
  revert c db. induction calls as [|c' calls IH]; intros c db; [done|].
  change (run_calls (c :: c' :: calls) db) with (run_calls (c' :: calls) (apply_call db c)).
  by rewrite IH, last_cons_default.
Qed.

(** C3. Starting from the sync state [initSchema] creates, after the calls
    [c :: calls] of [updateSyncState]: [oldest_synced_date] is the least of
    the oldest dates passed and [newest_synced_date] the greatest of the
    newest dates passed (in the order of the text comparison, which on
    [YYYY-MM-DD] dates is the order of the calendar), and [last_sync_at] is
    the clock of the last call.  A single call, on any store, stamps
    [last_sync_at] with its clock and never moves a boundary inwards. *)
Theorem updateSyncState_widens (c : SyncCall) (calls : list SyncCall) :
  let st := sync_state (run_calls (c :: calls) initSchema) in
  (exists lo, oldest_synced_date st = Some lo
              /\ least_of lo (map call_oldest (c :: calls)))
  /\ (exists hi, newest_synced_date st = Some hi
                 /\ greatest_of hi (map call_newest (c :: calls)))
  /\ last_sync_at st = Some (CURRENT_TIMESTAMP (call_time (List.last calls c)))
  /\ (forall db now o n,
        let st' := sync_state (updateSyncState now o n db) in
        last_sync_at st' = Some (CURRENT_TIMESTAMP now)
        /\ (exists lo', oldest_synced_date st' = Some lo' /\ String.le lo' o
              /\ forall lo, oldest_synced_date (sync_state db) = Some lo -> String.le lo' lo)
        /\ (exists hi', newest_synced_date st' = Some hi' /\ String.le n hi'
              /\ forall hi, newest_synced_date (sync_state db) = Some hi -> String.le hi hi')).
Proof.
  cbv zeta. split; [|split; [|split; [|intros db now o n; split; [|split]]]].
  - destruct (run_calls_oldest calls (apply_call initSchema c) (call_oldest c) [call_oldest c])
      as (m & Hm & Hl); [done | split; [set_solver|] | by exists m].
    intros x ->%list_elem_of_singleton. reflexivity.
  - destruct (run_calls_newest calls (apply_call initSchema c) (call_newest c) [call_newest c])
      as (m & Hm & Hl); [done | split; [set_solver|] | by exists m].
    intros x ->%list_elem_of_singleton. reflexivity.
  - apply (run_calls_last_sync calls c initSchema).
  - rewrite sync_state_update. reflexivity.
  - rewrite sync_state_update, update_oldest. eexists; split; [done|].
    destruct (oldest_synced_date (sync_state db)) as [m|].
    + destruct (String.ltb o m) eqn:Hlt; split; try reflexivity.
      * intros lo [= <-]. by apply ltb_true_le.
      * by apply ltb_false_le.
      * intros lo [= <-]. reflexivity.
    + split; [reflexivity | done].
  - rewrite sync_state_update, update_newest. eexists; split; [done|].
    destruct (newest_synced_date (sync_state db)) as [m|].
    + destruct (String.ltb m n) eqn:Hlt; split; try reflexivity.
      * intros hi [= <-]. by apply ltb_true_le.
      * by apply ltb_false_le.
      * intros hi [= <-]. reflexivity.
    + split; [reflexivity | done].
Qed.

(** ** Upserts (C2) *)

Section InsertOrReplace.
Context {K V R : Type} `{Countable K}.
Variable key : R -> K.

(** The last record of a batch that carries the key [k]. *)
Definition last_with (k : K) (items : list R) : option R :=
  last (filter (fun r => key r = k) items).

Lemma INSERT_OR_REPLACE_snoc (row : R -> V) (items : list R) (r : R) (t : gmap K V) :
  INSERT_OR_REPLACE key row (items ++ [r]) t =
  <[key r := row r]> (INSERT_OR_REPLACE key row items t).
Proof. unfold INSERT_OR_REPLACE. by rewrite foldl_app. Qed.

Lemma last_with_snoc (k : K) (items : list R) (r : R) :
  last_with k (items ++ [r]) = if decide (key r = k) then Some r else last_with k items.
Proof.
  unfold last_with. rewrite filter_app.
  destruct (decide (key r = k)) as [Hk|Hk].
  - rewrite (filter_cons_True _ r []) by done. simpl. apply last_snoc.
  - rewrite (filter_cons_False _ r []) by done. simpl. by rewrite app_nil_r.
Qed.

(** Every key holds the row of the last record that carries it, or, when no
    record carries it, the row it held before. *)
Lemma INSERT_OR_REPLACE_lookup (row : R -> V) (items : list R) (t : gmap K V) (k : K) :
  INSERT_OR_REPLACE key row items t !! k =
  match last_with k items with
  | Some r => Some (row r)
  | None => t !! k
  end.
Proof.
  induction items as [|r items IH] using rev_ind; [done|].
  rewrite INSERT_OR_REPLACE_snoc, last_with_snoc, lookup_insert.
  destruct (decide (key r = k)); done.
Qed.



End InsertOrReplace.












(** A scored cycle as upstream reports it. *)
Definition example_cycle : WhoopCycle := {|
  c_id := 93845;
  c_user_id := 10129;
  c_start := "2024-01-14T04:30:00.000Z";
  c_end := Some "2024-01-15T04:10:00.000Z";
  c_timezone_offset := "-05:00";
  c_score_state := SCORED;
  c_score := Some {| cs_strain := 5 # 1; cs_kilojoule := 8288 # 1;
                     cs_average_heart_rate := 68; cs_max_heart_rate := 141 |}
|}.



(** ** Queries (C5, C10) *)

Section OrderBy.
Context {A : Type} (col : A -> string).

Definition descending (l : list A) : Prop :=
  StronglySorted (fun a b => String.le (col b) (col a)) l.

#[local] Instance desc_transitive : Transitive (fun a b : A => String.le (col b) (col a)).
Proof. intros a b c Hab Hbc. by etrans. Qed.

#[local] Instance desc_total : Total (fun a b : A => String.le (col b) (col a)).
Proof. intros a b. apply (total String.le). Qed.

Lemma ORDER_BY_DESC_descending (l : list A) : descending (ORDER_BY_DESC col l).
Proof. apply (StronglySorted_merge_sort _). Qed.

Lemma ORDER_BY_DESC_elem (l : list A) (x : A) : x ∈ ORDER_BY_DESC col l <-> x ∈ l.
Proof. unfold ORDER_BY_DESC. by rewrite merge_sort_Permutation. Qed.

Lemma ORDER_BY_DESC_length (l : list A) : length (ORDER_BY_DESC col l) = length l.
Proof. unfold ORDER_BY_DESC. by rewrite merge_sort_Permutation. Qed.

End OrderBy.

Lemma rows_elem {K V : Type} `{Countable K} (t : gmap K V) (v : V) :
  v ∈ rows t <-> exists k, t !! k = Some v.
Proof.
  unfold rows. rewrite list_elem_of_fmap. split.
  - intros ([k v'] & -> & Hkv). exists k. by apply elem_of_map_to_list.
  - intros [k Hk]. exists (k, v). split; [done|]. by apply elem_of_map_to_list.
Qed.

Lemma WHERE_elem {A : Type} (f : A -> bool) (l : list A) (x : A) :
  x ∈ List.filter f l <-> x ∈ l /\ f x = true.
Proof. rewrite !list_elem_of_In. apply filter_In. Qed.

Lemma holds_GE (a : string) (c : option string) :
  holds (GE (Some a) c) = true <-> exists c', c = Some c' /\ String.le c' a.
Proof.
  destruct c as [c'|]; simpl.
  - unfold String.le. destruct (String.leb c' a) eqn:Hle; simpl; split.
    + intros _. exists c'. by rewrite Hle.
    + done.
    + done.
    + intros (? & [= <-] & Hle'). by rewrite Hle in Hle'.
  - split; [done | by intros (? & ? & _)].
Qed.

Lemma IS_NOT_NULL_true {A : Type} (a : option A) : IS_NOT_NULL a = true <-> a <> None.
Proof. destruct a; cbn; split; intros Hn; done. Qed.

(** The rows each trend query selects. *)
Lemma recovery_trend_rows_elem (now : Z) (days : Num) (db : Database) (r : DbRecovery) :
  r ∈ recovery_trend_rows now days db <->
  (exists k, recovery db !! k = Some r)
  /\ dr_recovery_score r <> None
  /\ exists c, DATE_now_minus now days = Some c /\ String.le c (dr_created_at r).
Proof.
  unfold recovery_trend_rows, recovery_trend_where.
  rewrite ORDER_BY_DESC_elem, WHERE_elem, rows_elem, andb_true_iff,
    IS_NOT_NULL_true, holds_GE. tauto.
Qed.

Lemma sleep_trend_rows_elem (now : Z) (days : Num) (db : Database) (r : DbSleep) :
  r ∈ sleep_trend_rows now days db <->
  (exists k, sleep db !! k = Some r)
  /\ ds_is_nap r = 0
  /\ ds_sleep_performance r <> None
  /\ exists c, DATE_now_minus now days = Some c /\ String.le c (ds_start_time r).
Proof.
  unfold sleep_trend_rows, sleep_trend_where.
  rewrite ORDER_BY_DESC_elem, WHERE_elem, rows_elem, !andb_true_iff,
    IS_NOT_NULL_true, holds_GE, Z.eqb_eq. tauto.
Qed.

Lemma strain_trend_rows_elem (now : Z) (days : Num) (db : Database) (r : DbCycle) :
  r ∈ strain_trend_rows now days db <->
  (exists k, cycles db !! k = Some r)
  /\ dc_strain r <> None
  /\ exists c, DATE_now_minus now days = Some c /\ String.le c (dc_start_time r).
Proof.
  unfold strain_trend_rows, strain_trend_where.
  rewrite ORDER_BY_DESC_elem, WHERE_elem, rows_elem, andb_true_iff,
    IS_NOT_NULL_true, holds_GE. tauto.
Qed.

(** For a whole number of days, the lower bound is the UTC date of the
    instant that many days before now. *)
Lemma round_half_away_Z (z : Z) : round_half_away (inject_Z z) = z.
Proof.
  unfold round_half_away, Qle_bool, Qceiling, Qfloor, inject_Z; simpl.
  change (Z.pos (1 * 2)) with 2.
  destruct (0 * 1 <=? z * 1).
  - replace (z * 2 + 1 * 1) with (1 + z * 2) by lia.
    rewrite Z.div_add by lia. reflexivity.
  - match goal with
    | |- - (?a `div` 2) = _ => replace a with (1 + (- z) * 2) by lia
    end.
    rewrite Z.div_add by lia. change (1 `div` 2) with 0. lia.
Qed.

Lemma DATE_now_minus_whole (now n : Z) :
  0 <= n < 5373485 ->
  printable (now - n * msPerDay) = true ->
  DATE_now_minus now (Fin (inject_Z n)) = Some (date_string (now - n * msPerDay)).
Proof.
  intros Hn Hp. unfold DATE_now_minus.
  assert (Qle_bool 0 (inject_Z n) = true) as ->.
  { unfold Qle_bool; simpl. apply Z.leb_le. lia. }
  assert (Qle_bool 5373485 (inject_Z n) = false) as ->.
  { unfold Qle_bool; simpl. apply Z.leb_gt. lia. }
  simpl.
  assert (inject_Z n * inject_Z msPerDay = inject_Z (n * msPerDay))%Q as ->.
  { unfold Qmult, inject_Z; simpl. reflexivity. }
  rewrite round_half_away_Z, Hp. reflexivity.
Qed.

Lemma Forall_select {A B : Type} (f : A -> B) (P : B -> Prop) (l : list A) :
  (forall a, a ∈ l -> P (f a)) -> Forall P (map f l).
Proof.
  intros Hall. apply Forall_forall. intros b Hb.
  apply list_elem_of_fmap in Hb as (a & -> & Ha).
  by apply Hall.
Qed.

(** C5, as the code has it.  Each trend query returns the projection of
    exactly the rows of its table whose primary score is not NULL (for sleep:
    that are no naps, too) and whose time text is at least the text of
    [DATE('now', '-days days')], ordered by time, latest first; no returned
    row has a NULL primary score.  The bound is a date: for a whole number
    of days it is the UTC calendar day of the instant [days] days before
    now, so the window opens at the start of that day.  No upper bound is
    applied. *)
Theorem trend_queries_select (now : Z) (days : Num) (db : Database) :
  (getRecoveryTrends now days db = map recovery_trend_select (recovery_trend_rows now days db)
   /\ descending dr_created_at (recovery_trend_rows now days db)
   /\ (forall r, r ∈ recovery_trend_rows now days db <->
         (exists k, recovery db !! k = Some r)
         /\ dr_recovery_score r <> None
         /\ exists c, DATE_now_minus now days = Some c /\ String.le c (dr_created_at r))
   /\ Forall (fun t => rt_recovery_score t <> None) (getRecoveryTrends now days db))
  /\ (getSleepTrends now days db = map sleep_trend_select (sleep_trend_rows now days db)
      /\ descending ds_start_time (sleep_trend_rows now days db)
      /\ (forall r, r ∈ sleep_trend_rows now days db <->
            (exists k, sleep db !! k = Some r)
            /\ ds_is_nap r = 0
            /\ ds_sleep_performance r <> None
            /\ exists c, DATE_now_minus now days = Some c /\ String.le c (ds_start_time r))
      /\ Forall (fun t => st_performance t <> None) (getSleepTrends now days db))
  /\ (getStrainTrends now days db = map strain_trend_select (strain_trend_rows now days db)
      /\ descending dc_start_time (strain_trend_rows now days db)
      /\ (forall r, r ∈ strain_trend_rows now days db <->
            (exists k, cycles db !! k = Some r)
            /\ dc_strain r <> None
            /\ exists c, DATE_now_minus now days = Some c /\ String.le c (dc_start_time r))
      /\ Forall (fun t => sn_strain t <> None) (getStrainTrends now days db))
  /\ (forall n : Z, 0 <= n <= 90 -> printable (now - n * msPerDay) = true ->
        DATE_now_minus now (Fin (inject_Z n)) = Some (date_string (now - n * msPerDay))).
Proof.
  split; [|split; [|split]].
  - split; [done|]. split; [apply ORDER_BY_DESC_descending|].
    split; [apply recovery_trend_rows_elem|].
    apply Forall_select. intros r Hr. apply recovery_trend_rows_elem in Hr. tauto.
  - split; [done|]. split; [apply ORDER_BY_DESC_descending|].
    split; [apply sleep_trend_rows_elem|].
    apply Forall_select. intros r Hr. apply sleep_trend_rows_elem in Hr. tauto.
  - split; [done|]. split; [apply ORDER_BY_DESC_descending|].
    split; [apply strain_trend_rows_elem|].
    apply Forall_select. intros r Hr. apply strain_trend_rows_elem in Hr. tauto.
  - intros n Hn Hp. apply DATE_now_minus_whole; [lia | done].
Qed.

(** What the claim calls the window: the time text reads as an instant
    between [now - days] and [now]. *)
Definition in_window (now days : Z) (text : string) : Prop :=
  exists t, parse_timestamp text = Some t /\ now - days * msPerDay <= t <= now.

Definition scored_recovery (cycle_id : Z) (created_at : string) (score : Z) : WhoopRecovery := {|
  r_cycle_id := cycle_id;
  r_sleep_id := "10235";
  r_user_id := 10129;
  r_created_at := created_at;
  r_updated_at := created_at;
  r_score_state := SCORED;
  r_score := Some {| rs_user_calibrating := false;
                     rs_recovery_score := score;
                     rs_resting_heart_rate := 64;
                     rs_hrv_rmssd_milli := 31813 # 1000;
                     rs_spo2_percentage := Some (957 # 10);
                     rs_skin_temp_celsius := Some (337 # 10) |}
|}.

(** Now is 2024-01-15T12:10:45.123Z.  The store holds a recovery created
    seven days and six hours ago, and one stamped in 2030. *)
Definition example_now : Z := 1705320645123.

Definition example_store : Database :=
  upsertRecoveries example_now
    [scored_recovery 93845 "2024-01-08T06:00:00.000Z" 44;
     scored_recovery 93999 "2030-01-01T00:00:00.000Z" 71]
    initSchema.

(** C5, as stated, fails: the seven-day recovery trend returns the row
    created before [now - 7 days] (it is of the same UTC day as the bound)
    and the row stamped after now. *)
Lemma trend_rows_outside_window :
  (recovery_row example_now (scored_recovery 93845 "2024-01-08T06:00:00.000Z" 44)
     ∈ recovery_trend_rows example_now (Fin (inject_Z 7)) example_store
   /\ ~ in_window example_now 7 "2024-01-08T06:00:00.000Z")
  /\ (recovery_row example_now (scored_recovery 93999 "2030-01-01T00:00:00.000Z" 71)
        ∈ recovery_trend_rows example_now (Fin (inject_Z 7)) example_store
      /\ ~ in_window example_now 7 "2030-01-01T00:00:00.000Z").
Proof.
  split; split.
  - apply recovery_trend_rows_elem. split; [by exists 93845|].
    split; [done|]. exists "2024-01-08". split; [reflexivity | by vm_compute].
  - intros (t & Ht & Hlo & Hhi). vm_compute in Ht. injection Ht as <-.
    unfold example_now, msPerDay in Hlo. lia.
  - apply recovery_trend_rows_elem. split; [by exists 93999|].
    split; [done|]. exists "2024-01-08". split; [reflexivity | by vm_compute].
  - intros (t & Ht & Hlo & Hhi). vm_compute in Ht. injection Ht as <-.
    unfold example_now in Hhi. lia.
Qed.

(** The bound of the seven-day trend on the example. *)
Lemma trend_queries_select_witness :
  DATE_now_minus example_now (Fin (inject_Z 7)) = Some "2024-01-08".
Proof.
  apply (trend_queries_select example_now (Fin (inject_Z 7)) example_store);
    [unfold example_now; lia | reflexivity].
Defined.

(** C10. A row of the sleep table that is no nap, has a sleep performance
    and a start within the bound, but lacks the time in bed or the time
    awake, is returned by [getSleepTrends] with [total_sleep_hours] NULL: the
    filter looks at the primary score only, and the subtraction of a NULL is
    NULL, not zero. *)
Theorem sleep_trend_null_hours (now : Z) (days : Num) (db : Database) (k : string) (r : DbSleep) :
  sleep db !! k = Some r ->
  ds_is_nap r = 0 ->
  ds_sleep_performance r <> None ->
  (exists c, DATE_now_minus now days = Some c /\ String.le c (ds_start_time r)) ->
  ds_total_in_bed_milli r = None \/ ds_total_awake_milli r = None ->
  sleep_trend_select r ∈ getSleepTrends now days db
  /\ st_total_sleep_hours (sleep_trend_select r) = None
  /\ st_performance (sleep_trend_select r) = ds_sleep_performance r
  /\ st_performance (sleep_trend_select r) <> None.
Proof.
  intros Hk Hnap Hperf Hcut Hnull. split; [|split; [|split]].
  - unfold getSleepTrends. apply list_elem_of_fmap. exists r. split; [done|].
    apply sleep_trend_rows_elem. eauto.
  - unfold sleep_trend_select; simpl.
    destruct Hnull as [-> | ->]; [done|]. by destruct (ds_total_in_bed_milli r).
  - done.
  - done.
Qed.

(** A main sleep whose performance is known while its time in bed is not. *)
Definition sleep_without_time_in_bed : DbSleep := {|
  ds_id := "ecfc6a15-4661-442f-a9a4-f160dd7afae8";
  ds_user_id := 10129;
  ds_cycle_id := None;
  ds_start_time := "2024-01-14T22:30:00.000Z";
  ds_end_time := "2024-01-15T06:15:00.000Z";
  ds_is_nap := 0;
  ds_score_state := "SCORED";
  ds_total_in_bed_milli := None;
  ds_total_awake_milli := Some 1800000;
  ds_total_light_milli := None;
  ds_total_deep_milli := None;
  ds_total_rem_milli := None;
  ds_sleep_performance := Some (98 # 1);
  ds_sleep_efficiency := Some (91 # 1);
  ds_sleep_consistency := None;
  ds_respiratory_rate := None;
  ds_sleep_needed_baseline_milli := None;
  ds_sleep_needed_debt_milli := None;
  ds_sleep_needed_strain_milli := None;
  ds_synced_at := "2024-01-15 06:30:00"
|}.

Definition store_with_partial_sleep : Database :=
  set_sleep {[ ds_id sleep_without_time_in_bed := sleep_without_time_in_bed ]} initSchema.

Lemma sleep_trend_null_hours_witness :
  getSleepTrends example_now (Fin (inject_Z 7)) store_with_partial_sleep =
  [ {| st_date := Some "2024-01-14";
       st_total_sleep_hours := None;
       st_performance := Some (98 # 1);
       st_efficiency := Some (91 # 1) |} ]
  /\ sleep_trend_select sleep_without_time_in_bed
       ∈ getSleepTrends example_now (Fin (inject_Z 7)) store_with_partial_sleep
  /\ st_total_sleep_hours (sleep_trend_select sleep_without_time_in_bed) = None.
Proof.
  split; [by vm_compute|].
  pose proof (sleep_trend_null_hours example_now (Fin (inject_Z 7)) store_with_partial_sleep
                (ds_id sleep_without_time_in_bed) sleep_without_time_in_bed) as Hthm.
  destruct Hthm as (Hin & Hnull & _).
  - by vm_compute.
  - reflexivity.
  - done.
  - exists "2024-01-08". split; [reflexivity | by vm_compute].
  - by left.
  - split; [exact Hin | exact Hnull].
Defined.

(** ** Encryption at rest (C7) *)

Lemma split_no_sep (sep : ascii) (a : string) :
  contains sep a = false -> split sep a = [a].
Proof.
  induction a as [|c a IH]; [done|]. simpl.
  intros [Hc Ha]%orb_false_iff. rewrite Hc, (IH Ha). done.
Qed.

Lemma split_app_sep (sep : ascii) (a rest : string) :
  contains sep a = false ->
  split sep (a +:+ String sep rest) = a :: split sep rest.
Proof.
  induction a as [|c a IH]; simpl.
  - intros _. by rewrite Ascii.eqb_refl.
  - intros [Hc Ha]%orb_false_iff. rewrite Hc, (IH Ha). done.
Qed.

Lemma hex_byte (x : Byte.byte) :
  hex_value (hex_digit (Byte.to_N x / 16)) = Some (Byte.to_N x / 16)%N
  /\ hex_value (hex_digit (Byte.to_N x mod 16)) = Some (Byte.to_N x mod 16)%N
  /\ Byte.of_N (16 * (Byte.to_N x / 16) + Byte.to_N x mod 16) = Some x
  /\ Ascii.eqb (hex_digit (Byte.to_N x / 16)) ":" = false
  /\ Ascii.eqb (hex_digit (Byte.to_N x mod 16)) ":" = false.
Proof. destruct x; vm_compute; auto. Qed.

Lemma from_hex_to_hex (b : Buffer) : from_hex (to_hex b) = b.
Proof.
  induction b as [|x b IH]; [done|].
  destruct (hex_byte x) as (H1 & H2 & H3 & _).
  cbn [to_hex from_hex]. rewrite H1, H2, H3, IH. done.
Qed.

Lemma to_hex_no_colon (b : Buffer) : contains ":" (to_hex b) = false.
Proof.
  induction b as [|x b IH]; [done|].
  destruct (hex_byte x) as (_ & _ & _ & H4 & H5).
  cbn [to_hex contains]. rewrite H4, H5, IH. done.
Qed.

Lemma to_hex_length (b : Buffer) : String.length (to_hex b) = (2 * length b)%nat.
Proof. induction b as [|x b IH]; [done|]. cbn [to_hex String.length length]. lia. Qed.

Lemma truthy_to_hex (b : Buffer) : truthy (to_hex b) = negb (Nat.eqb (length b) 0).
Proof. by destruct b. Qed.

Lemma list_byte_of_string_length (s : string) :
  length (list_byte_of_string s) = String.length s.
Proof.
  unfold list_byte_of_string. rewrite length_map.
  induction s as [|c s IH]; [done|]. simpl. by rewrite IH.
Qed.

Section CryptoProperties.
Context `{NodeCrypto}.

(** An encryption secret is available. *)
Definition has_secret (env : Env) : Prop :=
  exists secret, or_else (ENCRYPTION_SECRET env) (WHOOP_CLIENT_SECRET env) = Some secret
                 /\ truthy secret = true.

Lemma getEncryptionKey_ok (env : Env) :
  has_secret env -> exists key, getEncryptionKey env = Ok key.
Proof.
  intros (secret & Hs & Ht). unfold getEncryptionKey. rewrite Hs, Ht. eauto.
Qed.

(** What [encrypt] returns, and how it splits at the colons. *)
Lemma encrypt_parts (env : Env) (iv : Buffer) (text : string) (key : Buffer) :
  getEncryptionKey env = Ok key ->
  let sealed := gcm_encrypt key iv (list_byte_of_string text) in
  encrypt env iv text =
    Ok (to_hex iv +:+ ":" +:+ to_hex (snd sealed) +:+ ":" +:+ to_hex (fst sealed))
  /\ split ":" (to_hex iv +:+ ":" +:+ to_hex (snd sealed) +:+ ":" +:+ to_hex (fst sealed))
     = [to_hex iv; to_hex (snd sealed); to_hex (fst sealed)].
Proof.
  intros Hkey sealed. split.
  - unfold encrypt. rewrite Hkey. subst sealed.
    by destruct (gcm_encrypt key iv (list_byte_of_string text)).
  - change (":" +:+ ?x) with (String ":" x).
    rewrite (split_app_sep ":" (to_hex iv)) by apply to_hex_no_colon.
    change (":" +:+ ?x) with (String ":" x).
    rewrite (split_app_sep ":" (to_hex (snd sealed))) by apply to_hex_no_colon.
    by rewrite split_no_sep by apply to_hex_no_colon.
Qed.

(** Every string [encrypt] produces is recognised by [isEncrypted]. *)
Lemma isEncrypted_encrypt (env : Env) (iv : Buffer) (text c : string) :
  length iv = IV_LENGTH ->
  encrypt env iv text = Ok c ->
  isEncrypted c = true.
Proof.
  intros Hiv Henc.
  destruct (getEncryptionKey env) as [key|e] eqn:Hkey;
    [|unfold encrypt in Henc; by rewrite Hkey in Henc].
  destruct (encrypt_parts env iv text key Hkey) as [Heq Hsplit].
  rewrite Heq in Henc. injection Henc as <-.
  unfold isEncrypted. rewrite Hsplit. simpl.
  rewrite to_hex_length, Hiv. reflexivity.
Qed.

(** [decrypt] undoes [encrypt] on every text that is not empty. *)
Lemma decrypt_encrypt_nonempty (env : Env) (iv : Buffer) (text c : string) :
  length iv = IV_LENGTH ->
  text <> "" ->
  encrypt env iv text = Ok c ->
  decrypt env c = Ok text.
Proof.
  intros Hiv Htext Henc.
  destruct (getEncryptionKey env) as [key|e] eqn:Hkey;
    [|unfold encrypt in Henc; by rewrite Hkey in Henc].
  destruct (encrypt_parts env iv text key Hkey) as [Heq Hsplit].
  rewrite Heq in Henc. injection Henc as <-.
  unfold decrypt. rewrite Hkey, Hsplit. cbn [nth_opt lookup list_lookup].
  rewrite !truthy_to_hex, Hiv, gcm_tag_length, gcm_ciphertext_length,
    list_byte_of_string_length.
  destruct text as [|ch text]; [done|]. cbn [String.length Nat.eqb negb orb].
  rewrite !from_hex_to_hex, gcm_decrypt_encrypt.
  by rewrite string_of_list_byte_of_string.
Qed.

(** The empty text: its encryption has an empty third part, which [decrypt]
    takes for a malformed value. *)
Lemma decrypt_encrypt_empty (env : Env) (iv : Buffer) (c : string) :
  length iv = IV_LENGTH ->
  encrypt env iv "" = Ok c ->
  isEncrypted c = true
  /\ decrypt env c = Throw (JsError "Invalid encrypted data format").
Proof.
  intros Hiv Henc. split; [by eapply isEncrypted_encrypt|].
  destruct (getEncryptionKey env) as [key|e] eqn:Hkey;
    [|unfold encrypt in Henc; by rewrite Hkey in Henc].
  destruct (encrypt_parts env iv "" key Hkey) as [Heq Hsplit].
  rewrite Heq in Henc. injection Henc as <-.
  unfold decrypt. rewrite Hkey, Hsplit. cbn [nth_opt lookup list_lookup].
  rewrite !truthy_to_hex, Hiv, gcm_tag_length, gcm_ciphertext_length.
  reflexivity.
Qed.

End CryptoProperties.

Section TokenStorage.
Context `{NodeCrypto}.

Lemma encrypt_ok (env : Env) (iv : Buffer) (text : string) :
  has_secret env -> exists c, encrypt env iv text = Ok c.
Proof.
  intros [key Hkey]%getEncryptionKey_ok.
  destruct (encrypt_parts env iv text key Hkey) as [Heq _]. eauto.
Qed.

(** What was saved is what is loaded, for tokens that are not empty; and a
    stored value [isEncrypted] does not recognise is loaded as it is. *)
Theorem getTokens_saveTokens (env : Env) (iv1 iv2 : Buffer) (now : Z)
    (t : WhoopTokens) (db : Database) :
  has_secret env ->
  length iv1 = IV_LENGTH -> length iv2 = IV_LENGTH ->
  access_token t <> "" -> refresh_token t <> "" ->
  exists db', saveTokens env iv1 iv2 now t db = Ok db'
              /\ getTokens env db' = Ok (Some t)
              /\ (forall row, tokens db' = Some row ->
                    isEncrypted (tr_access_token row) = true
                    /\ isEncrypted (tr_refresh_token row) = true).
Proof.
  intros Hsecret Hiv1 Hiv2 Ha Hr.
  destruct (encrypt_ok env iv1 (access_token t) Hsecret) as [ca Hca].
  destruct (encrypt_ok env iv2 (refresh_token t) Hsecret) as [cr Hcr].
  unfold saveTokens. rewrite Hca, Hcr. eexists. split; [done|].
  pose proof (isEncrypted_encrypt env iv1 _ _ Hiv1 Hca) as Hea.
  pose proof (isEncrypted_encrypt env iv2 _ _ Hiv2 Hcr) as Her.
  split.
  - unfold getTokens; simpl. rewrite Hea, Her.
    rewrite (decrypt_encrypt_nonempty env iv1 _ _ Hiv1 Ha Hca).
    rewrite (decrypt_encrypt_nonempty env iv2 _ _ Hiv2 Hr Hcr).
    by destruct t.
  - simpl. by intros row [= <-].
Qed.

Lemma getTokens_plaintext (env : Env) (db : Database) (row : TokenRow) :
  tokens db = Some row ->
  isEncrypted (tr_access_token row) = false ->
  isEncrypted (tr_refresh_token row) = false ->
  getTokens env db = Ok (Some {| access_token := tr_access_token row;
                                 refresh_token := tr_refresh_token row;
                                 expires_at := tr_expires_at row |}).
Proof. intros Hrow Ha Hr. unfold getTokens. by rewrite Hrow, Ha, Hr. Qed.

(** C7 at the empty text.  With a secret available, [encrypt] accepts the
    empty string; the value it returns is recognised by [isEncrypted], and
    [decrypt] rejects it: [decrypt(encrypt(s)) = s] fails at [s = ""]. *)
Theorem decrypt_rejects_encrypted_empty (env : Env) (iv : Buffer) :
  has_secret env ->
  length iv = IV_LENGTH ->
  exists c, encrypt env iv "" = Ok c
            /\ isEncrypted c = true
            /\ decrypt env c = Throw (JsError "Invalid encrypted data format")
            /\ decrypt env c <> Ok "".
Proof.
  intros Hsecret Hiv. destruct (encrypt_ok env iv "" Hsecret) as [c Hc].
  exists c. destruct (decrypt_encrypt_empty env iv c Hiv Hc) as [He Hd].
  rewrite Hd. done.
Qed.

(** Tokens saved with an empty access token cannot be loaded again. *)
Lemma getTokens_throws_after_empty_save (env : Env) (iv1 iv2 : Buffer) (now : Z)
    (t : WhoopTokens) (db : Database) :
  has_secret env ->
  length iv1 = IV_LENGTH ->
  access_token t = "" ->
  exists db', saveTokens env iv1 iv2 now t db = Ok db'
              /\ getTokens env db' = Throw (JsError "Invalid encrypted data format").
Proof.
  intros Hsecret Hiv1 Ha.
  destruct (encrypt_ok env iv1 (access_token t) Hsecret) as [ca Hca].
  destruct (encrypt_ok env iv2 (refresh_token t) Hsecret) as [cr Hcr].
  unfold saveTokens. rewrite Hca, Hcr. eexists. split; [done|].
  rewrite Ha in Hca. destruct (decrypt_encrypt_empty env iv1 ca Hiv1 Hca) as [He Hd].
  unfold getTokens; simpl. by rewrite He, Hd.
Qed.

End TokenStorage.

(** The environment of the examples: the client secret is the only secret. *)
Definition example_env : Env :=
  {| ENCRYPTION_SECRET := None; WHOOP_CLIENT_SECRET := Some "whoop-client-secret" |}.

Definition example_iv : Buffer := repeat Byte.x2a 16.

Lemma example_env_has_secret : has_secret example_env.
Proof. exists "whoop-client-secret". by split. Qed.

Lemma decrypt_rejects_encrypted_empty_witness :
  exists c, encrypt (H := toy_crypto) example_env example_iv "" = Ok c
            /\ isEncrypted c = true
            /\ decrypt (H := toy_crypto) example_env c
               = Throw (JsError "Invalid encrypted data format")
            /\ decrypt (H := toy_crypto) example_env c <> Ok "".
Proof.
  apply (decrypt_rejects_encrypted_empty (H := toy_crypto) example_env example_iv).
  - exact example_env_has_secret.
  - reflexivity.
Defined.

Definition example_tokens : WhoopTokens :=
  {| access_token := "eyJhbGciOi.access"; refresh_token := "def50200.refresh";
     expires_at := 1705324245123 |}.

Lemma getTokens_saveTokens_witness :
  exists db', saveTokens (H := toy_crypto) example_env example_iv example_iv example_now
                example_tokens initSchema = Ok db'
              /\ getTokens (H := toy_crypto) example_env db' = Ok (Some example_tokens)
              /\ (forall row, tokens db' = Some row ->
                    isEncrypted (tr_access_token row) = true
                    /\ isEncrypted (tr_refresh_token row) = true).
Proof.
  apply (getTokens_saveTokens (H := toy_crypto)); try done.
  exact example_env_has_secret.
Defined.

(** ** The authenticated request (C4) *)

Import Client.

Section RequestProperties.
Context `{Upstream}.

Ltac run_m :=
  unfold send, refreshTokens, request, bind, get, emit, elapse, setTokens, modify,
    throw, ret, lift; simpl.

Lemma send_spec (path : string) (params : list (string * string))
    (s : ClientState) (tk : WhoopTokens) :
  held s = Some tk ->
  exists r s', send path params s = (r, s')
               /\ trace s' = trace s ++ [ApiGet path params (access_token tk)]
               /\ held s' = Some tk.
Proof.
  intros Hheld. run_m. rewrite Hheld; simpl.
  destruct (api_endpoint path params (access_token tk) (clock s)) as [reply dt].
  destruct reply; simpl; eauto.
Qed.

(** What a call of [refreshTokens] leaves behind: only refresh events; a
    token POST first when there is a refresh token; and, when it returns,
    the granted pair in place of the old one. *)
Lemma refreshTokens_spec (s : ClientState) (tk : WhoopTokens) :
  held s = Some tk ->
  exists r1 s1 pre,
    refreshTokens s = (r1, s1)
    /\ trace s1 = trace s ++ pre
    /\ Forall (fun e => refresh_event e = true) pre
    /\ (truthy (refresh_token tk) = true ->
        exists pre', pre = TokenPost (refresh_token tk) :: pre')
    /\ (is_ok r1 = true ->
        exists fresh expires_in dt,
          held s1 = Some fresh
          /\ token_endpoint (refresh_token tk) (clock s)
             = (TokenGranted (access_token fresh) (refresh_token fresh) expires_in, dt)
          /\ expires_at fresh = clock s + dt + expires_in * 1000).
Proof.
  intros Hheld. run_m. rewrite Hheld; simpl.
  destruct (truthy (refresh_token tk)) eqn:Hrt; simpl.
  - destruct (token_endpoint (refresh_token tk) (clock s)) as [reply dt] eqn:Hreply.
    destruct reply as [e|text|a r expires_in]; simpl.
    + eexists _, _, [_]; repeat split; eauto. by intros [=].
    + eexists _, _, [_]; repeat split; eauto. by intros [=].
    + destruct onTokenRefresh as [callback|]; simpl.
      * eexists _, _, [_; _]. split; [done|]. split; [by rewrite <- app_assoc|].
        split; [by repeat constructor|]. split; [eauto|].
        intros _. eexists _, expires_in, dt. simpl. eauto.
      * eexists _, _, [_]. split; [done|]. split; [done|].
        split; [by repeat constructor|]. split; [eauto|].
        intros _. eexists _, expires_in, dt. simpl. eauto.
  - eexists _, _, []. split; [done|]. split; [by rewrite app_nil_r|].
    split; [done|]. split; [done | by intros [=]].
Qed.

(** C4. For a request of a client that holds tokens: when the token has at
    least five minutes left, the request is the GET with that token and
    nothing else leaves the client, no refresh call; when it has less, the
    request starts with [refreshTokens] and either that throws, and the
    request throws the same error without any GET, or it returns, and the GET
    carries the access token the refresh was granted.  With a refresh token
    at hand, a refresh call leaves the client if and only if the token has
    less than five minutes left. *)
Theorem request_refresh_policy (path : string) (params : list (string * string))
    (s : ClientState) (tk : WhoopTokens) :
  held s = Some tk ->
  exists r s' evs,
    request path params s = (r, s')
    /\ trace s' = trace s ++ evs
    /\ (5 * 60 * 1000 <= expires_at tk - clock s ->
        evs = [ApiGet path params (access_token tk)] /\ held s' = Some tk)
    /\ (expires_at tk - clock s < 5 * 60 * 1000 ->
        exists r1 s1, refreshTokens s = (r1, s1)
          /\ match r1 with
             | Throw e =>
                 r = Throw e /\ s' = s1
                 /\ Forall (fun ev => api_event ev = false) evs
             | Ok _ =>
                 exists fresh pre expires_in dt,
                   held s1 = Some fresh
                   /\ token_endpoint (refresh_token tk) (clock s)
                      = (TokenGranted (access_token fresh) (refresh_token fresh) expires_in, dt)
                   /\ expires_at fresh = clock s + dt + expires_in * 1000
                   /\ Forall (fun ev => refresh_event ev = true) pre
                   /\ evs = pre ++ [ApiGet path params (access_token fresh)]
             end)
    /\ (truthy (refresh_token tk) = true ->
        (Exists (fun ev => refresh_event ev = true) evs
         <-> expires_at tk - clock s < 5 * 60 * 1000)).
Proof.
  intros Hheld.
  destruct (Z.ltb_spec (expires_at tk - clock s) (5 * 60 * 1000)) as [Hlt|Hge].
  - destruct (refreshTokens_spec s tk Hheld) as (r1 & s1 & pre & Hr & Htr & Hpre & Hpost & Hok).
    destruct r1 as [u|e].
    + destruct (Hok eq_refl) as (fresh & expires_in & dt & Hfresh & Hgrant & Hexp).
      destruct (send_spec path params s1 fresh Hfresh) as (r & s' & Hsend & Htr' & _).
      exists r, s', (pre ++ [ApiGet path params (access_token fresh)]).
      split; [|split; [|split; [|split]]].
      * unfold request, bind at 1, get. rewrite Hheld.
        apply Z.ltb_lt in Hlt. rewrite Hlt. unfold bind. by rewrite Hr.
      * by rewrite Htr', Htr, app_assoc.
      * lia.
      * intros _. exists (Ok u), s1. split; [done|].
        exists fresh, pre, expires_in, dt. auto.
      * intros Hrt. split; [done|]. intros _.
        destruct (Hpost Hrt) as [pre' ->]. by left.
    + exists (Throw e), s1, pre. split; [|split; [|split; [|split]]].
      * unfold request, bind at 1, get. rewrite Hheld.
        apply Z.ltb_lt in Hlt. rewrite Hlt. unfold bind. by rewrite Hr.
      * done.
      * lia.
      * intros _. exists (Throw e), s1. split; [done|]. split; [done|]. split; [done|].
        eapply Forall_impl; [exact Hpre|]. by intros [] ?.
      * intros Hrt. split; [done|]. intros _.
        destruct (Hpost Hrt) as [pre' ->]. by left.
  - destruct (send_spec path params s tk Hheld) as (r & s' & Hsend & Htr' & Hheld').
    exists r, s', [ApiGet path params (access_token tk)].
    split; [|split; [|split; [|split]]].
    + unfold request, bind at 1, get. rewrite Hheld.
      apply Z.ltb_ge in Hge. rewrite Hge. unfold bind, ret. done.
    + done.
    + done.
    + lia.
    + intros _. split; [|lia].
      intros Hex. apply Exists_cons in Hex as [Hex|Hex]; [done|].
      by apply Exists_nil in Hex.
Qed.

End RequestProperties.

(** A run on a concrete upstream: the token expires in one minute, the
    refresh is granted and notified, the GET carries the new token. *)
#[local] Instance example_upstream : Upstream := {|
  token_endpoint refresh now := (TokenGranted "fresh-access" "fresh-refresh" 3600, 120);
  api_endpoint path params bearer now := (ApiJson "{}", 80);
  onTokenRefresh := Some (fun _ => Ok tt)
|}.

Definition expiring_client : ClientState :=
  {| held := Some {| access_token := "old-access"; refresh_token := "old-refresh";
                     expires_at := example_now + 60000 |};
     clock := example_now;
     trace := [] |}.

Example request_expiring_run :
  request "/v2/cycle" [("limit", "25")] expiring_client =
  (Ok "{}",
   {| held := Some {| access_token := "fresh-access"; refresh_token := "fresh-refresh";
                      expires_at := example_now + 120 + 3600000 |};
      clock := example_now + 200;
      trace := [TokenPost "old-refresh";
                RefreshNotified {| access_token := "fresh-access";
                                   refresh_token := "fresh-refresh";
                                   expires_at := example_now + 120 + 3600000 |};
                ApiGet "/v2/cycle" [("limit", "25")] "fresh-access"] |}).
Proof. reflexivity. Qed.

Lemma request_refresh_policy_witness :
  exists r s' evs,
    request "/v2/cycle" [("limit", "25")] expiring_client = (r, s')
    /\ trace s' = trace expiring_client ++ evs
    /\ (Exists (fun ev => refresh_event ev = true) evs
        <-> example_now + 60000 - clock expiring_client < 5 * 60 * 1000).
Proof.
  destruct (request_refresh_policy "/v2/cycle" [("limit", "25")] expiring_client
              {| access_token := "old-access"; refresh_token := "old-refresh";
                 expires_at := example_now + 60000 |} eq_refl)
    as (r & s' & evs & Hrun & Htrace & _ & _ & Hiff).
  exists r, s', evs. split; [exact Hrun|]. split; [exact Htrace|].
  exact (Hiff eq_refl).
Defined.

(** ** The sync engine (C6, C1) *)

Lemma contains_app (c : ascii) (a b : string) :
  contains c (a +:+ b) = contains c a || contains c b.
Proof. induction a as [|d a IH]; [done|]. simpl. by rewrite IH, orb_assoc. Qed.

Lemma digit_not_T (n : Z) : Ascii.eqb (digit n) "T" = false.
Proof.
  unfold digit. pose proof (Z.mod_pos_bound n 10 ltac:(lia)) as Hb.
  assert (Hcases : n mod 10 = 0 \/ n mod 10 = 1 \/ n mod 10 = 2 \/ n mod 10 = 3
                   \/ n mod 10 = 4 \/ n mod 10 = 5 \/ n mod 10 = 6 \/ n mod 10 = 7
                   \/ n mod 10 = 8 \/ n mod 10 = 9) by lia.
  repeat destruct Hcases as [-> | Hcases]; try rewrite Hcases; reflexivity.
Qed.

Lemma pad_no_T (w : nat) (n : Z) : contains "T" (pad w n) = false.
Proof.
  revert n. induction w as [|w IH]; intros n; [done|].
  cbn [pad]. rewrite contains_app, IH. simpl. by rewrite digit_not_T.
Qed.

Lemma date_string_no_T (t : Z) : contains "T" (date_string t) = false.
Proof.
  unfold date_string. destruct (civil_from_days (t / msPerDay)) as [[y m] d].
  rewrite !contains_app, !pad_no_T. unfold year_string.
  destruct ((0 <=? y) && (y <=? 9999)); [by rewrite pad_no_T|].
  rewrite contains_app, pad_no_T. by destruct (y <? 0).
Qed.

(** The date-only boundary: [toISOString().split('T')[0]] is the
    [YYYY-MM-DD] of the instant. *)
Lemma date_part_toISOString (t : Z) : date_part (toISOString t) = date_string t.
Proof.
  unfold date_part, toISOString.
  change ("T" +:+ ?x) with (String "T" x).
  by rewrite split_app_sep by apply date_string_no_T.
Qed.

(** ** The calendar: what is printed is read back *)

(** The fields of a day of a 400-year era, as [civil_from_days] computes
    them: year of the era (from March), month, day of the month. *)
Definition era_fields (doe : Z) : Z * Z * Z :=
  let yoe := (doe - doe / 1460 + doe / 36524 - doe / 146096) / 365 in
  let doy := doe - (365 * yoe + yoe / 4 - yoe / 100) in
  let mp := (5 * doy + 2) / 153 in
  let d := doy - (153 * mp + 2) / 5 + 1 in
  let m := if mp <? 10 then mp + 3 else mp - 9 in
  (yoe, m, d).

Definition era_day (yoe m d : Z) : Z :=
  let doy := (153 * (if 2 <? m then m - 3 else m + 9) + 2) / 5 + d - 1 in
  yoe * 365 + yoe / 4 - yoe / 100 + doy.

Definition fields_ok (doe yoe m d : Z) : bool :=
  (0 <=? yoe) && (yoe <=? 399) && (1 <=? m) && (m <=? 12) && (1 <=? d) && (d <=? 31)
  && (era_day yoe m d =? doe)
  && (if doe <=? 146036 then yoe + (if m <=? 2 then 1 else 0) <=? 399
      else yoe + (if m <=? 2 then 1 else 0) =? 400).

(** The number [YYYYMMDD] of a day, within its era. *)
Definition fields_key (yoe m d : Z) : Z :=
  (if m <=? 2 then yoe + 1 else yoe) * 10000 + m * 100 + d.

Definition era_day_ok (doe : Z) : bool :=
  let '(yoe, m, d) := era_fields doe in fields_ok doe yoe m d.

Definition era_key (doe : Z) : Z :=
  let '(yoe, m, d) := era_fields doe in fields_key yoe m d.

(** One pass over [n] days from [doe]: each has sound fields, and a number
    above [prev], the number of the day before. *)
Fixpoint era_scan (n : nat) (doe prev : Z) : bool :=
  match n with
  | O => true
  | S n' =>
      let '(yoe, m, d) := era_fields doe in
      let key := fields_key yoe m d in
      fields_ok doe yoe m d && (prev <? key) && era_scan n' (doe + 1) key
  end.

Lemma era_scan_head (n : nat) (doe prev : Z) :
  era_scan (S n) doe prev = true ->
  era_day_ok doe = true /\ prev < era_key doe /\ era_scan n (doe + 1) (era_key doe) = true.
Proof.
  cbn [era_scan]. unfold era_day_ok, era_key. destruct (era_fields doe) as [[yoe m] d].
  cbv zeta. intros [[Hok Hprev]%andb_true_iff Hrest]%andb_true_iff.
  split; [done|]. split; [lia | done].
Qed.

Lemma era_scan_spec (n : nat) (doe prev : Z) :
  era_scan n doe prev = true ->
  forall j, doe <= j < doe + Z.of_nat n ->
    era_day_ok j = true /\ (j + 1 < doe + Z.of_nat n -> era_key j < era_key (j + 1)).
Proof.
  revert doe prev. induction n as [|n IH]; intros doe prev Hscan j Hj; [lia|].
  apply era_scan_head in Hscan as (Hok & _ & Hrest).
  destruct (decide (j = doe)) as [->|Hne].
  - split; [done|]. intros Hnext. destruct n as [|n]; [lia|].
    by apply era_scan_head in Hrest as (_ & Hlt & _).
  - destruct (IH (doe + 1) _ Hrest j ltac:(lia)) as [Hj1 Hj2].
    split; [done|]. intros Hnext. apply Hj2. lia.
Qed.

Lemma era_scanned : era_scan (Z.to_nat 146097) 0 (-1) = true.
Proof. vm_compute. reflexivity. Qed.

Lemma era_days_ok (doe : Z) : 0 <= doe < 146097 -> era_day_ok doe = true.
Proof. intros Hdoe. apply (era_scan_spec _ _ _ era_scanned doe). lia. Qed.

Lemma era_steps_ok (doe : Z) : 0 <= doe < 146096 -> era_key doe < era_key (doe + 1).
Proof. intros Hdoe. apply (era_scan_spec _ _ _ era_scanned doe); lia. Qed.

Lemma civil_from_days_era (z : Z) :
  civil_from_days z =
  let era := (z + 719468) / 146097 in
  let '(yoe, m, d) := era_fields ((z + 719468) - era * 146097) in
  (if m <=? 2 then yoe + era * 400 + 1 else yoe + era * 400, m, d).
Proof. reflexivity. Qed.

Lemma days_from_civil_era (era yoe m d : Z) :
  0 <= yoe <= 399 ->
  days_from_civil (if m <=? 2 then yoe + era * 400 + 1 else yoe + era * 400) m d
  = era * 146097 + era_day yoe m d - 719468.
Proof.
  intros Hyoe. unfold days_from_civil, era_day.
  assert ((if m <=? 2
           then (if m <=? 2 then yoe + era * 400 + 1 else yoe + era * 400) - 1
           else (if m <=? 2 then yoe + era * 400 + 1 else yoe + era * 400))
          = yoe + era * 400) as -> by (destruct (m <=? 2); lia).
  assert ((yoe + era * 400) / 400 = era) as ->
    by (rewrite Z.div_add by lia; rewrite Z.div_small by lia; lia).
  cbv zeta. replace (yoe + era * 400 - era * 400) with yoe by lia. reflexivity.
Qed.

(** The fields of a day: what the era check gives for every day. *)
Lemma civil_from_days_spec (z : Z) :
  let '(y, m, d) := civil_from_days z in
  days_from_civil y m d = z /\ 1 <= m <= 12 /\ 1 <= d <= 31
  /\ (-719528 <= z <= 2932896 -> 0 <= y <= 9999).
Proof.
  rewrite civil_from_days_era. cbv zeta.
  set (era := (z + 719468) / 146097).
  set (doe := z + 719468 - era * 146097).
  assert (Hdoe : 0 <= doe < 146097).
  { subst doe era. pose proof (Z.div_mod (z + 719468) 146097 ltac:(lia)).
    pose proof (Z.mod_pos_bound (z + 719468) 146097 ltac:(lia)). lia. }
  pose proof (era_days_ok doe Hdoe) as Hok. unfold era_day_ok in Hok.
  destruct (era_fields doe) as [[yoe m] d].
  repeat (apply andb_true_iff in Hok as [Hok ?]).
  rewrite days_from_civil_era by lia.
  split; [lia|]. split; [lia|]. split; [lia|].
  intros Hz.
  assert (-1 <= era < 25).
  { subst doe era. split.
    - apply Z.div_le_lower_bound; lia.
    - apply Z.div_lt_upper_bound; lia. }
  destruct (doe <=? 146036) eqn:Hd.
  - assert (0 <= era) by (subst doe; lia).
    destruct (m <=? 2); lia.
  - assert (era < 24) by (subst doe; lia).
    destruct (m <=? 2); lia.
Qed.

Lemma digit_val_digit (n : Z) : digit_val (digit n) = Some (n mod 10).
Proof.
  unfold digit. pose proof (Z.mod_pos_bound n 10 ltac:(lia)) as Hn.
  assert (Hcases : n mod 10 = 0 \/ n mod 10 = 1 \/ n mod 10 = 2 \/ n mod 10 = 3
                   \/ n mod 10 = 4 \/ n mod 10 = 5 \/ n mod 10 = 6 \/ n mod 10 = 7
                   \/ n mod 10 = 8 \/ n mod 10 = 9) by lia.
  destruct Hcases as [->|[->|[->|[->|[->|[->|[->|[->|[->| ->]]]]]]]]]; reflexivity.
Qed.

Lemma append_assoc (a b c : string) : (a +:+ b) +:+ c = a +:+ (b +:+ c).
Proof.
  induction a as [|x a IH]; [done|].
  change (String x ((a +:+ b) +:+ c) = String x (a +:+ (b +:+ c))). by rewrite IH.
Qed.

(** Reading back the digits [pad] wrote. *)
Lemma take_digits_pad (w : nat) (n : Z) (k : nat) (acc : Z) (rest : string) :
  take_digits (w + k) acc (pad w n +:+ rest)
  = take_digits k (acc * 10 ^ Z.of_nat w + n mod 10 ^ Z.of_nat w) rest.
Proof.
  revert n k acc rest. induction w as [|w IH]; intros n k acc rest.
  - cbn [pad Nat.add]. change ("" +:+ rest) with rest.
    rewrite Z.pow_0_r, Z.mod_1_r. f_equal. lia.
  - cbn [pad]. rewrite append_assoc. change (String ?c "" +:+ rest) with (String c rest).
    rewrite Nat.add_succ_comm, IH. cbn [take_digits]. rewrite digit_val_digit.
    f_equal. rewrite Nat2Z.inj_succ, Z.pow_succ_r by lia.
    rewrite (Z.rem_mul_r n 10 (10 ^ Z.of_nat w)) by lia. lia.
Qed.

Lemma take_pad (w : nat) (n : Z) (rest : string) :
  0 <= n < 10 ^ Z.of_nat w ->
  take_digits w 0 (pad w n +:+ rest) = Some (n, rest).
Proof.
  intros Hn. rewrite <- (Nat.add_0_r w) at 1. rewrite take_digits_pad.
  cbn [take_digits]. rewrite Z.mod_small by lia. f_equal; f_equal; lia.
Qed.

Lemma digit_cases (n : Z) :
  exists k, (k < 10)%nat /\ digit n = ascii_of_N (48 + N.of_nat k) /\ n mod 10 = Z.of_nat k.
Proof.
  pose proof (Z.mod_pos_bound n 10 ltac:(lia)) as Hn.
  exists (Z.to_nat (n mod 10)). split; [lia|]. split; [|lia].
  unfold digit. f_equal. lia.
Qed.

Lemma digit_not_blank (n : Z) : is_blank (digit n) = false.
Proof.
  destruct (digit_cases n) as (k & Hk & -> & _).
  do 10 (destruct k as [|k]; [reflexivity|]). lia.
Qed.

Lemma is_digit_digit (n : Z) : is_digit (digit n) = true.
Proof. unfold is_digit. by rewrite digit_val_digit. Qed.

Lemma pad_2 (n : Z) : pad 2 n = String (digit (n / 10)) (String (digit n) "").
Proof. reflexivity. Qed.

Lemma pad_3 (n : Z) :
  pad 3 n = String (digit (n / 10 / 10)) (String (digit (n / 10)) (String (digit n) "")).
Proof. reflexivity. Qed.

Lemma append_nil_r (a : string) : a +:+ "" = a.
Proof. induction a as [|x a IH]; [done|]. change (String x (a +:+ "") = String x a). by rewrite IH. Qed.

Lemma expect_head (c : ascii) (s : string) : expect c (String c s) = Some s.
Proof. unfold expect. by rewrite Ascii.eqb_refl. Qed.

Lemma in_range_inside (lo hi v : Z) : lo <= v <= hi -> in_range lo hi v = Some v.
Proof. intros Hv. unfold in_range. by assert (((lo <=? v) && (v <=? hi)) = true) as -> by lia. Qed.

(** The day a printable instant falls on is printed with a four-digit
    year, and read back as that day. *)
Lemma parse_date_string (t : Z) (rest : string) :
  printable t = true ->
  parse_timestamp (date_string t +:+ rest) =
  let day := t / msPerDay * msPerDay in
  let s6 := skip_while (fun c => is_blank c || Ascii.eqb c "T") rest in
  match parse_time s6 with
  | Some x => Some (day + x)
  | None => if String.eqb s6 "" then Some day else None
  end.
Proof.
  intros Ht. unfold printable in Ht.
  assert (Hday : -719528 <= t / msPerDay <= 2932896).
  { unfold msPerDay. split.
    - apply Z.div_le_lower_bound; lia.
    - apply Z.lt_succ_r, Z.div_lt_upper_bound; lia. }
  unfold date_string. pose proof (civil_from_days_spec (t / msPerDay)) as Hspec.
  destruct (civil_from_days (t / msPerDay)) as [[y m] d].
  destruct Hspec as (Hback & Hm & Hd & Hy). specialize (Hy Hday).
  unfold year_string.
  assert (((0 <=? y) && (y <=? 9999)) = true) as -> by lia.
  rewrite !append_assoc. unfold parse_timestamp.
  rewrite take_pad by (change (10 ^ Z.of_nat 4) with 10000; lia).
  cbn [mbind option_bind]. change ("-" +:+ ?x) with (String "-" x).
  rewrite expect_head. cbn [mbind option_bind].
  rewrite take_pad by (change (10 ^ Z.of_nat 2) with 100; lia).
  cbn [mbind option_bind]. rewrite in_range_inside by lia. cbn [mbind option_bind].
  change ("-" +:+ ?x) with (String "-" x).
  rewrite expect_head. cbn [mbind option_bind].
  rewrite take_pad by (change (10 ^ Z.of_nat 2) with 100; lia).
  cbn [mbind option_bind]. rewrite in_range_inside by lia. cbn [mbind option_bind].
  by rewrite Hback.
Qed.

(** The time of day, read back to the second; what follows the seconds is
    read as fraction and zone. *)
Lemma parse_time_string (t : Z) (rest : string) :
  parse_time (time_string t +:+ rest) =
  let r := t mod msPerDay in
  let '(ms, s6) := parse_fraction rest in
  tz ← parse_zone s6;
  Some (r - r mod msPerSecond + ms - tz * msPerMinute).
Proof.
  unfold time_string. set (r := t mod msPerDay).
  assert (Hr : 0 <= r < msPerDay) by (apply Z.mod_pos_bound; done).
  unfold msPerDay, msPerHour, msPerMinute, msPerSecond in *.
  rewrite !append_assoc. unfold parse_time.
  rewrite take_pad by (change (10 ^ Z.of_nat 2) with 100; Z.div_mod_to_equations; lia).
  cbn [mbind option_bind].
  rewrite in_range_inside by (Z.div_mod_to_equations; lia). cbn [mbind option_bind].
  change (":" +:+ ?x) with (String ":" x).
  rewrite expect_head. cbn [mbind option_bind].
  rewrite take_pad by (change (10 ^ Z.of_nat 2) with 100; Z.div_mod_to_equations; lia).
  cbn [mbind option_bind].
  rewrite in_range_inside by (Z.div_mod_to_equations; lia). cbn [mbind option_bind].
  change (":" +:+ ?x) with (String ":" x). cbv iota.
  rewrite take_pad by (change (10 ^ Z.of_nat 2) with 100; Z.div_mod_to_equations; lia).
  cbn [mbind option_bind].
  rewrite in_range_inside by (Z.div_mod_to_equations; lia). cbn [mbind option_bind].
  cbv zeta. destruct (parse_fraction rest) as [ms s6].
  destruct (parse_zone s6) as [tz|]; cbn [mbind option_bind]; [|done].
  unfold msPerHour, msPerMinute, msPerSecond. f_equal. Z.div_mod_to_equations. lia.
Qed.

Lemma parse_fraction_millis (ms : Z) :
  0 <= ms < 1000 ->
  parse_fraction ("." +:+ pad 3 ms +:+ "Z") = (ms, "Z").
Proof.
  intros Hms. rewrite pad_3.
  change ("." +:+ String ?a (String ?b (String ?c "")) +:+ "Z")
    with (String "." (String a (String b (String c "Z")))).
  unfold parse_fraction. cbn [take_while skip_while]. rewrite !is_digit_digit.
  change (is_digit "Z") with false. cbv iota.
  unfold digit_at. cbn [String.eqb String.get]. rewrite !digit_val_digit.
  change (default 0 (Some ?x)) with x. change (5 <=? 0) with false. cbv iota.
  f_equal. Z.div_mod_to_equations. lia.
Qed.

Lemma skip_to_time (sep : ascii) (t : Z) (rest : string) :
  is_blank sep || Ascii.eqb sep "T" = true ->
  skip_while (fun c => is_blank c || Ascii.eqb c "T") (String sep (time_string t +:+ rest))
  = time_string t +:+ rest.
Proof.
  intros Hsep. cbn [skip_while]. rewrite Hsep.
  unfold time_string. rewrite pad_2, !append_assoc.
  change (String ?a (String ?b "") +:+ ?x) with (String a (String b x)).
  cbn [skip_while]. by rewrite digit_not_blank, digit_not_T.
Qed.

Lemma mod_day_second (t : Z) : (t mod msPerDay) mod msPerSecond = t mod msPerSecond.
Proof. unfold msPerDay, msPerSecond. Z.div_mod_to_equations. lia. Qed.

(** What SQLite's [CURRENT_TIMESTAMP] prints is read back as the instant,
    to the second. *)
Lemma parse_CURRENT_TIMESTAMP (t : Z) :
  printable t = true ->
  parse_timestamp (CURRENT_TIMESTAMP t) = Some (t - t mod msPerSecond).
Proof.
  intros Ht. unfold CURRENT_TIMESTAMP. rewrite (parse_date_string t _ Ht). cbv zeta.
  change (" " +:+ ?x) with (String " " x).
  rewrite <- (append_nil_r (time_string t)).
  rewrite skip_to_time by done. rewrite parse_time_string. cbv zeta.
  change (parse_fraction "") with (0, ""). cbv iota beta.
  change (parse_zone "") with (Some 0). cbn [mbind option_bind].
  rewrite mod_day_second. f_equal.
  pose proof (Z.div_mod t msPerDay ltac:(done)). lia.
Qed.

(** What [toISOString] prints is read back as the instant. *)
Lemma parse_toISOString (t : Z) :
  printable t = true -> parse_timestamp (toISOString t) = Some t.
Proof.
  intros Ht. unfold toISOString. rewrite (parse_date_string t _ Ht). cbv zeta.
  change ("T" +:+ ?x) with (String "T" x).
  rewrite skip_to_time by done. rewrite parse_time_string. cbv zeta.
  rewrite parse_fraction_millis by (apply Z.mod_pos_bound; done).
  change (parse_zone "Z") with (Some 0). cbn [mbind option_bind].
  rewrite mod_day_second. f_equal.
  pose proof (Z.div_mod t msPerDay ltac:(done)). lia.
Qed.

Lemma DATE_toISOString (t : Z) :
  printable t = true -> DATE (toISOString t) = Some (date_string t).
Proof.
  intros Ht. unfold DATE. rewrite (parse_toISOString t Ht). cbn [mbind option_bind].
  by rewrite Ht.
Qed.

(** ** Order: date texts compare as the days they print *)

Lemma compare_digit (a b : Z) :
  Ascii.compare (digit a) (digit b) = (a mod 10 ?= b mod 10).
Proof.
  destruct (digit_cases a) as (i & Hi & -> & ->), (digit_cases b) as (j & Hj & -> & ->).
  unfold Ascii.compare. rewrite !N_ascii_embedding by lia.
  rewrite <- N2Z.inj_compare, !N2Z.inj_add, !nat_N_Z. apply Z.add_compare_mono_l.
Qed.

Lemma compare_pad (w : nat) (x y : Z) (r1 r2 : string) :
  0 <= x < 10 ^ Z.of_nat w -> 0 <= y < 10 ^ Z.of_nat w ->
  String.compare (pad w x +:+ r1) (pad w y +:+ r2)
  = match x ?= y with Eq => String.compare r1 r2 | c => c end.
Proof.
  revert x y r1 r2. induction w as [|w IH]; intros x y r1 r2 Hx Hy.
  - change (10 ^ Z.of_nat 0) with 1 in *. by assert (x = 0 /\ y = 0) as [-> ->] by lia.
  - rewrite Nat2Z.inj_succ, Z.pow_succ_r in Hx, Hy by lia.
    cbn [pad]. rewrite !append_assoc.
    change (String ?c "" +:+ ?r) with (String c r).
    rewrite IH by (Z.div_mod_to_equations; nia).
    cbn [String.compare]. rewrite compare_digit.
    destruct (Z.compare_spec (x / 10) (y / 10)), (Z.compare_spec (x mod 10) (y mod 10)),
      (Z.compare_spec x y); try done; exfalso; Z.div_mod_to_equations; lia.
Qed.

(** The number [YYYYMMDD] of a day. *)
Definition day_key (z : Z) : Z :=
  let '(y, m, d) := civil_from_days z in y * 10000 + m * 100 + d.

Lemma day_key_era (z : Z) :
  day_key z = era_key (z + 719468 - (z + 719468) / 146097 * 146097)
              + (z + 719468) / 146097 * 4000000.
Proof.
  unfold day_key, era_key, fields_key. rewrite civil_from_days_era. cbv zeta.
  destruct (era_fields _) as [[yoe m] d]. destruct (m <=? 2); lia.
Qed.

Lemma day_key_step (z : Z) : day_key z < day_key (z + 1).
Proof.
  rewrite !day_key_era.
  pose proof (Z.div_mod (z + 719468) 146097 ltac:(lia)) as Hz.
  pose proof (Z.mod_pos_bound (z + 719468) 146097 ltac:(lia)) as Hb.
  set (era := (z + 719468) / 146097) in *.
  set (doe := z + 719468 - era * 146097).
  assert (Hdoe : 0 <= doe < 146097) by (subst doe; lia).
  destruct (decide (doe = 146096)) as [Hlast|Hnot].
  - assert ((z + 1 + 719468) / 146097 = era + 1) as ->.
    { symmetry. apply (Z.div_unique _ _ _ 0); lia. }
    replace (z + 1 + 719468 - (era + 1) * 146097) with 0 by lia.
    rewrite Hlast. vm_compute era_key. lia.
  - assert ((z + 1 + 719468) / 146097 = era) as ->.
    { symmetry. apply (Z.div_unique _ _ _ (doe + 1)); lia. }
    replace (z + 1 + 719468 - era * 146097) with (doe + 1) by lia.
    pose proof (era_steps_ok doe ltac:(lia)) as Hstep. lia.
Qed.

Lemma day_key_lt (a b : Z) : a < b -> day_key a < day_key b.
Proof.
  intros Hab. replace b with (a + 1 + Z.of_nat (Z.to_nat (b - a - 1))) by lia.
  induction (Z.to_nat (b - a - 1)) as [|n IH].
  - rewrite Z.add_0_r. apply day_key_step.
  - rewrite Nat2Z.inj_succ.
    replace (a + 1 + Z.succ (Z.of_nat n)) with (a + 1 + Z.of_nat n + 1) by lia.
    etrans; [exact IH | apply day_key_step].
Qed.

Lemma day_key_compare (a b : Z) : (day_key a ?= day_key b) = (a ?= b).
Proof.
  destruct (Z.compare_spec a b) as [->|Hlt|Hgt].
  - apply Z.compare_refl.
  - by apply Z.compare_lt_iff, day_key_lt.
  - by apply Z.compare_gt_iff, day_key_lt.
Qed.

(** Two printable date texts, followed by anything, compare as their
    days, and by what follows when the days are the same. *)
Lemma compare_date_string (a b : Z) (r1 r2 : string) :
  printable a = true -> printable b = true ->
  String.compare (date_string a +:+ r1) (date_string b +:+ r2)
  = match a / msPerDay ?= b / msPerDay with
    | Eq => String.compare r1 r2
    | c => c
    end.
Proof.
  intros Ha Hb. rewrite <- day_key_compare. unfold day_key, date_string.
  assert (Hday : forall t, printable t = true -> -719528 <= t / msPerDay <= 2932896).
  { intros t Ht. unfold printable in Ht. unfold msPerDay. split.
    - apply Z.div_le_lower_bound; lia.
    - apply Z.lt_succ_r, Z.div_lt_upper_bound; lia. }
  pose proof (civil_from_days_spec (a / msPerDay)) as Hsa.
  pose proof (civil_from_days_spec (b / msPerDay)) as Hsb.
  destruct (civil_from_days (a / msPerDay)) as [[ya ma] da].
  destruct (civil_from_days (b / msPerDay)) as [[yb mb] db].
  destruct Hsa as (_ & Hma & Hda & Hya), Hsb as (_ & Hmb & Hdb & Hyb).
  specialize (Hya (Hday a Ha)). specialize (Hyb (Hday b Hb)).
  unfold year_string.
  assert (((0 <=? ya) && (ya <=? 9999)) = true) as -> by lia.
  assert (((0 <=? yb) && (yb <=? 9999)) = true) as -> by lia.
  rewrite !append_assoc.
  rewrite compare_pad by (change (10 ^ Z.of_nat 4) with 10000; lia).
  change ("-" +:+ ?x) with (String "-" x). cbn [String.compare].
  change (Ascii.compare "-" "-") with Eq. cbv iota.
  rewrite compare_pad by (change (10 ^ Z.of_nat 2) with 100; lia).
  change ("-" +:+ ?x) with (String "-" x). cbn [String.compare].
  change (Ascii.compare "-" "-") with Eq. cbv iota.
  rewrite compare_pad by (change (10 ^ Z.of_nat 2) with 100; lia).
  destruct (Z.compare_spec ya yb), (Z.compare_spec ma mb), (Z.compare_spec da db),
    (Z.compare_spec (ya * 10000 + ma * 100 + da) (yb * 10000 + mb * 100 + db));
    try done; exfalso; lia.
Qed.

(** ** Dates moved by whole days *)

Lemma days_from_civil_day (y m d : Z) :
  days_from_civil y m d = days_from_civil y m 1 + d - 1.
Proof. unfold days_from_civil. lia. Qed.

(** [d.setDate(d.getDate() - days)] moves the local time by whole days. *)
Lemma setDate_back_shift `{Host} (t days : Z) :
  setDate_back (Some t) days = TimeClip (UTC (LocalTime t - days * msPerDay)).
Proof.
  unfold setDate_back, setDate, getDate. cbn [mbind option_bind].
  pose proof (civil_from_days_spec (LocalTime t / msPerDay)) as Hspec.
  destruct (civil_from_days (LocalTime t / msPerDay)) as [[y m] d].
  destruct Hspec as (Hback & _). cbn [fmap option_fmap option_map mbind option_bind].
  unfold MakeDay. rewrite <- (days_from_civil_day y m (d - days)).
  f_equal. f_equal. rewrite (days_from_civil_day y m (d - days)).
  rewrite (days_from_civil_day y m d) in Hback.
  pose proof (Z.div_mod (LocalTime t) msPerDay ltac:(done)). lia.
Qed.

Lemma upsert_none_cycles (now : Z) (db : Database) : upsertCycles now [] db = db.
Proof. by destruct db. Qed.

Lemma upsert_none_recoveries (now : Z) (db : Database) : upsertRecoveries now [] db = db.
Proof. by destruct db. Qed.

Lemma upsert_none_sleeps (now : Z) (db : Database) : upsertSleeps now [] db = db.
Proof. by destruct db. Qed.

Lemma upsert_none_workouts (now : Z) (db : Database) : upsertWorkouts now [] db = db.
Proof. by destruct db. Qed.

(** The guard [if (items.length > 0)] around an upsert: with or without it,
    the store ends as the upsert of the items leaves it. *)
Lemma guarded_upsert {R : Type} (upsert : Z -> list R -> Database -> Database)
    (items : list R) (w : World) :
  (forall now db, upsert now [] db = db) ->
  (if (0 <? length items)%nat then on_db (fun now => upsert now items) else ret tt) w =
  (Ok tt, {| w_db := upsert (w_now w) items (w_db w); w_now := w_now w;
             w_client_tokens := w_client_tokens w |}).
Proof.
  intros Hnone. destruct items as [|x items]; simpl; [|done].
  unfold ret. rewrite Hnone. by destruct w.
Qed.

Lemma CURRENT_TIMESTAMP_not_empty (t : Z) : CURRENT_TIMESTAMP t <> "".
Proof. unfold CURRENT_TIMESTAMP. by destruct (date_string t). Qed.


Section SyncProperties.
Context `{Gateway} `{Host}.

(** The run of [syncDays] from a clock with a representable window, in
    terms of what the await of the four fetches yields. *)
Lemma syncDays_run (days : Z) (w : World) :
  valid_time (w_now w) = true ->
  valid_time (UTC (LocalTime (w_now w) - days * msPerDay)) = true ->
  let from := UTC (LocalTime (w_now w) - days * msPerDay) in
  let start := toISOString from in
  let end_ := toISOString (w_now w) in
  syncDays days w =
  match Promise_all4 (settle_order w)
          (getAllCycles start end_) (getAllRecoveries start end_)
          (getAllSleeps start end_) (getAllWorkouts start end_) w with
  | (Ok (cs, rs, ss, ws), w4) =>
      (Ok {| stats_cycles := length cs;
             stats_recoveries := length rs;
             stats_sleeps := length ss;
             stats_workouts := length ws |},
       {| w_db :=
            updateSyncState (w_now w4) (date_string from) (date_string (w_now w))
              (upsertWorkouts (w_now w4) ws
                 (upsertSleeps (w_now w4) ss
                    (upsertRecoveries (w_now w4) rs
                       (upsertCycles (w_now w4) cs (w_db w4)))));
          w_now := w_now w4;
          w_client_tokens := w_client_tokens w4 |})
  | (Throw e, w4) => (Throw e, w4)
  end.
Proof.
  intros Hend Hstart. cbv zeta.
  assert (He : TimeClip (w_now w) = Some (w_now w))
    by (unfold TimeClip; by rewrite Hend).
  assert (Hs : setDate_back (TimeClip (w_now w)) days
               = Some (UTC (LocalTime (w_now w) - days * msPerDay)))
    by (rewrite He, setDate_back_shift; unfold TimeClip; by rewrite Hstart).
  unfold syncDays, bind at 1, get. cbv zeta. rewrite !Hs, !He.
  unfold Date_toISOString at 1, bind at 1, ret at 1.
  unfold Date_toISOString at 1, bind at 1, ret at 1.
  unfold bind at 1.
  destruct (Promise_all4 _ _ _ _ _ w) as [[[[[cs rs] ss] ws]|e] w4]; [|done].
  unfold bind at 1. rewrite (guarded_upsert upsertCycles) by apply upsert_none_cycles.
  unfold bind at 1. rewrite (guarded_upsert upsertRecoveries) by apply upsert_none_recoveries.
  unfold bind at 1. rewrite (guarded_upsert upsertSleeps) by apply upsert_none_sleeps.
  unfold bind at 1. rewrite (guarded_upsert upsertWorkouts) by apply upsert_none_workouts.
  unfold bind, Date_toISOString, ret, on_db, modify. cbn [w_db w_now w_client_tokens].
  by rewrite !date_part_toISOString.
Qed.


(** A result of [syncDays], tagged as [smartSync] returns it. *)
Definition tagged (ty : SyncType) (run : Result SyncStats * World)
    : Result SmartSyncResult * World :=
  (match fst run with
   | Ok s => Ok {| type := ty; stats := Some s |}
   | Throw e => Throw e
   end, snd run).

Lemma tagged_bind (ty : SyncType) (c : M World SyncStats) (w : World) :
  bind c (fun s => ret {| type := ty; stats := Some s |}) w = tagged ty (c w).
Proof. unfold bind, tagged, ret. by destruct (c w) as [[s|e] w']. Qed.

Lemma hours_lt_one (now t : Z) :
  num_lt (Fin (inject_Z (now - t) / inject_Z (1000 * 60 * 60))) (Fin 1)
  = (now - t <? 3600000).
Proof.
  unfold num_lt, Qle_bool, Qdiv, Qmult, Qinv, inject_Z; simpl.
  generalize (now - t); intros d.
  change (Z.pos (1 * (1000 * 60 * 60))) with 3600000.
  destruct (Z.ltb_spec d 3600000), (Z.leb_spec (1 * 3600000) (d * 1 * 1)); simpl; lia.
Qed.

(** C1. What [smartSync] decides.  Without a [last_sync_at] (NULL, or an
    empty text) it runs [syncDays(90)] and tags the result [full].  With
    the [last_sync_at] that [updateSyncState] stamped at the instant [ts]
    (the UTC date and time, to the second, without a zone), read by the
    host's [Date] as a local time: the hours since the sync are counted from
    the stamp moved by the zone's offset, so the call skips (the world is as
    it was: no call of the gateway, no write) while
    [now - stamp + offset] is less than one hour, and runs [syncDays(7)],
    tagged [quick], from then on.  Only where the offset is zero is that
    one hour after the sync.  What [syncDays(90)] and [syncDays(7)] run is
    the sync of the window of that many days: the four fetches from that
    many days before now to now, the four upserts and the update of the sync
    state. *)
Theorem smartSync_shifted_by_zone (w : World) :
  (last_sync_at (sync_state (w_db w)) = None
   \/ last_sync_at (sync_state (w_db w)) = Some "" ->
   smartSync w = tagged full (syncDays 90 w))
  /\ (forall ts : Z,
        last_sync_at (sync_state (w_db w)) = Some (CURRENT_TIMESTAMP ts) ->
        Date_parse (CURRENT_TIMESTAMP ts) = Some (UTC (ts - ts mod msPerSecond)) ->
        let stamp := ts - ts mod msPerSecond in
        smartSync w =
        if w_now w - stamp + LocalTZA stamp false <? 1 * 60 * 60 * 1000
        then (Ok {| type := skip; stats := None |}, w)
        else tagged quick (syncDays 7 w))
  /\ (forall days : Z,
        valid_time (w_now w) = true ->
        valid_time (UTC (LocalTime (w_now w) - days * msPerDay)) = true ->
        let from := UTC (LocalTime (w_now w) - days * msPerDay) in
        let start := toISOString from in
        let end_ := toISOString (w_now w) in
        syncDays days w =
        match Promise_all4 (settle_order w)
                (getAllCycles start end_) (getAllRecoveries start end_)
                (getAllSleeps start end_) (getAllWorkouts start end_) w with
        | (Ok (cs, rs, ss, ws), w4) =>
            (Ok {| stats_cycles := length cs;
                   stats_recoveries := length rs;
                   stats_sleeps := length ss;
                   stats_workouts := length ws |},
             {| w_db :=
                  updateSyncState (w_now w4) (date_string from) (date_string (w_now w))
                    (upsertWorkouts (w_now w4) ws
                       (upsertSleeps (w_now w4) ss
                          (upsertRecoveries (w_now w4) rs
                             (upsertCycles (w_now w4) cs (w_db w4)))));
                w_now := w_now w4;
                w_client_tokens := w_client_tokens w4 |})
        | (Throw e, w4) => (Throw e, w4)
        end).
Proof.
  split; [|split; [|intros days; apply syncDays_run]].
  - intros Habsent. unfold smartSync, bind at 1, get. unfold getSyncState; cbn [lastSyncAt].
    destruct Habsent as [-> | ->]; apply tagged_bind.
  - intros ts Hstamp Hread stamp.
    unfold smartSync, bind at 1, get. unfold getSyncState; cbn [lastSyncAt].
    rewrite Hstamp. cbn [truthy_opt]. unfold truthy.
    pose proof (CURRENT_TIMESTAMP_not_empty ts) as Hne.
    apply String.eqb_neq in Hne. rewrite Hne. cbn [negb].
    change (default "" (Some ?x)) with x. unfold hoursSince. rewrite Hread.
    rewrite hours_lt_one. change (1 * 60 * 60 * 1000) with 3600000.
    replace (w_now w - UTC (ts - ts mod msPerSecond))
      with (w_now w - stamp + LocalTZA stamp false) by (unfold UTC, stamp; lia).
    destruct (_ <? 3600000); [done|]. apply tagged_bind.
Qed.

End SyncProperties.

(** A gateway for the examples: one cycle comes back, nothing else; every
    fetch takes a quarter of a second. *)
Definition tick {A : Type} (a : A) : M World A :=
  fun w => (Ok a, {| w_db := w_db w; w_now := w_now w + 250;
                     w_client_tokens := w_client_tokens w |}).

#[local] Instance example_gateway : Gateway := {|
  getAllCycles start end_ := tick [example_cycle];
  getAllRecoveries start end_ := tick [];
  getAllSleeps start end_ := tick [];
  getAllWorkouts start end_ := tick [];
  settle_order w := [First; Second; Third; Fourth]
|}.

(** A host in UTC, reading timestamps as SQLite writes them. *)
#[local] Instance utc_host : Host := {|
  Date_parse := parse_timestamp;
  LocalTZA t isUTC := 0
|}.

Definition world_at (now : Z) (db : Database) : World :=
  {| w_db := db; w_now := now; w_client_tokens := Some example_tokens |}.






(** A host five hours west of UTC, all year: a date with a time and
    without a zone is read as local time, a text with a zone, or a date
    alone, as what it says. *)
Definition zone_less (text : string) : bool :=
  let rest := String.substring 10 (String.length text - 10) text in
  negb (String.eqb rest "")
  && negb (contains "Z" rest || contains "z" rest || contains "+" rest || contains "-" rest).

Definition west_host : Host := {|
  Date_parse text :=
    (fun t => if zone_less text then t + 5 * msPerHour else t) <$> parse_timestamp text;
  LocalTZA t isUTC := - 5 * msPerHour
|}.

(** C1 at a host five hours west of UTC: two hours after a sync stamped
    2024-01-15 12:10:45, [smartSync] skips. *)
Lemma smartSync_shifted_by_zone_witness :
  let synced := updateSyncState example_now "2024-01-08" "2024-01-15" initSchema in
  let w := world_at (example_now + 2 * msPerHour) synced in
  last_sync_at (sync_state (w_db w)) = Some "2024-01-15 12:10:45"
  /\ 1 * 60 * 60 * 1000 <= w_now w - example_now
  /\ @smartSync example_gateway west_host w = (Ok {| type := skip; stats := None |}, w).
Proof.
  intros synced w. split; [reflexivity|]. split; [by vm_compute|].
  by rewrite (proj1 (proj2 (@smartSync_shifted_by_zone example_gateway west_host w))
                example_now eq_refl eq_refl).
Defined.

(** The scenarios of the decision table, on the example gateway. *)
Example smartSync_never_synced :
  fst (smartSync (world_at example_now initSchema))
  = Ok {| type := full;
          stats := Some {| stats_cycles := 1; stats_recoveries := 0;
                           stats_sleeps := 0; stats_workouts := 0 |} |}
  /\ oldest_synced_date (sync_state (w_db (snd (smartSync (world_at example_now initSchema)))))
     = Some "2023-10-17".
Proof. split; by vm_compute. Qed.

Example smartSync_half_an_hour_later :
  let synced := updateSyncState example_now "2024-01-08" "2024-01-15" initSchema in
  smartSync (world_at (example_now + 30 * 60 * 1000) synced)
  = (Ok {| type := skip; stats := None |}, world_at (example_now + 30 * 60 * 1000) synced).
Proof. by vm_compute. Qed.

Example smartSync_two_hours_later :
  let synced := updateSyncState example_now "2024-01-08" "2024-01-15" initSchema in
  let after := snd (smartSync (world_at (example_now + 2 * 60 * 60 * 1000) synced)) in
  fst (smartSync (world_at (example_now + 2 * 60 * 60 * 1000) synced))
  = Ok {| type := quick;
          stats := Some {| stats_cycles := 1; stats_recoveries := 0;
                           stats_sleeps := 0; stats_workouts := 0 |} |}
  /\ sync_state (w_db after)
     = {| last_sync_at := Some "2024-01-15 14:10:46";
          oldest_synced_date := Some "2024-01-08";
          newest_synced_date := Some "2024-01-15" |}.
Proof. split; by vm_compute. Qed.

(** ** Argument validation (C8) *)

(** The number [validateDays] reads off a value that is given. *)
Definition days_read (value : JsValue) : Num :=
  match value with
  | JNumber n => n
  | _ => parseInt (String_of value)
  end.

Definition absent (value : JsValue) : bool :=
  match value with JUndefined | JNull => true | _ => false end.

(** A number between 1 and 90, ends included. *)
Definition within_1_90 (n : Num) : Prop :=
  exists q, n = Fin q /\ (1 <= q)%Q /\ (q <= 90)%Q.

Lemma num_lt_false_le (q r : Q) : num_lt (Fin q) (Fin r) = false -> (r <= q)%Q.
Proof.
  unfold num_lt. intros Hlt. apply negb_false_iff in Hlt. by apply Qle_bool_iff.
Qed.

Lemma num_lt_true_lt (q r : Q) : num_lt (Fin q) (Fin r) = true -> (q < r)%Q.
Proof.
  unfold num_lt. intros Hlt. apply negb_true_iff in Hlt.
  apply Qnot_le_lt. intros Hle. apply Qle_bool_iff in Hle. congruence.
Qed.

(** [validateDays] in full: 14 for an absent value and for one whose
    reading is NaN or below 1, the smaller of the reading and 90 otherwise;
    in every case a number from 1 to 90. *)
Theorem validateDays_clamps (value : JsValue) :
  within_1_90 (validateDays value)
  /\ (absent value = true -> validateDays value = Fin 14)
  /\ (absent value = false ->
      validateDays value =
      if isNaN (days_read value) || num_lt (days_read value) (Fin 1) then Fin 14
      else Math_min (days_read value) (Fin 90)).
Proof.
  assert (H14 : within_1_90 (Fin 14)) by (exists 14%Q; by split).
  assert (Hread : absent value = false ->
                  validateDays value =
                  if isNaN (days_read value) || num_lt (days_read value) (Fin 1) then Fin 14
                  else Math_min (days_read value) (Fin 90)).
  { by destruct value. }
  split; [|split; [by destruct value | exact Hread]].
  destruct (absent value) eqn:Habs; [by destruct value|].
  rewrite (Hread eq_refl). destruct (days_read value) as [| | |q]; try done.
  - exists 90%Q. by split.
  - cbn [isNaN orb]. destruct (num_lt (Fin q) (Fin 1)) eqn:Hone; [done|].
    apply num_lt_false_le in Hone. unfold Math_min.
    destruct (num_lt (Fin 90) (Fin q)) eqn:Hmax.
    + exists 90%Q. by split.
    + apply num_lt_false_le in Hmax. by exists q.
Qed.

(** ** Sync failures in the tool handler (C9) *)

Section HandlerProperties.
Context `{NodeCrypto} `{Gateway} `{Host}.
Variable env : Env.

(** The four data tools answer from the store alone: they neither throw
    nor change the world, and their answer is no error. *)
Lemma dispatch_data_tool (name : string) (typedArgs : ToolArguments) (w : World) :
  includes dataTools name = true ->
  exists resp, dispatch env name typedArgs w = (Ok resp, w) /\ isError resp = false.
Proof.
  unfold includes, dataTools, dispatch. cbn [existsb].
  rewrite !(String.eqb_sym name).
  destruct (String.eqb "get_today" name).
  { intros _. unfold bind, get.
    destruct (getLatestRecovery (w_db w)), (getLatestSleep (w_db w)), (getLatestCycle (w_db w));
      eexists; split; reflexivity. }
  destruct (String.eqb "get_recovery_trends" name).
  { intros _. unfold bind, get.
    destruct (length _ =? 0)%nat; eexists; split; reflexivity. }
  destruct (String.eqb "get_sleep_analysis" name).
  { intros _. unfold bind, get.
    destruct (length _ =? 0)%nat; eexists; split; reflexivity. }
  destruct (String.eqb "get_strain_history" name).
  { intros _. unfold bind, get.
    destruct (length _ =? 0)%nat; eexists; split; reflexivity. }
  done.
Qed.

Lemma validateDays_reading (value : JsValue) :
  validateDays value =
  if absent value then Fin 14
  else if isNaN (days_read value) || num_lt (days_read value) (Fin 1) then Fin 14
       else Math_min (days_read value) (Fin 90).
Proof. by destruct value. Qed.

Lemma validateDays_within (value : JsValue) : within_1_90 (validateDays value).
Proof.
  assert (H14 : within_1_90 (Fin 14)) by (exists 14%Q; by split).
  rewrite validateDays_reading. destruct (absent value); [done|].
  destruct (days_read value) as [| | |q]; try done.
  - exists 90%Q. by split.
  - cbn [isNaN orb]. destruct (num_lt (Fin q) (Fin 1)) eqn:Hone; [done|].
    apply num_lt_false_le in Hone. unfold Math_min.
    destruct (num_lt (Fin 90) (Fin q)) eqn:Hmax.
    + exists 90%Q. by split.
    + apply num_lt_false_le in Hmax. by exists q.
Qed.

(** C8. The three trend tools: whatever is given as [days], the handler
    calls the store query with [validateDays(days)] and reports that number,
    a number from 1 to 90: 14 when the argument is absent or its reading is
    NaN or below 1, the smaller of the reading and 90 otherwise. *)
Theorem trend_tools_clamp_days (typedArgs : ToolArguments) (w : World) :
  let value := args_days typedArgs in
  let days := validateDays value in
  within_1_90 days
  /\ days = (if absent value then Fin 14
             else if isNaN (days_read value) || num_lt (days_read value) (Fin 1) then Fin 14
                  else Math_min (days_read value) (Fin 90))
  /\ dispatch env "get_recovery_trends" typedArgs w
     = (Ok (text match getRecoveryTrends (w_now w) days (w_db w) with
                 | [] => NoRecoveryData
                 | trends => RecoveryTrends days trends
                 end), w)
  /\ dispatch env "get_sleep_analysis" typedArgs w
     = (Ok (text match getSleepTrends (w_now w) days (w_db w) with
                 | [] => NoSleepData
                 | trends => SleepAnalysis days trends
                 end), w)
  /\ dispatch env "get_strain_history" typedArgs w
     = (Ok (text match getStrainTrends (w_now w) days (w_db w) with
                 | [] => NoStrainData
                 | trends => StrainHistory days trends
                 end), w).
Proof.
  cbv zeta. split; [apply validateDays_within|]. split; [apply validateDays_reading|].
  unfold dispatch. cbn [String.eqb Ascii.eqb Bool.eqb andb]. unfold bind, get, ret.
  split; [|split].
  - by destruct (getRecoveryTrends _ _ _).
  - by destruct (getSleepTrends _ _ _).
  - by destruct (getStrainTrends _ _ _).
Qed.


End HandlerProperties.

(** An upstream that is down: the cycles fetch is refused, after the other
    three have come back. *)
#[local] Instance failing_gateway : Gateway := {|
  getAllCycles start end_ := throw (JsError "API request failed: 503 Service Unavailable");
  getAllRecoveries start end_ := tick [];
  getAllSleeps start end_ := tick [];
  getAllWorkouts start end_ := tick [];
  settle_order w := [Second; Third; Fourth; First]
|}.

(** The example store with the example tokens saved in it. *)
Definition store_with_tokens : Database :=
  match saveTokens (H := toy_crypto) example_env example_iv example_iv example_now
          example_tokens example_store with
  | Ok db => db
  | Throw _ => example_store
  end.

Definition no_arguments : ToolArguments :=
  {| args_days := JUndefined; args_full := JUndefined |}.

Definition world_before : World :=
  {| w_db := store_with_tokens; w_now := example_now; w_client_tokens := None |}.



(** The answer the failed opportunistic sync leaves the trend query with:
    the two stored recoveries, latest first. *)
Example recovery_trends_from_cache :
  fst (callTool (H := toy_crypto) (H0 := failing_gateway) (H1 := utc_host) example_env
         "get_recovery_trends" no_arguments world_before)
  = Ok (text (RecoveryTrends (Fin 14)
          [ {| rt_date := Some "2030-01-01"; rt_recovery_score := Some 71;
               rt_hrv := Some (31813 # 1000); rt_rhr := Some 64 |};
            {| rt_date := Some "2024-01-08"; rt_recovery_score := Some 44;
               rt_hrv := Some (31813 # 1000); rt_rhr := Some 64 |} ])).
Proof. by vm_compute. Qed.

(** C8 at [days = -5]: the recovery trend is asked of the store for 14
    days. *)
Lemma trend_tools_clamp_days_witness :
  let typedArgs := {| args_days := JNumber (Fin (-5)); args_full := JUndefined |} in
  validateDays (args_days typedArgs) = Fin 14
  /\ @dispatch toy_crypto failing_gateway utc_host example_env "get_recovery_trends" typedArgs
       (world_at example_now example_store)
     = (Ok (text (RecoveryTrends (Fin 14)
                    (getRecoveryTrends example_now (Fin 14) example_store))),
        world_at example_now example_store).
Proof.
  intros typedArgs.
  destruct (@trend_tools_clamp_days toy_crypto failing_gateway utc_host example_env typedArgs
              (world_at example_now example_store)) as (_ & Hdays & Hrecovery & _).
  split; [exact Hdays|]. rewrite Hrecovery. by vm_compute.
Defined.

(** * Further properties of the store *)

(** ** Point queries *)

Lemma LIMIT_1_ORDER_BY_DESC {A : Type} (col : A -> string) (l : list A) :
  match LIMIT_1 (ORDER_BY_DESC col l) with
  | Some x => x ∈ l /\ forall y, y ∈ l -> String.le (col y) (col x)
  | None => l = []
  end.
Proof.
  pose proof (ORDER_BY_DESC_descending col l) as Hsorted.
  pose proof (ORDER_BY_DESC_elem col l) as Helem.
  pose proof (ORDER_BY_DESC_length col l) as Hlen.
  unfold LIMIT_1. destruct (ORDER_BY_DESC col l) as [|x rest]; simpl.
  - by destruct l.
  - split; [apply Helem; by left|].
    intros y Hy. apply Helem in Hy. apply StronglySorted_inv in Hsorted as [_ Hall].
    apply elem_of_cons in Hy as [-> | Hy]; [reflexivity|].
    by apply (proj1 (List.Forall_forall _ _) Hall), list_elem_of_In.
Qed.

Lemma rows_nil {K V : Type} `{Countable K} (t : gmap K V) : rows t = [] -> t = ∅.
Proof.
  unfold rows. intros Hnil. apply fmap_nil_inv in Hnil. by apply map_to_list_empty_iff.
Qed.

(** The latest cycle, recovery and main sleep: each point query returns a
    row of its table (for sleep: one that is no nap) whose time text no
    other such row exceeds, and returns nothing only when there is no such
    row. *)
Theorem getLatest_is_latest (db : Database) :
  match getLatestCycle db with
  | Some c => (exists k, cycles db !! k = Some c)
              /\ forall k c', cycles db !! k = Some c' ->
                              String.le (dc_start_time c') (dc_start_time c)
  | None => cycles db = ∅
  end
  /\ match getLatestRecovery db with
     | Some r => (exists k, recovery db !! k = Some r)
                 /\ forall k r', recovery db !! k = Some r' ->
                                 String.le (dr_created_at r') (dr_created_at r)
     | None => recovery db = ∅
     end
  /\ match getLatestSleep db with
     | Some s => (exists k, sleep db !! k = Some s) /\ ds_is_nap s = 0
                 /\ forall k s', sleep db !! k = Some s' -> ds_is_nap s' = 0 ->
                                 String.le (ds_start_time s') (ds_start_time s)
     | None => forall k s', sleep db !! k = Some s' -> ds_is_nap s' <> 0
     end.
Proof.
  split; [|split].
  - unfold getLatestCycle.
    pose proof (LIMIT_1_ORDER_BY_DESC dc_start_time (rows (cycles db))) as Hl.
    destruct (LIMIT_1 _) as [c|]; [|by apply rows_nil].
    destruct Hl as [Hin Hmax]. split; [by apply rows_elem|].
    intros k c' Hc'. apply Hmax, rows_elem. eauto.
  - unfold getLatestRecovery.
    pose proof (LIMIT_1_ORDER_BY_DESC dr_created_at (rows (recovery db))) as Hl.
    destruct (LIMIT_1 _) as [r|]; [|by apply rows_nil].
    destruct Hl as [Hin Hmax]. split; [by apply rows_elem|].
    intros k r' Hr'. apply Hmax, rows_elem. eauto.
  - unfold getLatestSleep.
    pose proof (LIMIT_1_ORDER_BY_DESC ds_start_time
                  (List.filter (fun r => ds_is_nap r =? 0) (rows (sleep db)))) as Hl.
    destruct (LIMIT_1 _) as [s|].
    + destruct Hl as [Hin Hmax]. apply WHERE_elem in Hin as [Hin Hnap].
      split; [by apply rows_elem|]. split; [by apply Z.eqb_eq|].
      intros k s' Hs' Hnap'. apply Hmax, WHERE_elem. split.
      * apply rows_elem. eauto.
      * by apply Z.eqb_eq.
    + intros k s' Hs' Hnap'.
      assert (Hin : s' ∈ List.filter (fun r => ds_is_nap r =? 0) (rows (sleep db))).
      { apply WHERE_elem. split; [apply rows_elem; eauto | by apply Z.eqb_eq]. }
      rewrite Hl in Hin. by apply not_elem_of_nil in Hin.
Qed.

(** ** Range queries *)

Lemma between_spec (startDate endDate col : string) :
  between startDate endDate col = true <->
  String.le startDate col /\ String.le col endDate.
Proof.
  unfold between, LE, GE, holds, String.le.
  destruct (String.leb startDate col), (String.leb col endDate); simpl; split;
    try done; intros [? ?]; done.
Qed.

(** Each range query returns exactly the rows of its table whose time text
    lies between the two bounds, ends included (for sleep without
    [includeNaps]: that are no naps), latest first. *)
Theorem range_queries_select (startDate endDate : string) (db : Database) :
  (descending dc_start_time (getCyclesByDateRange startDate endDate db)
   /\ forall r, r ∈ getCyclesByDateRange startDate endDate db <->
        (exists k, cycles db !! k = Some r)
        /\ String.le startDate (dc_start_time r) /\ String.le (dc_start_time r) endDate)
  /\ (descending dr_created_at (getRecoveriesByDateRange startDate endDate db)
      /\ forall r, r ∈ getRecoveriesByDateRange startDate endDate db <->
           (exists k, recovery db !! k = Some r)
           /\ String.le startDate (dr_created_at r) /\ String.le (dr_created_at r) endDate)
  /\ (forall includeNaps,
        descending ds_start_time (getSleepsByDateRange startDate endDate includeNaps db)
        /\ forall r, r ∈ getSleepsByDateRange startDate endDate includeNaps db <->
             (exists k, sleep db !! k = Some r)
             /\ String.le startDate (ds_start_time r) /\ String.le (ds_start_time r) endDate
             /\ (includeNaps = true \/ ds_is_nap r = 0))
  /\ (descending dw_start_time (getWorkoutsByDateRange startDate endDate db)
      /\ forall r, r ∈ getWorkoutsByDateRange startDate endDate db <->
           (exists k, workouts db !! k = Some r)
           /\ String.le startDate (dw_start_time r) /\ String.le (dw_start_time r) endDate).
Proof.
  split; [|split; [|split]].
  - split; [apply ORDER_BY_DESC_descending|]. intros r.
    unfold getCyclesByDateRange.
    rewrite ORDER_BY_DESC_elem, WHERE_elem, rows_elem, between_spec. tauto.
  - split; [apply ORDER_BY_DESC_descending|]. intros r.
    unfold getRecoveriesByDateRange.
    rewrite ORDER_BY_DESC_elem, WHERE_elem, rows_elem, between_spec. tauto.
  - intros includeNaps. split; [apply ORDER_BY_DESC_descending|]. intros r.
    unfold getSleepsByDateRange.
    rewrite ORDER_BY_DESC_elem, WHERE_elem, rows_elem, andb_true_iff, orb_true_iff,
      between_spec, Z.eqb_eq. tauto.
  - split; [apply ORDER_BY_DESC_descending|]. intros r.
    unfold getWorkoutsByDateRange.
    rewrite ORDER_BY_DESC_elem, WHERE_elem, rows_elem, between_spec. tauto.
Qed.

(** ** Encryption without a secret, and malformed values *)

Section CryptoEdges.
Context `{NodeCrypto}.

(** Neither variable holds a non-empty secret. *)
Definition no_secret (env : Env) : Prop :=
  truthy_opt (ENCRYPTION_SECRET env) = false
  /\ truthy_opt (WHOOP_CLIENT_SECRET env) = false.

Lemma getEncryptionKey_no_secret (env : Env) :
  no_secret env -> getEncryptionKey env = Throw (JsError "No encryption secret available").
Proof.
  intros [He Hc]. unfold getEncryptionKey, or_else. rewrite He.
  destruct (WHOOP_CLIENT_SECRET env) as [s|]; [|done].
  simpl in Hc. by rewrite Hc.
Qed.

(** Without a secret nothing is encrypted, decrypted or saved: [encrypt],
    [decrypt] and [saveTokens] throw the configuration error (so no token row
    is written).  [getTokens] answers nothing for a store without tokens,
    throws that error exactly when one of the two stored values looks
    encrypted, and returns the row as it is when neither does. *)
Theorem no_secret_no_tokens (env : Env) :
  no_secret env ->
  (forall iv text, encrypt env iv text = Throw (JsError "No encryption secret available"))
  /\ (forall data, decrypt env data = Throw (JsError "No encryption secret available"))
  /\ (forall iv1 iv2 now t db,
        saveTokens env iv1 iv2 now t db = Throw (JsError "No encryption secret available"))
  /\ (forall db,
        getTokens env db =
        match tokens db with
        | None => Ok None
        | Some row =>
            if isEncrypted (tr_access_token row) || isEncrypted (tr_refresh_token row)
            then Throw (JsError "No encryption secret available")
            else Ok (Some {| access_token := tr_access_token row;
                             refresh_token := tr_refresh_token row;
                             expires_at := tr_expires_at row |})
        end).
Proof.
  intros Hno. pose proof (getEncryptionKey_no_secret env Hno) as Hkey.
  assert (Henc : forall iv text,
             encrypt env iv text = Throw (JsError "No encryption secret available")).
  { intros iv text. unfold encrypt. by rewrite Hkey. }
  assert (Hdec : forall data,
             decrypt env data = Throw (JsError "No encryption secret available")).
  { intros data. unfold decrypt. by rewrite Hkey. }
  split; [exact Henc|]. split; [exact Hdec|]. split.
  - intros iv1 iv2 now t db. unfold saveTokens. by rewrite Henc.
  - intros db. unfold getTokens. destruct (tokens db) as [row|]; [|done].
    destruct (isEncrypted (tr_access_token row)); [by rewrite Hdec|].
    destruct (isEncrypted (tr_refresh_token row)); [by rewrite Hdec|done].
Qed.

(** [ENCRYPTION_SECRET], when set and not empty, is the secret the key is
    derived from, whatever [WHOOP_CLIENT_SECRET] holds; the client secret is
    the fallback. *)
Theorem encryption_secret_precedence (env : Env) (secret : string) :
  ENCRYPTION_SECRET env = Some secret -> truthy secret = true ->
  getEncryptionKey env =
  Ok (scryptSync secret (list_byte_of_string "whoop-mcp-token-encryption") KEY_LENGTH).
Proof.
  intros Hs Ht. unfold getEncryptionKey, or_else, truthy_opt. rewrite Hs, Ht.
  by rewrite Ht.
Qed.

(** A value with fewer than three colon-separated parts is not taken for an
    encrypted one, and [decrypt] refuses it. *)
Theorem decrypt_refuses_short (env : Env) (data : string) :
  has_secret env ->
  (length (split ":" data) < 3)%nat ->
  isEncrypted data = false
  /\ decrypt env data = Throw (JsError "Invalid encrypted data format").
Proof.
  intros [key Hkey]%getEncryptionKey_ok Hlen. split.
  - unfold isEncrypted. destruct (Nat.eqb_spec (length (split ":" data)) 3); [lia | done].
  - unfold decrypt. rewrite Hkey.
    destruct (split ":" data) as [|a [|b [|c rest]]]; simpl in *; try done. lia.
Qed.

End CryptoEdges.

(** With the secret gone: nothing can be saved, the tokens saved while it
    was there cannot be read, and a row written before encryption was
    introduced still can. *)
Lemma no_secret_no_tokens_witness :
  let env := {| ENCRYPTION_SECRET := Some ""; WHOOP_CLIENT_SECRET := None |} in
  let legacy := {| tr_access_token := "plain-access"; tr_refresh_token := "plain-refresh";
                   tr_expires_at := example_now; tr_updated_at := "2024-01-15 12:10:45" |} in
  saveTokens (H := toy_crypto) env example_iv example_iv example_now example_tokens initSchema
  = Throw (JsError "No encryption secret available")
  /\ getTokens (H := toy_crypto) env store_with_tokens
     = Throw (JsError "No encryption secret available")
  /\ getTokens (H := toy_crypto) env (set_tokens (Some legacy) initSchema)
     = Ok (Some {| access_token := "plain-access"; refresh_token := "plain-refresh";
                   expires_at := example_now |}).
Proof.
  intros env legacy.
  destruct (no_secret_no_tokens (H := toy_crypto) env) as (_ & _ & Hsave & Hget); [by split|].
  split; [apply Hsave|]. split; by rewrite Hget.
Defined.

Lemma encryption_secret_precedence_witness :
  getEncryptionKey (H := toy_crypto)
    {| ENCRYPTION_SECRET := Some "operator-secret";
       WHOOP_CLIENT_SECRET := Some "whoop-client-secret" |}
  = Ok (scryptSync (NodeCrypto := toy_crypto) "operator-secret"
          (list_byte_of_string "whoop-mcp-token-encryption") KEY_LENGTH).
Proof.
  apply (encryption_secret_precedence (H := toy_crypto)); reflexivity.
Defined.

Lemma decrypt_refuses_short_witness :
  isEncrypted "eyJhbGciOi.legacy:token" = false
  /\ decrypt (H := toy_crypto) example_env "eyJhbGciOi.legacy:token"
     = Throw (JsError "Invalid encrypted data format").
Proof.
  apply (decrypt_refuses_short (H := toy_crypto) example_env).
  - exact example_env_has_secret.
  - vm_compute. lia.
Defined.

(** * Further properties of the sync engine and the handler *)

Section EngineEdges.
Context `{Gateway} `{Host}.

(** A window whose start is no valid [Date]: [syncDays] throws the
    [RangeError] of [toISOString] before any fetch; the world is as it
    was. *)
Theorem syncDays_invalid_window (days : Z) (w : World) :
  valid_time (w_now w) = true ->
  valid_time (UTC (LocalTime (w_now w) - days * msPerDay)) = false ->
  syncDays days w = (Throw (JsError "Invalid time value"), w).
Proof.
  intros Hend Hstart.
  assert (He : TimeClip (w_now w) = Some (w_now w))
    by (unfold TimeClip; by rewrite Hend).
  assert (Hs : setDate_back (TimeClip (w_now w)) days = None)
    by (rewrite He, setDate_back_shift; unfold TimeClip; by rewrite Hstart).
  unfold syncDays, bind at 1, get. cbv zeta. by rewrite !Hs.
Qed.

Lemma smartSync_after_sync (w : World) (s : string) :
  last_sync_at (sync_state (w_db w)) = Some s ->
  s <> "" ->
  smartSync w =
  if num_lt (hoursSince (w_now w) s) (Fin 1)
  then (Ok {| type := skip; stats := None |}, w)
  else tagged quick (syncDays 7 w).
Proof.
  intros Hs Hne. unfold smartSync, bind at 1, get. unfold getSyncState; cbn [lastSyncAt].
  rewrite Hs. cbn [truthy_opt]. unfold truthy.
  apply String.eqb_neq in Hne. rewrite Hne. cbn [negb].
  change (default "" (Some s)) with s.
  destruct (num_lt (hoursSince (w_now w) s) (Fin 1)); [done|]. apply tagged_bind.
Qed.

(** Once a sync is recorded, [smartSync] never runs the 90-day sync again:
    its result is [skip] or [quick], or it throws; this holds also when
    [needsFullSync] answers true (more than 24 hours since the last
    sync). *)
Theorem smartSync_full_only_once (w : World) (s : string) :
  last_sync_at (sync_state (w_db w)) = Some s ->
  s <> "" ->
  (smartSync w = (Ok {| type := skip; stats := None |}, w)
   \/ smartSync w = tagged quick (syncDays 7 w))
  /\ forall r, fst (smartSync w) = Ok r -> type r <> full.
Proof.
  intros Hs Hne. rewrite (smartSync_after_sync w s Hs Hne).
  destruct (num_lt (hoursSince (w_now w) s) (Fin 1)).
  - split; [by left|]. intros r [= <-]. done.
  - split; [by right|]. intros r Hr. unfold tagged in Hr. simpl in Hr.
    destruct (fst (syncDays 7 w)); [|done]. injection Hr as <-. done.
Qed.

End EngineEdges.

Lemma syncDays_invalid_window_witness :
  @syncDays example_gateway utc_host (- 100000000) (world_at maxTime initSchema)
  = (Throw (JsError "Invalid time value"), world_at maxTime initSchema).
Proof. by apply (@syncDays_invalid_window example_gateway utc_host). Defined.

(** Three days after the last sync [needsFullSync] answers true and
    [smartSync] does a quick sync. *)
Lemma smartSync_full_only_once_witness :
  let synced := updateSyncState example_now "2024-01-08" "2024-01-15" initSchema in
  let w := world_at (example_now + 3 * msPerDay) synced in
  fst (@needsFullSync utc_host w) = Ok true
  /\ forall r, fst (@smartSync example_gateway utc_host w) = Ok r -> type r <> full.
Proof.
  split; [by vm_compute|].
  apply (@smartSync_full_only_once example_gateway utc_host
           (world_at (example_now + 3 * msPerDay)
              (updateSyncState example_now "2024-01-08" "2024-01-15" initSchema))
           "2024-01-15 12:10:45"); [reflexivity | done].
Defined.

(** ** Trend queries without a bound *)

(** With a [days] that gives no lower bound (NaN, an infinity, or a negative
    number, as the inline clamp of the earlier handlers lets through), the
    comparison with NULL selects nothing: every trend query returns the empty
    list. *)
Theorem trends_empty_without_bound (now : Z) (days : Num) (db : Database) :
  (days = NaN \/ days = PosInf \/ days = NegInf \/ exists q, days = Fin q /\ (q < 0)%Q) ->
  DATE_now_minus now days = None
  /\ getRecoveryTrends now days db = []
  /\ getSleepTrends now days db = []
  /\ getStrainTrends now days db = [].
Proof.
  intros Hdays.
  assert (Hnone : DATE_now_minus now days = None).
  { destruct Hdays as [-> | [-> | [-> | (q & -> & Hq)]]]; try done.
    unfold DATE_now_minus.
    destruct (Qle_bool 0 q) eqn:Hle; [|done].
    apply Qle_bool_iff in Hle. exfalso. by apply (Qlt_not_le q 0). }
  assert (Hfilter : forall {A} (f : A -> bool) (l : list A),
             (forall a, f a = false) -> List.filter f l = []).
  { intros A f l Hf. induction l as [|a l IH]; [done|]. simpl. by rewrite Hf. }
  split; [done|]. split; [|split].
  - unfold getRecoveryTrends, recovery_trend_rows.
    rewrite Hfilter; [done|]. intros a. unfold recovery_trend_where.
    rewrite Hnone. simpl. apply andb_false_r.
  - unfold getSleepTrends, sleep_trend_rows.
    rewrite Hfilter; [done|]. intros a. unfold sleep_trend_where.
    rewrite Hnone. simpl. apply andb_false_r.
  - unfold getStrainTrends, strain_trend_rows.
    rewrite Hfilter; [done|]. intros a. unfold strain_trend_where.
    rewrite Hnone. simpl. apply andb_false_r.
Qed.

Lemma trends_empty_without_bound_witness :
  getRecoveryTrends example_now (legacy_days (Some (Fin (-5)))) example_store = [].
Proof.
  apply (trends_empty_without_bound example_now (Fin (-5)) example_store).
  right; right; right. exists (-5)%Q. by split.
Defined.

(** ** The handler never throws *)

Section HandlerEdges.
Context `{NodeCrypto} `{Gateway} `{Host}.
Variable env : Env.

Definition known_tools : list string :=
  ["get_today"; "get_recovery_trends"; "get_sleep_analysis"; "get_strain_history";
   "sync_data"; "get_auth_url"].

(** Whatever the tool name, the arguments and the world, and whatever the
    store, the gateway or the cipher throw on the way, the handler returns a
    response; a name that is none of the six tools gives an error response
    and leaves the world as it was. *)
Theorem callTool_always_answers (name : string) (typedArgs : ToolArguments) (w : World) :
  (exists resp w', callTool env name typedArgs w = (Ok resp, w'))
  /\ (includes known_tools name = false ->
      exists message,
        callTool env name typedArgs w =
        (Ok {| content := ErrorText message; isError := true |}, w)).
Proof.
  split.
  - unfold callTool, try_catch.
    match goal with |- context [match ?c w with _ => _ end] => destruct (c w) as [[r|e] w'] end;
      unfold ret; eauto.
  - unfold includes, known_tools. cbn [existsb]. rewrite !orb_false_iff.
    intros (E1 & E2 & E3 & E4 & E5 & E6 & _).
    unfold callTool, includes, dataTools. cbn [existsb].
    rewrite E1, E2, E3, E4. cbn [orb]. unfold try_catch, dispatch.
    rewrite E1, E2, E3, E4, E5, E6. unfold throw, ret. eauto.
Qed.

(** Without stored tokens the four data tools and [sync_data] answer that
    the server is not authenticated, and nothing else happens: no sync is
    run and the world is as it was. *)
Theorem callTool_not_authenticated (name : string) (typedArgs : ToolArguments) (w : World) :
  tokens (w_db w) = None ->
  includes dataTools name = true \/ name = "sync_data" ->
  callTool env name typedArgs w = (Ok (text NotAuthenticated), w).
Proof.
  intros Hnone Hname.
  assert (Htok : db_getTokens env w = (Ok None, w)).
  { unfold db_getTokens, bind, get, lift, getTokens. by rewrite Hnone. }
  destruct Hname as [Hdata | ->].
  - unfold callTool. rewrite Hdata. unfold try_catch, bind at 1. by rewrite Htok.
  - unfold callTool. cbn [includes dataTools existsb String.eqb Ascii.eqb Bool.eqb orb].
    unfold try_catch, dispatch. cbn [String.eqb Ascii.eqb Bool.eqb andb].
    unfold bind at 1. by rewrite Htok.
Qed.

End HandlerEdges.

Lemma callTool_not_authenticated_witness :
  @callTool toy_crypto failing_gateway utc_host example_env "get_today" no_arguments
    (world_at example_now example_store)
  = (Ok (text NotAuthenticated), world_at example_now example_store).
Proof.
  apply (@callTool_not_authenticated toy_crypto failing_gateway utc_host);
    [reflexivity | by left].
Defined.

(** * whoop-client.ts: pages, code exchange, refresh *)

Module Paging.

Local Open Scope m_scope.

Record PaginationParams : Type := {
  p_start : option string;
  p_end : option string;
  p_limit : option Z;
  p_nextToken : option string
}.

(** A paginated response, as the loop reads it. *)
Record Page (A : Type) : Type := {
  records : list A;
  next_token : option string
}.
Arguments records {A} _.
Arguments next_token {A} _.

Definition text_param (key : string) (value : option string) : list (string * string) :=
  match value with
  | Some v => if truthy v then [(key, v)] else []
  | None => []
  end.

(** The [queryParams] object [getCycles] and its three siblings build: a
    key for every parameter that is truthy, in the order of the
    assignments. *)
Definition queryParams (params : PaginationParams) : list (string * string) :=
  text_param "start" (p_start params)
  ++ text_param "end" (p_end params)
  ++ match p_limit params with
     | Some n => if n =? 0 then [] else [("limit", pretty n)]
     | None => []
     end
  ++ text_param "nextToken" (p_nextToken params).

Section WithUpstream.
Context `{Client.Upstream} {A : Type}.

(** What [response.json()] and the reading of [records] and [next_token]
    make of a body; a body that is no such object makes them throw. *)
Variable read_page : string -> Result (Page A).

(** [getCycles(params)], for the collection at [path]. *)
Definition getPage (path : string) (params : PaginationParams) : M Client.ClientState (Page A) :=
  body <- Client.request path (queryParams params) ;;
  lift (read_page body).

(** The [do ... while (nextToken)] loop of [getAllCycles], with the pages it
    may still fetch counted down by [fuel]; [None] when the count runs out
    with a token still in hand. *)
Fixpoint getAll_from (fuel : nat) (path : string) (start end_ nextToken : option string)
    (results : list A) : M Client.ClientState (option (list A)) :=
  match fuel with
  | O => ret None
  | S fuel' =>
      response <- getPage path {| p_start := start; p_end := end_;
                                  p_limit := Some 25; p_nextToken := nextToken |} ;;
      let results := results ++ records response in
      if truthy_opt (next_token response)
      then getAll_from fuel' path start end_ (next_token response) results
      else ret (Some results)
  end.

Definition getAll (fuel : nat) (path : string) (start end_ : option string)
    : M Client.ClientState (option (list A)) :=
  getAll_from fuel path start end_ None [].

End WithUpstream.

Definition cycles_path : string := "/v2/cycle".
Definition recoveries_path : string := "/v2/recovery".
Definition sleeps_path : string := "/v2/activity/sleep".
Definition workouts_path : string := "/v2/activity/workout".

End Paging.

Section PagingProperties.
Context `{Client.Upstream} {A : Type}.
Variable read_page : string -> Result (Paging.Page A).
Variables (path : string) (start end_ : option string).

Definition page_request (nextToken : option string) : Paging.PaginationParams :=
  {| Paging.p_start := start; Paging.p_end := end_;
     Paging.p_limit := Some 25; Paging.p_nextToken := nextToken |}.

(** The exchange with upstream from a state and a token on: the pages that
    came back, in order, each but the last carrying the token of the next;
    and how it ended, with a page without a token or with a request that
    threw. *)
Inductive Fetched : ClientState -> option string -> list (Paging.Page A)
                    -> option Thrown -> ClientState -> Prop :=
| Fetched_last s tok page s' :
    Paging.getPage read_page path (page_request tok) s = (Ok page, s') ->
    truthy_opt (Paging.next_token page) = false ->
    Fetched s tok [page] None s'
| Fetched_more s tok page s1 pages err s' :
    Paging.getPage read_page path (page_request tok) s = (Ok page, s1) ->
    truthy_opt (Paging.next_token page) = true ->
    Fetched s1 (Paging.next_token page) pages err s' ->
    Fetched s tok (page :: pages) err s'
| Fetched_error s tok e s' :
    Paging.getPage read_page path (page_request tok) s = (Throw e, s') ->
    Fetched s tok [] (Some e) s'.

(** [getAll...] follows the tokens to the page that has none (an empty
    token counts as none) and returns the records of all pages in the order
    upstream gave them; when a request throws, the call throws that error
    and returns none of the records fetched before.  The count of requests
    it takes is known, and any larger [fuel] gives the same result. *)
Theorem getAll_collects (s s' : ClientState) (tok : option string)
    (pages : list (Paging.Page A)) (err : option Thrown) :
  Fetched s tok pages err s' ->
  forall (fuel : nat) (results : list A),
    (length pages + match err with Some _ => 1 | None => 0 end <= fuel)%nat ->
    Paging.getAll_from read_page fuel path start end_ tok results s =
    (match err with
     | None => Ok (Some (results ++ concat (map Paging.records pages)))
     | Some e => Throw e
     end, s').
Proof.
  induction 1 as [s tok page s' Hpage Hlast
                 | s tok page s1 pages err s' Hpage Hnext Hrest IH
                 | s tok e s' Hpage]; intros fuel results Hfuel.
  - destruct fuel as [|fuel]; [simpl in Hfuel; lia|].
    cbn [Paging.getAll_from]. fold (page_request tok). unfold bind at 1.
    rewrite Hpage, Hlast. simpl. by rewrite app_nil_r.
  - destruct fuel as [|fuel]; [simpl in Hfuel; lia|].
    cbn [Paging.getAll_from]. fold (page_request tok). unfold bind at 1.
    rewrite Hpage, Hnext. rewrite IH by (simpl in Hfuel; lia).
    destruct err; [done|]. simpl. by rewrite app_assoc.
  - destruct fuel as [|fuel]; [simpl in Hfuel; lia|].
    cbn [Paging.getAll_from]. fold (page_request tok). unfold bind at 1.
    by rewrite Hpage.
Qed.

End PagingProperties.

(** An upstream with two pages of cycle ids: the second is asked for with
    the token of the first. *)
#[local] Instance paged_upstream : Upstream := {|
  token_endpoint refresh now := (TokenRejected "invalid_grant", 90);
  api_endpoint path params bearer now :=
    if existsb (fun kv => String.eqb (fst kv) "nextToken" && String.eqb (snd kv) "MTIzOjEyMw")
         params
    then (ApiJson "page-2", 70)
    else (ApiJson "page-1", 80);
  onTokenRefresh := None
|}.

Definition read_ids (body : string) : Result (Paging.Page Z) :=
  if String.eqb body "page-1"
  then Ok {| Paging.records := [93845; 93846]; Paging.next_token := Some "MTIzOjEyMw" |}
  else if String.eqb body "page-2"
  then Ok {| Paging.records := [93847]; Paging.next_token := None |}
  else Throw (JsError "Unexpected token").

Definition fresh_client : ClientState :=
  {| held := Some {| access_token := "access"; refresh_token := "refresh";
                     expires_at := example_now + 3600000 |};
     clock := example_now;
     trace := [] |}.

Lemma getAll_collects_witness :
  fst (Paging.getAll read_ids 5 Paging.cycles_path
         (Some "2024-01-08T12:10:45.123Z") (Some "2024-01-15T12:10:45.123Z") fresh_client)
  = Ok (Some [93845; 93846; 93847]).
Proof.
  unfold Paging.getAll.
  erewrite (getAll_collects read_ids Paging.cycles_path
              (Some "2024-01-08T12:10:45.123Z") (Some "2024-01-15T12:10:45.123Z")
              fresh_client _ None
              [ {| Paging.records := [93845; 93846]; Paging.next_token := Some "MTIzOjEyMw" |};
                {| Paging.records := [93847]; Paging.next_token := None |} ] None).
  - reflexivity.
  - eapply Fetched_more; [by vm_compute | reflexivity|].
    eapply Fetched_last; [by vm_compute | reflexivity].
  - simpl. lia.
Defined.

(** The requests of that run: both carry the window and [limit=25], the
    second the token as well. *)
Example getAll_requests :
  trace (snd (Paging.getAll read_ids 5 Paging.cycles_path
                (Some "2024-01-08T12:10:45.123Z") (Some "2024-01-15T12:10:45.123Z")
                fresh_client))
  = [ ApiGet "/v2/cycle"
        [("start", "2024-01-08T12:10:45.123Z"); ("end", "2024-01-15T12:10:45.123Z");
         ("limit", "25")] "access";
      ApiGet "/v2/cycle"
        [("start", "2024-01-08T12:10:45.123Z"); ("end", "2024-01-15T12:10:45.123Z");
         ("limit", "25"); ("nextToken", "MTIzOjEyMw")] "access" ].
Proof. by vm_compute. Qed.

(** * After a sync, the latest recovery is the newest fetched *)

Lemma last_with_elem {K R : Type} `{EqDecision K} (key : R -> K) (k : K)
    (items : list R) (r : R) :
  last_with key k items = Some r -> r ∈ items /\ key r = k.
Proof.
  unfold last_with. intros Hlast.
  assert (Hin : r ∈ filter (fun r => key r = k) items).
  { apply last_Some in Hlast as [l' ->]. set_solver. }
  by apply list_elem_of_filter in Hin as [? ?].
Qed.

Lemma last_with_is_Some {K R : Type} `{EqDecision K} (key : R -> K)
    (items : list R) (r : R) :
  r ∈ items -> is_Some (last_with key (key r) items).
Proof.
  intros Hin. unfold last_with.
  assert (Hf : r ∈ filter (fun r' => key r' = key r) items)
    by (by apply list_elem_of_filter).
  destruct (filter (fun r' => key r' = key r) items) as [|x l] eqn:Hl.
  - by apply not_elem_of_nil in Hf.
  - destruct (last (x :: l)) eqn:Hlast; [done|].
    by apply last_None in Hlast.
Qed.

(** The store after the writes of one [syncDays] into a store without
    recoveries: [getLatestRecovery] returns the row of a fetched recovery,
    and no fetched recovery that is stored (the last of the batch with its
    cycle id) was created later. *)
Theorem latest_recovery_after_sync (now : Z) (oldest newest : string)
    (cs : list WhoopCycle) (rs : list WhoopRecovery) (ss : list WhoopSleep)
    (ws : list WhoopWorkout) (db : Database) :
  recovery db = ∅ ->
  rs <> [] ->
  let db' :=
    updateSyncState now oldest newest
      (upsertWorkouts now ws (upsertSleeps now ss
         (upsertRecoveries now rs (upsertCycles now cs db)))) in
  exists r, r ∈ rs
            /\ getLatestRecovery db' = Some (recovery_row now r)
            /\ forall r', r' ∈ rs ->
                 last_with r_cycle_id (r_cycle_id r') rs = Some r' ->
                 String.le (r_created_at r') (r_created_at r).
Proof.
  intros Hempty Hrs db'.
  assert (Htable : recovery db' = INSERT_OR_REPLACE r_cycle_id (recovery_row now) rs ∅).
  { subst db'. simpl. by rewrite Hempty. }
  assert (Hlookup : forall k, recovery db' !! k =
                              recovery_row now <$> last_with r_cycle_id k rs).
  { intros k. rewrite Htable, INSERT_OR_REPLACE_lookup.
    by destruct (last_with r_cycle_id k rs). }
  unfold getLatestRecovery.
  pose proof (LIMIT_1_ORDER_BY_DESC dr_created_at (rows (recovery db'))) as Hl.
  destruct (LIMIT_1 _) as [x|].
  - destruct Hl as [Hin Hmax]. apply rows_elem in Hin as [k Hk].
    rewrite Hlookup in Hk. destruct (last_with r_cycle_id k rs) as [r|] eqn:Hr; [|done].
    injection Hk as <-. apply last_with_elem in Hr as [Hr _].
    exists r. split; [done|]. split; [done|].
    intros r' Hr' Hlast'. apply (Hmax (recovery_row now r')).
    apply rows_elem. exists (r_cycle_id r'). by rewrite Hlookup, Hlast'.
  - exfalso. destruct rs as [|r0 rs']; [done|].
    destruct (last_with_is_Some r_cycle_id (r0 :: rs') r0) as [r1 Hr1]; [by left|].
    assert (Hin : recovery_row now r1 ∈ rows (recovery db')).
    { apply rows_elem. exists (r_cycle_id r0). by rewrite Hlookup, Hr1. }
    rewrite Hl in Hin. by apply not_elem_of_nil in Hin.
Qed.

Lemma latest_recovery_after_sync_witness :
  exists r, r ∈ [scored_recovery 93845 "2024-01-08T06:00:00.000Z" 44;
                 scored_recovery 93999 "2024-01-14T07:30:00.000Z" 71]
            /\ getLatestRecovery
                 (updateSyncState example_now "2023-10-17" "2024-01-15"
                    (upsertWorkouts example_now [] (upsertSleeps example_now []
                       (upsertRecoveries example_now
                          [scored_recovery 93845 "2024-01-08T06:00:00.000Z" 44;
                           scored_recovery 93999 "2024-01-14T07:30:00.000Z" 71]
                          (upsertCycles example_now [example_cycle] initSchema)))))
               = Some (recovery_row example_now r)
            /\ forall r', r' ∈ [scored_recovery 93845 "2024-01-08T06:00:00.000Z" 44;
                                scored_recovery 93999 "2024-01-14T07:30:00.000Z" 71] ->
                 last_with r_cycle_id (r_cycle_id r')
                   [scored_recovery 93845 "2024-01-08T06:00:00.000Z" 44;
                    scored_recovery 93999 "2024-01-14T07:30:00.000Z" 71] = Some r' ->
                 String.le (r_created_at r') (r_created_at r).
Proof.
  apply (latest_recovery_after_sync example_now "2023-10-17" "2024-01-15"
           [example_cycle] _ [] [] initSchema); done.
Defined.

(** * Token refresh and code exchange *)

Section RefreshOutcomes.
Context `{Upstream}.

(** How a call of [refreshTokens] ends.  Without a refresh token to send it
    throws and nothing happens.  Otherwise one POST is sent.  When no tokens
    are granted (the fetch fails, or the endpoint rejects), the call throws
    and the client holds what it held; the callback is not invoked.  When
    tokens are granted, the client holds the new pair, with the expiry
    counted from the clock at the response; the callback, when there is one,
    is invoked once, with that pair, after it is held, and the call ends as
    the callback ends: when the callback throws (the store could not save),
    the new pair is held all the same. *)
Theorem refreshTokens_outcomes (s : ClientState) :
  refreshTokens s =
  match held s with
  | None => (Throw (JsError "No refresh token available"), s)
  | Some tk =>
      if truthy (refresh_token tk) then
        let posted := trace s ++ [TokenPost (refresh_token tk)] in
        match token_endpoint (refresh_token tk) (clock s) with
        | (TokenFetchFailed e, dt) =>
            (Throw e, {| held := Some tk; clock := clock s + dt; trace := posted |})
        | (TokenRejected text, dt) =>
            (Throw (JsError ("Token refresh failed: " +:+ text)),
             {| held := Some tk; clock := clock s + dt; trace := posted |})
        | (TokenGranted a r expires_in, dt) =>
            let fresh := {| access_token := a; refresh_token := r;
                            expires_at := clock s + dt + expires_in * 1000 |} in
            match onTokenRefresh with
            | Some callback =>
                (callback fresh,
                 {| held := Some fresh; clock := clock s + dt;
                    trace := posted ++ [RefreshNotified fresh] |})
            | None =>
                (Ok tt, {| held := Some fresh; clock := clock s + dt; trace := posted |})
            end
        end
      else (Throw (JsError "No refresh token available"), s)
  end.
Proof.
  unfold refreshTokens, bind, get, emit, elapse, setTokens, modify, throw, ret, lift.
  cbn beta. destruct (held s) as [tk|] eqn:Hheld; [|done].
  destruct (truthy (refresh_token tk)); cbn [negb]; [|done].
  destruct (token_endpoint (refresh_token tk) (clock s)) as [[e|text|a r expires_in] dt];
    cbn [held clock trace]; rewrite ?Hheld; try done.
  destruct onTokenRefresh as [callback|]; cbn [held clock trace]; [|done].
  by destruct (callback _).
Qed.

End RefreshOutcomes.

(** An upstream that grants the refresh, with a store that cannot save. *)
Definition unsaved_upstream : Upstream := {|
  token_endpoint refresh now := (TokenGranted "fresh-access" "fresh-refresh" 3600, 120);
  api_endpoint path params bearer now := (ApiJson "{}", 80);
  onTokenRefresh := Some (fun _ => Throw (JsError "No encryption secret available"))
|}.

Lemma refreshTokens_outcomes_witness :
  @refreshTokens unsaved_upstream expiring_client
  = (Throw (JsError "No encryption secret available"),
     {| held := Some {| access_token := "fresh-access"; refresh_token := "fresh-refresh";
                        expires_at := example_now + 120 + 3600 * 1000 |};
        clock := example_now + 120;
        trace := [TokenPost "old-refresh";
                  RefreshNotified {| access_token := "fresh-access";
                                     refresh_token := "fresh-refresh";
                                     expires_at := example_now + 120 + 3600 * 1000 |}] |}).
Proof. by rewrite (@refreshTokens_outcomes unsaved_upstream expiring_client). Defined.

Module CodeExchange.

Local Open Scope m_scope.

(** What the token endpoint answers to an authorization code. *)
Class CodeGrant : Type := {
  code_endpoint : string -> Z -> TokenReply * Z
}.

Section WithCodeGrant.
Context `{CodeGrant}.

(** [exchangeCodeForTokens(code)]: the client holds and returns the granted
    pair; the callback of the configuration is not involved. *)
Definition exchangeCodeForTokens (code : string) : M ClientState WhoopTokens :=
  s <- get ;;
  let '(reply, dt) := code_endpoint code (clock s) in
  elapse dt ;;;
  match reply with
  | TokenFetchFailed e => throw e
  | TokenRejected text => throw (JsError ("Token exchange failed: " +:+ text))
  | TokenGranted a r expires_in =>
      s' <- get ;;
      let granted := {| access_token := a; refresh_token := r;
                        expires_at := clock s' + expires_in * 1000 |} in
      setTokens granted ;;;
      ret granted
  end.

End WithCodeGrant.

End CodeExchange.

Section ExchangeProperties.
Context `{Upstream} `{CodeExchange.CodeGrant}.

(** A rejected code, or a failed fetch, throws and leaves the client as it
    was but for the time that passed.  A granted pair is returned and held
    at once, with the expiry counted from the clock at the response, and
    nothing else happens (the callback of the configuration is not
    invoked).  When the pair lasts five minutes or more, the request that
    follows is just the GET with the granted access token; when it lasts
    less, the request that follows starts with a refresh. *)
Theorem exchange_then_request (code path : string) (params : list (string * string))
    (s : ClientState) :
  match CodeExchange.code_endpoint code (clock s) with
  | (TokenGranted a r expires_in, dt) =>
      let granted := {| access_token := a; refresh_token := r;
                        expires_at := clock s + dt + expires_in * 1000 |} in
      let s1 := {| held := Some granted; clock := clock s + dt; trace := trace s |} in
      CodeExchange.exchangeCodeForTokens code s = (Ok granted, s1)
      /\ (5 * 60 <= expires_in ->
          exists result s2,
            request path params s1 = (result, s2)
            /\ trace s2 = trace s ++ [ApiGet path params a]
            /\ held s2 = Some granted)
      /\ (expires_in < 5 * 60 -> truthy r = true ->
          exists result s2 rest,
            request path params s1 = (result, s2)
            /\ trace s2 = trace s ++ TokenPost r :: rest)
  | (TokenRejected text, dt) =>
      CodeExchange.exchangeCodeForTokens code s =
      (Throw (JsError ("Token exchange failed: " +:+ text)),
       {| held := held s; clock := clock s + dt; trace := trace s |})
  | (TokenFetchFailed e, dt) =>
      CodeExchange.exchangeCodeForTokens code s =
      (Throw e, {| held := held s; clock := clock s + dt; trace := trace s |})
  end.
Proof.
  unfold CodeExchange.exchangeCodeForTokens, bind, get, elapse, setTokens, modify, throw, ret.
  cbn beta.
  destruct (CodeExchange.code_endpoint code (clock s)) as [[e|text|a r expires_in] dt];
    [reflexivity | reflexivity |].
  cbn [held clock trace].
  set (granted := {| access_token := a; refresh_token := r;
                     expires_at := clock s + dt + expires_in * 1000 |}).
  set (s1 := {| held := Some granted; clock := clock s + dt; trace := trace s |}).
  split; [done|]. split.
  - intros Hlong.
    destruct (send_spec path params s1 granted eq_refl) as (result & s2 & Hsend & Htrace & Hheld).
    exists result, s2. split; [|by split].
    unfold request, bind, get. cbn beta. cbn [held s1 clock granted expires_at].
    assert ((clock s + dt + expires_in * 1000 - (clock s + dt) <? 5 * 60 * 1000) = false) as ->
      by (apply Z.ltb_ge; lia).
    exact Hsend.
  - intros Hshort Hr.
    destruct (refreshTokens_spec s1 granted eq_refl)
      as (r1 & s1' & pre & Hrefresh & Htrace & _ & Hpost & _).
    destruct (Hpost Hr) as [pre' ->].
    unfold request, bind at 1, get. cbn beta. cbn [held s1 clock granted expires_at].
    assert ((clock s + dt + expires_in * 1000 - (clock s + dt) <? 5 * 60 * 1000) = true) as ->
      by (apply Z.ltb_lt; lia).
    unfold bind. fold s1. rewrite Hrefresh. destruct r1 as [[]|e].
    + destruct (held s1') as [tk|] eqn:Hheld.
      * destruct (send_spec path params s1' tk Hheld) as (result & s2 & Hsend & Hs2 & _).
        rewrite Hsend. exists result, s2, (pre' ++ [ApiGet path params (access_token tk)]).
        split; [done|]. rewrite Hs2, Htrace. cbn [trace s1]. by rewrite <- app_assoc.
      * eexists _, _, pre'. split; [unfold send, bind, get; by rewrite Hheld|].
        unfold throw. cbn. exact Htrace.
    + exists (Throw e), s1', pre'. by split.
Qed.

End ExchangeProperties.

#[local] Instance granting_endpoint : CodeExchange.CodeGrant := {|
  CodeExchange.code_endpoint code now := (TokenGranted "first-access" "first-refresh" 3600, 150)
|}.

Lemma exchange_then_request_witness :
  let granted := {| access_token := "first-access"; refresh_token := "first-refresh";
                    expires_at := example_now + 150 + 3600 * 1000 |} in
  let s := {| held := None; clock := example_now; trace := [] |} in
  let s1 := {| held := Some granted; clock := example_now + 150; trace := [] |} in
  @CodeExchange.exchangeCodeForTokens granting_endpoint "auth-code" s = (Ok granted, s1)
  /\ exists result s2,
       @request paged_upstream "/v2/user/profile/basic" [] s1 = (result, s2)
       /\ trace s2 = [] ++ [ApiGet "/v2/user/profile/basic" [] "first-access"]
       /\ held s2 = Some granted.
Proof.
  intros granted s s1.
  destruct (@exchange_then_request paged_upstream granting_endpoint "auth-code"
              "/v2/user/profile/basic" [] s) as (Hexchange & Hlong & _).
  split; [exact Hexchange|]. apply Hlong. lia.
Defined.

(** * A sync, then [smartSync] *)

Section AfterSync.
Context `{Gateway}.

(** A [syncDays] that returns has stamped the store with the clock at its
    end. *)
Lemma syncDays_stamps `{Host} (days : Z) (w w1 : World) (st : SyncStats) :
  syncDays days w = (Ok st, w1) ->
  last_sync_at (sync_state (w_db w1)) = Some (CURRENT_TIMESTAMP (w_now w1)).
Proof.
  intros Hrun.
  destruct (valid_time (w_now w)) eqn:Hend.
  2: { unfold syncDays, bind at 1, get in Hrun. unfold TimeClip in Hrun.
       by rewrite Hend in Hrun. }
  destruct (valid_time (UTC (LocalTime (w_now w) - days * msPerDay))) eqn:Hstart.
  2: { assert (He : TimeClip (w_now w) = Some (w_now w))
         by (unfold TimeClip; by rewrite Hend).
       assert (Hs : setDate_back (TimeClip (w_now w)) days = None)
         by (rewrite He, setDate_back_shift; unfold TimeClip; by rewrite Hstart).
       unfold syncDays, bind at 1, get in Hrun. cbv zeta in Hrun.
       by rewrite !Hs in Hrun. }
  rewrite (syncDays_run days w Hend Hstart) in Hrun. cbv zeta in Hrun.
  destruct (Promise_all4 _ _ _ _ _ w) as [[[[[cs rs] ss] ws]|e] w4]; [|done].
  by injection Hrun as _ <-.
Qed.

(** On a host in UTC: after a [syncDays] that returned at the instant [t]
    (the store keeps [t] to the second), [smartSync] on that store skips
    while the clock is less than one hour past the second of [t], without a
    call of the gateway or a write, and runs the 7-day sync from then on. *)
Theorem smartSync_skips_after_sync (days : Z) (w w1 w2 : World) (st : SyncStats) :
  @syncDays _ utc_host days w = (Ok st, w1) ->
  printable (w_now w1) = true ->
  w_db w2 = w_db w1 ->
  @smartSync _ utc_host w2 =
  if w_now w2 - (w_now w1 - w_now w1 mod msPerSecond) <? 60 * 60 * 1000
  then (Ok {| type := skip; stats := None |}, w2)
  else tagged quick (@syncDays _ utc_host 7 w2).
Proof.
  intros Hsync Hprint Hdb. apply syncDays_stamps in Hsync.
  rewrite (@smartSync_after_sync _ utc_host w2 (CURRENT_TIMESTAMP (w_now w1)))
    by (by rewrite ?Hdb; auto using CURRENT_TIMESTAMP_not_empty).
  unfold hoursSince. cbn [Date_parse utc_host].
  rewrite parse_CURRENT_TIMESTAMP by done. by rewrite hours_lt_one.
Qed.

End AfterSync.

(** Half an hour after the example sync, [smartSync] skips. *)
Lemma smartSync_skips_after_sync_witness :
  let w := world_at example_now initSchema in
  let w1 := snd (@syncDays example_gateway utc_host 7 w) in
  let w2 := world_at (example_now + 30 * msPerMinute) (w_db w1) in
  @smartSync example_gateway utc_host w2 = (Ok {| type := skip; stats := None |}, w2).
Proof.
  intros w w1 w2.
  rewrite (@smartSync_skips_after_sync example_gateway 7 w w1 w2
             {| stats_cycles := 1; stats_recoveries := 0; stats_sleeps := 0;
                stats_workouts := 0 |});
    [reflexivity | by vm_compute | by vm_compute | reflexivity].
Defined.

(** * The trend window, in days *)

Lemma date_le_toISOString (a t : Z) :
  printable a = true -> printable t = true ->
  String.le (date_string a) (toISOString t) <-> a / msPerDay <= t / msPerDay.
Proof.
  intros Ha Ht. unfold String.le, String.leb, toISOString.
  rewrite <- (append_nil_r (date_string a)).
  rewrite (compare_date_string a t _ _ Ha Ht).
  change ("T" +:+ ?x) with (String "T" x). cbn [String.compare].
  destruct (Z.compare_spec (a / msPerDay) (t / msPerDay)); simpl; split; (done || lia).
Qed.

Lemma days_before (now n : Z) : (now - n * msPerDay) / msPerDay = now / msPerDay - n.
Proof.
  replace (now - n * msPerDay) with (now + (- n) * msPerDay) by lia.
  rewrite Z.div_add by done. lia.
Qed.

(** The trend queries, for a whole number of days and records stamped as
    [toISOString] prints instants: a scored record is returned exactly when
    its UTC day is no more than [days] days before the UTC day of now (the
    time of day plays no part, and a record stamped after now is returned,
    too); the date shown for it is its UTC date. *)
Theorem trend_window_by_day (now n : Z) (db : Database) :
  0 <= n < 5373485 ->
  printable (now - n * msPerDay) = true ->
  (forall r t,
     (exists k, recovery db !! k = Some r) ->
     dr_created_at r = toISOString t -> printable t = true ->
     (r ∈ recovery_trend_rows now (Fin (inject_Z n)) db <->
      dr_recovery_score r <> None /\ now / msPerDay - n <= t / msPerDay)
     /\ rt_date (recovery_trend_select r) = Some (date_string t))
  /\ (forall r t,
        (exists k, sleep db !! k = Some r) ->
        ds_start_time r = toISOString t -> printable t = true ->
        (r ∈ sleep_trend_rows now (Fin (inject_Z n)) db <->
         ds_is_nap r = 0 /\ ds_sleep_performance r <> None
         /\ now / msPerDay - n <= t / msPerDay)
        /\ st_date (sleep_trend_select r) = Some (date_string t))
  /\ (forall r t,
        (exists k, cycles db !! k = Some r) ->
        dc_start_time r = toISOString t -> printable t = true ->
        (r ∈ strain_trend_rows now (Fin (inject_Z n)) db <->
         dc_strain r <> None /\ now / msPerDay - n <= t / msPerDay)
        /\ sn_date (strain_trend_select r) = Some (date_string t)).
Proof.
  intros Hn Hp.
  assert (Hbound : forall t text, text = toISOString t -> printable t = true ->
            (exists c, DATE_now_minus now (Fin (inject_Z n)) = Some c /\ String.le c text)
            <-> now / msPerDay - n <= t / msPerDay).
  { intros t text -> Ht. rewrite (DATE_now_minus_whole now n Hn Hp), <- days_before.
    rewrite <- (date_le_toISOString _ t Hp Ht). split.
    - by intros (c & [= <-] & Hle).
    - intros Hle. by eexists. }
  split; [|split]; intros r t Hrow Htext Ht.
  - split; [|by cbn [rt_date recovery_trend_select]; rewrite Htext, DATE_toISOString].
    rewrite recovery_trend_rows_elem, (Hbound t _ Htext Ht). tauto.
  - split; [|by cbn [st_date sleep_trend_select]; rewrite Htext, DATE_toISOString].
    rewrite sleep_trend_rows_elem, (Hbound t _ Htext Ht). tauto.
  - split; [|by cbn [sn_date strain_trend_select]; rewrite Htext, DATE_toISOString].
    rewrite strain_trend_rows_elem, (Hbound t _ Htext Ht). tauto.
Qed.

(** The recovery created on 2024-01-08 at 06:00 is in the seven-day trend
    of 2024-01-15, 12:10. *)
Lemma trend_window_by_day_witness :
  recovery_row example_now (scored_recovery 93845 "2024-01-08T06:00:00.000Z" 44)
    ∈ recovery_trend_rows example_now (Fin (inject_Z 7)) example_store
  /\ example_now - 7 * msPerDay > 1704693600000.
Proof.
  split; [|done].
  apply (proj1 (trend_window_by_day example_now 7 example_store ltac:(lia) eq_refl)
           (recovery_row example_now (scored_recovery 93845 "2024-01-08T06:00:00.000Z" 44))
           1704693600000).
  - by exists 93845.
  - reflexivity.
  - reflexivity.
  - split; [done | by vm_compute].
Defined.

(** * Time texts in order *)

Lemma lex_compare (B x1 x2 y1 y2 : Z) :
  0 <= x2 < B -> 0 <= y2 < B ->
  match x1 ?= y1 with Eq => x2 ?= y2 | c => c end = (x1 * B + x2 ?= y1 * B + y2).
Proof.
  intros Hx Hy. destruct (Z.compare_spec x1 y1) as [->|Hlt|Hgt]; symmetry.
  - apply Z.add_compare_mono_l.
  - apply Z.compare_lt_iff. nia.
  - apply Z.compare_gt_iff. nia.
Qed.

(** The texts [toISOString] prints for printable instants compare as the
    instants. *)
Lemma compare_toISOString (a b : Z) :
  printable a = true -> printable b = true ->
  String.compare (toISOString a) (toISOString b) = (a ?= b).
Proof.
  intros Ha Hb. unfold toISOString. rewrite (compare_date_string a b _ _ Ha Hb).
  unfold time_string. rewrite !append_assoc.
  change ("T" +:+ ?x) with (String "T" x). cbn [String.compare].
  change (Ascii.compare "T" "T") with Eq. cbv iota.
  pose proof (Z.mod_pos_bound a msPerDay ltac:(done)) as Hra.
  pose proof (Z.mod_pos_bound b msPerDay ltac:(done)) as Hrb.
  pose proof (Z.div_mod a msPerDay ltac:(done)) as Hda.
  pose proof (Z.div_mod b msPerDay ltac:(done)) as Hdb.
  rewrite <- (mod_day_second a), <- (mod_day_second b).
  set (ra := a mod msPerDay) in *. set (rb := b mod msPerDay) in *.
  unfold msPerDay, msPerHour, msPerMinute, msPerSecond in *.
  rewrite compare_pad by (change (10 ^ Z.of_nat 2) with 100; Z.div_mod_to_equations; lia).
  change (":" +:+ ?x) with (String ":" x). cbn [String.compare].
  change (Ascii.compare ":" ":") with Eq. cbv iota.
  rewrite compare_pad by (change (10 ^ Z.of_nat 2) with 100; Z.div_mod_to_equations; lia).
  change (":" +:+ ?x) with (String ":" x). cbn [String.compare].
  change (Ascii.compare ":" ":") with Eq. cbv iota.
  rewrite compare_pad by (change (10 ^ Z.of_nat 2) with 100; Z.div_mod_to_equations; lia).
  change ("." +:+ ?x) with (String "." x). cbn [String.compare].
  change (Ascii.compare "." ".") with Eq. cbv iota.
  rewrite compare_pad by (change (10 ^ Z.of_nat 3) with 1000; Z.div_mod_to_equations; lia).
  change (String.compare "Z" "Z") with Eq.
  assert (match ra mod 1000 ?= rb mod 1000 with Eq => Eq | c => c end
          = (ra mod 1000 ?= rb mod 1000)) as -> by (by destruct (_ ?= _)).
  rewrite (lex_compare 1000) by (Z.div_mod_to_equations; lia).
  rewrite (lex_compare 60000) by (Z.div_mod_to_equations; lia).
  rewrite (lex_compare 3600000) by (Z.div_mod_to_equations; lia).
  rewrite (lex_compare 86400000) by (Z.div_mod_to_equations; lia).
  f_equal; Z.div_mod_to_equations; lia.
Qed.

Lemma toISOString_le (a b : Z) :
  printable a = true -> printable b = true ->
  String.le (toISOString a) (toISOString b) <-> a <= b.
Proof.
  intros Ha Hb. unfold String.le, String.leb. rewrite (compare_toISOString a b Ha Hb).
  destruct (Z.compare_spec a b); simpl; split; (done || lia).
Qed.

(** ** The latest row is the latest in time *)

(** Among rows stamped as [toISOString] prints instants, what
    [getLatestCycle], [getLatestRecovery] and [getLatestSleep] return is a
    row of the latest instant: no row of the table (for sleep: no row that
    is no nap) is of a later one. *)
Theorem getLatest_chronological (db : Database) :
  (forall c t, getLatestCycle db = Some c ->
     dc_start_time c = toISOString t -> printable t = true ->
     forall k c' t', cycles db !! k = Some c' ->
       dc_start_time c' = toISOString t' -> printable t' = true -> t' <= t)
  /\ (forall r t, getLatestRecovery db = Some r ->
        dr_created_at r = toISOString t -> printable t = true ->
        forall k r' t', recovery db !! k = Some r' ->
          dr_created_at r' = toISOString t' -> printable t' = true -> t' <= t)
  /\ (forall s t, getLatestSleep db = Some s ->
        ds_start_time s = toISOString t -> printable t = true ->
        forall k s' t', sleep db !! k = Some s' -> ds_is_nap s' = 0 ->
          ds_start_time s' = toISOString t' -> printable t' = true -> t' <= t).
Proof.
  split; [|split].
  - intros c t Hget Hc Ht k c' t' Hrow Hc' Ht'. unfold getLatestCycle in Hget.
    pose proof (LIMIT_1_ORDER_BY_DESC dc_start_time (rows (cycles db))) as Hl.
    rewrite Hget in Hl. destruct Hl as [_ Hmax].
    apply (toISOString_le t' t Ht' Ht). rewrite <- Hc, <- Hc'.
    apply Hmax, rows_elem. eauto.
  - intros r t Hget Hr Ht k r' t' Hrow Hr' Ht'. unfold getLatestRecovery in Hget.
    pose proof (LIMIT_1_ORDER_BY_DESC dr_created_at (rows (recovery db))) as Hl.
    rewrite Hget in Hl. destruct Hl as [_ Hmax].
    apply (toISOString_le t' t Ht' Ht). rewrite <- Hr, <- Hr'.
    apply Hmax, rows_elem. eauto.
  - intros s t Hget Hs Ht k s' t' Hrow Hnap Hs' Ht'. unfold getLatestSleep in Hget.
    pose proof (LIMIT_1_ORDER_BY_DESC ds_start_time
                  (List.filter (fun r => ds_is_nap r =? 0) (rows (sleep db)))) as Hl.
    rewrite Hget in Hl. destruct Hl as [_ Hmax].
    apply (toISOString_le t' t Ht' Ht). rewrite <- Hs, <- Hs'.
    apply Hmax, WHERE_elem. split; [apply rows_elem; eauto | by apply Z.eqb_eq].
Qed.

(** Of the two recoveries of the example store, the latest is the one
    stamped 2030-01-01. *)
Lemma getLatest_chronological_witness :
  getLatestRecovery example_store
  = Some (recovery_row example_now (scored_recovery 93999 "2030-01-01T00:00:00.000Z" 71))
  /\ 1704693600000 <= 1893456000000.
Proof.
  split; [by vm_compute|].
  apply (proj1 (proj2 (getLatest_chronological example_store))
           (recovery_row example_now (scored_recovery 93999 "2030-01-01T00:00:00.000Z" 71))
           1893456000000 ltac:(by vm_compute) eq_refl eq_refl
           93845
           (recovery_row example_now (scored_recovery 93845 "2024-01-08T06:00:00.000Z" 44))
           1704693600000 eq_refl eq_refl eq_refl).
Defined.

(** ** Range queries with dates as bounds *)

Lemma toISOString_le_date (t e : Z) :
  printable t = true -> printable e = true ->
  String.le (toISOString t) (date_string e) <-> t / msPerDay < e / msPerDay.
Proof.
  intros Ht He. unfold String.le, String.leb, toISOString.
  rewrite <- (append_nil_r (date_string e)).
  rewrite (compare_date_string t e _ _ Ht He).
  change ("T" +:+ ?x) with (String "T" x). cbn [String.compare].
  destruct (Z.compare_spec (t / msPerDay) (e / msPerDay)); simpl; split; (done || lia).
Qed.

Lemma between_dates (s e t : Z) :
  printable s = true -> printable e = true -> printable t = true ->
  between (date_string s) (date_string e) (toISOString t) = true
  <-> s / msPerDay <= t / msPerDay < e / msPerDay.
Proof.
  intros Hs He Ht.
  by rewrite between_spec, (date_le_toISOString s t Hs Ht), (toISOString_le_date t e Ht He).
Qed.

(** The range queries, called with two dates ([YYYY-MM-DD]) on a table
    stamped as [toISOString] prints instants: a row is returned exactly when
    its UTC day is on or after the start date and before the end date; the
    rows of the end date itself are left out (their texts are longer than
    the date, and so greater). *)
Theorem range_by_dates_excludes_end_day (s e : Z) (db : Database) :
  printable s = true -> printable e = true ->
  (forall r t, (exists k, cycles db !! k = Some r) ->
     dc_start_time r = toISOString t -> printable t = true ->
     (r ∈ getCyclesByDateRange (date_string s) (date_string e) db
      <-> s / msPerDay <= t / msPerDay < e / msPerDay))
  /\ (forall r t, (exists k, recovery db !! k = Some r) ->
        dr_created_at r = toISOString t -> printable t = true ->
        (r ∈ getRecoveriesByDateRange (date_string s) (date_string e) db
         <-> s / msPerDay <= t / msPerDay < e / msPerDay))
  /\ (forall includeNaps r t, (exists k, sleep db !! k = Some r) ->
        ds_start_time r = toISOString t -> printable t = true ->
        (r ∈ getSleepsByDateRange (date_string s) (date_string e) includeNaps db
         <-> s / msPerDay <= t / msPerDay < e / msPerDay
             /\ (includeNaps = true \/ ds_is_nap r = 0)))
  /\ (forall r t, (exists k, workouts db !! k = Some r) ->
        dw_start_time r = toISOString t -> printable t = true ->
        (r ∈ getWorkoutsByDateRange (date_string s) (date_string e) db
         <-> s / msPerDay <= t / msPerDay < e / msPerDay)).
Proof.
  intros Hs He. split; [|split; [|split]].
  - intros r t Hrow Htext Ht. unfold getCyclesByDateRange.
    rewrite ORDER_BY_DESC_elem, WHERE_elem, rows_elem, Htext, (between_dates s e t Hs He Ht).
    tauto.
  - intros r t Hrow Htext Ht. unfold getRecoveriesByDateRange.
    rewrite ORDER_BY_DESC_elem, WHERE_elem, rows_elem, Htext, (between_dates s e t Hs He Ht).
    tauto.
  - intros includeNaps r t Hrow Htext Ht. unfold getSleepsByDateRange.
    rewrite ORDER_BY_DESC_elem, WHERE_elem, rows_elem, andb_true_iff, orb_true_iff, Htext,
      (between_dates s e t Hs He Ht), Z.eqb_eq. tauto.
  - intros r t Hrow Htext Ht. unfold getWorkoutsByDateRange.
    rewrite ORDER_BY_DESC_elem, WHERE_elem, rows_elem, Htext, (between_dates s e t Hs He Ht).
    tauto.
Qed.

(** The recovery created on 2024-01-08 is not in the range from 2024-01-01
    to 2024-01-08. *)
Lemma range_by_dates_excludes_end_day_witness :
  date_string 1704067200000 = "2024-01-01" /\ date_string 1704672000000 = "2024-01-08"
  /\ recovery_row example_now (scored_recovery 93845 "2024-01-08T06:00:00.000Z" 44)
       ∉ getRecoveriesByDateRange "2024-01-01" "2024-01-08" example_store.
Proof.
  split; [reflexivity|]. split; [reflexivity|].
  intros Hin.
  apply (proj1 (proj2 (range_by_dates_excludes_end_day 1704067200000 1704672000000
                         example_store eq_refl eq_refl))
           (recovery_row example_now (scored_recovery 93845 "2024-01-08T06:00:00.000Z" 44))
           1704693600000 ltac:(by exists 93845) eq_refl eq_refl) in Hin.
  vm_compute in Hin. by destruct Hin as [_ Hlt].
Defined.

(** * Tool calls within the hour after a sync *)

Section CachedAnswers.
Context `{NodeCrypto} `{Gateway}.
Variable env : Env.

(** On a host in UTC, with tokens stored and a sync stamped less than one
    hour before now: a data tool answers what its query gives on the store
    as it is, and [sync_data] without [full] answers that the data is up to
    date; in both cases the gateway is not called and the store is not
    written (the client is handed the stored tokens, nothing else
    changes). *)
Theorem tool_calls_within_the_hour (typedArgs : ToolArguments) (w : World)
    (t : WhoopTokens) (ts : Z) :
  getTokens env (w_db w) = Ok (Some t) ->
  last_sync_at (sync_state (w_db w)) = Some (CURRENT_TIMESTAMP ts) ->
  printable ts = true ->
  w_now w - (ts - ts mod msPerSecond) < 60 * 60 * 1000 ->
  let authed := {| w_db := w_db w; w_now := w_now w; w_client_tokens := Some t |} in
  (forall name, includes dataTools name = true ->
     exists resp,
       @callTool _ _ utc_host env name typedArgs w = (Ok resp, authed)
       /\ @dispatch _ _ utc_host env name typedArgs authed = (Ok resp, authed)
       /\ isError resp = false)
  /\ (validateBoolean (args_full typedArgs) = false ->
      @callTool _ _ utc_host env "sync_data" typedArgs w = (Ok (text UpToDate), authed)).
Proof.
  intros Htok Hlast Hts Hfresh authed.
  assert (Hskip : @smartSync _ utc_host authed = (Ok {| type := skip; stats := None |}, authed)).
  { rewrite (@smartSync_after_sync _ utc_host authed (CURRENT_TIMESTAMP ts))
      by auto using CURRENT_TIMESTAMP_not_empty.
    unfold hoursSince. cbn [Date_parse utc_host].
    rewrite parse_CURRENT_TIMESTAMP by done. rewrite hours_lt_one.
    cbn [w_now authed]. by assert ((w_now w - (ts - ts mod msPerSecond) <? 3600000) = true)
      as -> by (apply Z.ltb_lt; lia). }
  split.
  - intros name Hdata.
    destruct (@dispatch_data_tool _ _ utc_host env name typedArgs authed Hdata)
      as (resp & Hresp & Herr).
    exists resp. split; [|done].
    unfold callTool. rewrite Hdata.
    unfold try_catch at 1, bind at 1, db_getTokens, bind at 1, get, lift.
    rewrite Htok. unfold bind at 1, client_setTokens, modify.
    unfold bind at 1, try_catch, bind at 1. fold authed. rewrite Hskip.
    unfold ret. by rewrite Hresp.
  - intros Hfull.
    unfold callTool. cbn [includes dataTools existsb String.eqb Ascii.eqb Bool.eqb orb].
    unfold try_catch, dispatch. cbn [String.eqb Ascii.eqb Bool.eqb andb].
    unfold bind at 1, db_getTokens, bind at 1, get, lift. rewrite Htok.
    unfold bind at 1, client_setTokens, modify. fold authed.
    rewrite Hfull. unfold bind. by rewrite Hskip.
Qed.

End CachedAnswers.

(** Half an hour after a sync, with the upstream down: [sync_data] answers
    that the data is up to date. *)
Lemma tool_calls_within_the_hour_witness :
  let db := updateSyncState example_now "2024-01-08" "2024-01-15" store_with_tokens in
  fst (@callTool toy_crypto failing_gateway utc_host example_env "sync_data" no_arguments
         (world_at (example_now + 30 * msPerMinute) db))
  = Ok (text UpToDate).
Proof.
  intros db.
  destruct (@tool_calls_within_the_hour toy_crypto failing_gateway example_env no_arguments
              (world_at (example_now + 30 * msPerMinute) db) example_tokens example_now)
    as [_ Hsync]; [by vm_compute | reflexivity | reflexivity | by vm_compute |].
  by rewrite Hsync.
Defined.
